(** * scikit-fda: basis smoothing, functional PCA and the Fourier basis

    A shallow embedding of
      - [skfda/preprocessing/smoothing/_basis.py]
        (the solver strategies [_Cholesky], [_QR], [_Matrix] and [BasisSmoother]),
      - [skfda/preprocessing/dim_reduction/projection/_fpca.py]
        ([FPCABasis.fit], [FPCAGrid.fit]),
      - [skfda/representation/basis/_fourier.py]
        ([Fourier.__init__], [Fourier.period], [Fourier._evaluate],
        [Fourier._derivative_basis_and_coefs]),
      - [skfda/_utils/_utils.py]
        ([_list_of_arrays], [_cartesian_product], [_one_grid_to_points]).

    Conventions.
      - Python floats are modelled by exact numbers: rationals [Q] for the
        linear algebra (so that every definition runs), reals [R] for the
        Fourier basis (which needs [sqrt], [sin], [cos]).
      - A 2-D [numpy.ndarray] is a [matrix]: a shape and an indexing
        function.  Concrete arrays are written row by row with [of_rows]
        and read back with [to_rows].
      - Python exceptions are values of [exn]; code that may raise returns
        a [result].
      - LAPACK-backed calls of NumPy, SciPy and scikit-learn are the
        operations of the class [LinAlg]; the exact-arithmetic contracts
        the theorems rely on are the class [LinAlgLaws].
      - Objects that Python shares by reference (array buffers, estimator
        attributes) live in an explicit heap. *)

From Stdlib Require Import QArith ZArith List String Ascii Lia.
From Stdlib Require Lqa Reals Lra.
From stdpp Require Import gmap strings list fin_maps pretty.

Set Default Proof Using "Type".

(* ===================================================================== *)
(** * Python exceptions                                                   *)
(* ===================================================================== *)

Module Py.

(** The exception classes the modelled code raises. *)
Inductive exn : Type :=
| ValueError (msg : string)
| AttributeError (msg : string)
| TypeError (msg : string)
| KeyError (key : string)
| IndexError (msg : string)
| AssertionError
| LinAlgError.

(** The outcome of a call: a value or a raised exception. *)
Inductive result (A : Type) : Type :=
| Ok (a : A)
| Raise (e : exn).

Arguments Ok {A} a.
Arguments Raise {A} e.

Definition bind {A B : Type} (c : result A) (k : A -> result B) : result B :=
  match c with
  | Ok a => k a
  | Raise e => Raise e
  end.

(** A LAPACK-backed call either produces a value or fails numerically. *)
Definition lapack {A : Type} (o : option A) : result A :=
  match o with
  | Some a => Ok a
  | None => Raise LinAlgError
  end.

Definition is_ok {A : Type} (c : result A) : bool :=
  match c with
  | Ok _ => true
  | Raise _ => false
  end.

(** An exception that is no [AttributeError]. *)
Definition no_AttributeError (e : exn) : Prop :=
  forall msg, e <> AttributeError msg.

(** Every exception the call [r] can have raised satisfies [P]. *)
Definition only_raises {A : Type} (P : exn -> Prop) (r : result A) : Prop :=
  forall e, r = Raise e -> P e.

End Py.

Export Py.

Declare Scope py_scope.
Delimit Scope py_scope with py.
Notation "x <- c ;; k" := (Py.bind c (fun x => k))
  (at level 100, c at next level, right associativity) : py_scope.

(* ===================================================================== *)
(** * Dense matrices over exact rationals                                 *)
(* ===================================================================== *)

Module np.

Open Scope Q_scope.

(** A 2-D array: its shape and its entries.  Entries outside the shape are
    never read by the operations below. *)
Record matrix : Type := mk_matrix {
  nrows : nat;
  ncols : nat;
  entry : nat -> nat -> Q
}.

(** [shape M] is [M.shape]. *)
Definition shape (M : matrix) : nat * nat := (nrows M, ncols M).

(** A nested Python list as an array, row by row. *)
Definition of_rows (rows : list (list Q)) : matrix :=
  mk_matrix (length rows) (length (hd [] rows))
            (fun i j => nth j (nth i rows []) 0).

(** The rows of an array ([M.tolist()]). *)
Definition to_rows (M : matrix) : list (list Q) :=
  map (fun i => map (fun j => entry M i j) (seq 0 (ncols M))) (seq 0 (nrows M)).

(** Row [i] of [M]. *)
Definition row (M : matrix) (i : nat) : list Q :=
  map (fun j => entry M i j) (seq 0 (ncols M)).

(** [qsum n f] is f 0 + ... + f (n-1). *)
Fixpoint qsum (n : nat) (f : nat -> Q) : Q :=
  match n with
  | O => 0
  | S k => qsum k f + f k
  end.

(** [M.T]. *)
Definition transpose (M : matrix) : matrix :=
  mk_matrix (ncols M) (nrows M) (fun i j => entry M j i).

(** [A @ B] for conformable [A] and [B].  The shapes are not compared:
    where the number of columns of [A] is not the number of rows of [B],
    NumPy raises [ValueError]. *)
Definition matmul (A B : matrix) : matrix :=
  mk_matrix (nrows A) (ncols B)
            (fun i j => qsum (ncols A) (fun k => entry A i k * entry B k j)).

(** [A + B], elementwise. *)
Definition add (A B : matrix) : matrix :=
  mk_matrix (nrows A) (ncols A) (fun i j => entry A i j + entry B i j).

(** [A + c]: a scalar broadcast over every entry. *)
Definition add_scalar (A : matrix) (c : Q) : matrix :=
  mk_matrix (nrows A) (ncols A) (fun i j => entry A i j + c).

(** [c * A]. *)
Definition scale (c : Q) (A : matrix) : matrix :=
  mk_matrix (nrows A) (ncols A) (fun i j => c * entry A i j).

(** [A / c]. *)
Definition divide (A : matrix) (c : Q) : matrix :=
  mk_matrix (nrows A) (ncols A) (fun i j => entry A i j / c).

(** [A - r] where the single row [r] is broadcast over the rows of [A]. *)
Definition sub_row (A r : matrix) : matrix :=
  mk_matrix (nrows A) (ncols A) (fun i j => entry A i j - entry r 0%nat j).

(** [A.mean(axis=0)] kept as one row: the mean over the rows (samples). *)
Definition mean_rows (A : matrix) : matrix :=
  mk_matrix 1 (ncols A)
            (fun _ j => qsum (nrows A) (fun i => entry A i j)
                        / inject_Z (Z.of_nat (nrows A))).

(** [np.identity(n)]. *)
Definition identity (n : nat) : matrix :=
  mk_matrix n n (fun i j => if Nat.eqb i j then 1 else 0).

(** [np.diag(v)] for a vector [v]. *)
Definition diag (v : list Q) : matrix :=
  mk_matrix (length v) (length v)
            (fun i j => if Nat.eqb i j then nth i v 0 else 0).

(** [np.concatenate([A, B], axis=0)]. *)
Definition vstack (A B : matrix) : matrix :=
  mk_matrix (nrows A + nrows B) (ncols A)
            (fun i j => if Nat.ltb i (nrows A) then entry A i j
                        else entry B (i - nrows A)%nat j).

(** [np.pad(A, ((0, n), (0, 0)), mode='constant')]: [n] zero rows below. *)
Definition pad_rows (A : matrix) (n : nat) : matrix :=
  mk_matrix (nrows A + n) (ncols A)
            (fun i j => if Nat.ltb i (nrows A) then entry A i j else 0).

(** [A[:, ::-1]]: the columns in reverse order. *)
Definition reverse_columns (A : matrix) : matrix :=
  mk_matrix (nrows A) (ncols A) (fun i j => entry A i (ncols A - 1 - j)%nat).

(** [np.maximum(x, y)] on scalars. *)
Definition maximum (x y : Q) : Q := if Qle_bool x y then y else x.

(** Equality of arrays: same shape, equal entries. *)
Definition meq (A B : matrix) : Prop :=
  nrows A = nrows B /\ ncols A = ncols B /\
  forall i j, (i < nrows A)%nat -> (j < ncols A)%nat -> entry A i j == entry B i j.

(** [np.array_equal(A, B)]. *)
Definition meqb (A B : matrix) : bool :=
  Nat.eqb (nrows A) (nrows B) && Nat.eqb (ncols A) (ncols B) &&
  forallb (fun i => forallb (fun j => Qeq_bool (entry A i j) (entry B i j))
                            (seq 0 (ncols A)))
          (seq 0 (nrows A)).

(** [np.all(A == 0)]. *)
Definition all_zero (A : matrix) : bool :=
  forallb (fun i => forallb (fun j => Qeq_bool (entry A i j) 0) (seq 0 (ncols A)))
          (seq 0 (nrows A)).

(** [A] is symmetric. *)
Definition symmetricb (A : matrix) : bool := meqb A (transpose A).

(** The symmetric matrix that a LAPACK routine called with [lower=True]
    sees in [A]: the entries on and below the diagonal, mirrored above
    it. *)
Definition lower_mirror (A : matrix) : matrix :=
  mk_matrix (nrows A) (ncols A)
            (fun i j => if Nat.leb j i then entry A i j else entry A j i).

End np.

Export np.
Infix "@@" := np.matmul (at level 40, left associativity) : Q_scope.
Infix "=m" := np.meq (at level 70, no associativity) : Q_scope.

(* ===================================================================== *)
(** * Array buffers shared by reference                                   *)
(* ===================================================================== *)

Module Heap.

Open Scope Q_scope.

(** The address of an array buffer. *)
Abbreviation loc := nat (only parsing).

(** The store of array buffers. *)
Abbreviation heap := (gmap nat matrix) (only parsing).

(** An [ndarray] object: a view of a buffer, either as stored or
    transposed.  [a.T] and [np.squeeze(a)] make views, never copies. *)
Record ndarray : Type := mk_ndarray {
  base : loc;
  transposed : bool
}.

(** [a.T]: a view of the same buffer. *)
Definition view_T (a : ndarray) : ndarray :=
  mk_ndarray (base a) (negb (transposed a)).

(** The array a view shows. *)
Definition read (h : heap) (a : ndarray) : matrix :=
  let M := default (of_rows []) (h !! base a) in
  if transposed a then transpose M else M.

(** Writing the whole array through a view: the buffer changes, and with
    it every other view of the buffer. *)
Definition write (h : heap) (a : ndarray) (M : matrix) : heap :=
  <[base a := if transposed a then transpose M else M]> h.

(** A new array with a buffer of its own. *)
Definition alloc (h : heap) (M : matrix) : heap * ndarray :=
  let l := fresh (dom h) in
  (<[l := M]> h, mk_ndarray l false).

End Heap.

Export Heap.

(* ===================================================================== *)
(** * The numerical libraries behind the code                             *)
(* ===================================================================== *)

(** What the installed NumPy does where releases differ.  Up to 1.24
    [a @= b] raises [TypeError] and [a == b] on arrays whose shapes cannot
    be broadcast answers the Python value [False]; from 1.25 on [a @= b]
    writes the product into [a]'s buffer and such an [a == b] raises
    [ValueError]. *)
Class NumPy : Type := {
  numpy_ge_1_25 : bool
}.

(** The LAPACK-backed calls of [numpy.linalg] and [scipy.linalg].  [None]
    is a numerical failure ([LinAlgError]); in an exact-arithmetic instance
    it is also the answer when the result is irrational. *)
Class LinAlg : Type := {
  (** [np.linalg.solve(a, b)] *)
  linalg_solve : matrix -> matrix -> option matrix;
  (** [scipy.linalg.cho_solve(scipy.linalg.cho_factor(a, lower=True), b)];
      [cho_factor] reads the lower triangle of [a] only *)
  cho_solve_cho_factor : matrix -> matrix -> option matrix;
  (** [scipy.linalg.cholesky(a)]: the upper factor [U], [U.T @ U = a] *)
  scipy_cholesky : matrix -> option matrix;
  (** [np.linalg.cholesky(a)]: the lower factor [L], [L @ L.T = a] *)
  linalg_cholesky : matrix -> option matrix;
  (** [scipy.linalg.solve_triangular(a, b, lower=...)] *)
  solve_triangular : matrix -> matrix -> bool -> option matrix;
  (** [np.linalg.eigh(a)]: eigenvalues in ascending order, eigenvectors
      as columns *)
  linalg_eigh : matrix -> option (list Q * matrix);
  (** [np.linalg.qr(a)] *)
  linalg_qr : matrix -> option (matrix * matrix);
  (** [np.sqrt(x)] *)
  np_sqrt : Q -> option Q;
  (** [sklearn.decomposition.PCA(n_components).fit(a)]: the fitted
      [components_] and [singular_values_] *)
  PCA_fit : Z -> matrix -> option (matrix * list Q)
}.

(** The exact-arithmetic contracts of the calls the theorems rely on.
    [cho_solve] solves the system of the symmetric matrix that
    [cho_factor] has read in the lower triangle of [A]; it is the system
    of [A] when [A] is symmetric. *)
Class LinAlgLaws (L : LinAlg) : Prop := {
  linalg_solve_sound : forall A B X,
    linalg_solve A B = Some X -> nrows X = ncols A /\ (A @@ X =m B)%Q;
  cho_solve_sound : forall A B X,
    cho_solve_cho_factor A B = Some X ->
    nrows X = ncols A /\ (lower_mirror A @@ X =m B)%Q
}.

(** [a @= B] (line 29 and line 353 of [_basis.py]): the product is written
    into the buffer [a] views, where NumPy supports it. *)
Definition imatmul `{NumPy} (h : heap) (a : ndarray) (B : matrix) : result heap :=
  if numpy_ge_1_25
  then Ok (write h a (read h a @@ B)%Q)
  else Raise (TypeError "In-place matrix multiplication is not (yet) supported. Use 'a = a @ b' instead of 'a @= b'.").

(** The value of [i == s] for two 1-D arrays. *)
Inductive comparison_value : Type :=
| BoolArray (l : list bool)
| PyFalse.

(** [i == s] on 1-D arrays: elementwise, a one-element array is broadcast,
    and shapes that cannot be broadcast are an error or the Python value
    [False], by release. *)
Definition array_eq `{NumPy} (i s : list Q) : result comparison_value :=
  if Nat.eqb (length i) (length s)
  then Ok (BoolArray (map (fun p => Qeq_bool (fst p) (snd p)) (combine i s)))
  else if Nat.eqb (length i) 1
  then Ok (BoolArray (map (fun y => Qeq_bool (nth 0 i 0%Q) y) s))
  else if Nat.eqb (length s) 1
  then Ok (BoolArray (map (fun x => Qeq_bool x (nth 0 s 0%Q)) i))
  else if numpy_ge_1_25
  then Raise (ValueError "operands could not be broadcast together")
  else Ok PyFalse.

(** The builtin [all(v)]. *)
Definition py_all (v : comparison_value) : result bool :=
  match v with
  | BoolArray l => Ok (forallb (fun b => b) l)
  | PyFalse => Raise (TypeError "'bool' object is not iterable")
  end.

(** A list comprehension whose element expression may raise. *)
Fixpoint comprehension {A B : Type} (f : A -> result B) (l : list A) : result (list B) :=
  match l with
  | [] => Ok []
  | x :: rest =>
      (y <- f x ;;
       ys <- comprehension f rest ;;
       Ok (y :: ys))%py
  end.

(** [x < y] on floats. *)
Definition Qltb (x y : Q) : bool := negb (Qle_bool y x).

(* ===================================================================== *)
(** * [skfda/preprocessing/smoothing/_basis.py]                           *)
(* ===================================================================== *)

Module Smoothing.

Open Scope Q_scope.
Open Scope py_scope.

(** Sample points: one 1-D array of coordinates per dimension of the
    domain ([FDataGrid.sample_points]). *)
Abbreviation points := (list (list Q)) (only parsing).

(** What the smoother uses of a [Basis]: its size and its evaluation at a
    list of points, an array of shape (n_basis, number of points). *)
Record Basis : Type := mk_Basis {
  n_basis : nat;
  evaluate : list (list Q) -> matrix
}.

(** What the smoother uses of a regularization object: the penalty matrix
    R of a basis. *)
Record Regularization : Type := mk_Regularization {
  penalty_matrix_of : Basis -> matrix
}.

(** A discretized sample: values of shape (n_samples, number of points)
    and the sample points. *)
Record FDataGrid : Type := mk_FDataGrid {
  data_matrix : matrix;
  sample_points : list (list Q)
}.

(** A sample in basis form: coefficients of shape (n_samples, n_basis). *)
Record FDataBasis : Type := mk_FDataBasis {
  fd_basis : Basis;
  coefficients : matrix
}.

(** What a smoother returns. *)
Inductive FData : Type :=
| Grid (g : FDataGrid)
| InBasis (b : FDataBasis).

(** [_cartesian_product(axes)] of [skfda/_utils/_utils.py]: the points of
    the grid, the first axis varying slowest; [np.stack] refuses an empty
    list of axes. *)
Fixpoint cartesian (axes : list (list Q)) : list (list Q) :=
  match axes with
  | [] => [[]]
  | a :: rest => flat_map (fun x => map (cons x) (cartesian rest)) a
  end.

Definition _cartesian_product (axes : list (list Q)) : result (list (list Q)) :=
  match axes with
  | [] => Raise (ValueError "need at least one array to stack")
  | _ => Ok (cartesian axes)
  end.

(** The value of the argument [penalty_matrix]. *)
Inductive penalty : Type :=
| PenaltyNone
| PenaltyScalar (c : Q)
| PenaltyMatrix (R : matrix).

(** Modelled from the spec: [compute_penalty_matrix] of
    [skfda/misc/regularization] is not among the sources.  It is the
    penalty term lambda * R of section 4.2, "optionally zero": the scalar
    0 when no regularization is configured or lambda is 0. *)
Definition compute_penalty_matrix (b : Basis) (regularization_parameter : Q)
    (regularization : option Regularization) : penalty :=
  match regularization with
  | None => PenaltyScalar 0
  | Some r =>
      if Qeq_bool regularization_parameter 0
      then PenaltyScalar 0
      else PenaltyMatrix (scale regularization_parameter (penalty_matrix_of r b))
  end.

(** [M += penalty_matrix]. *)
Definition iadd_penalty (M : matrix) (p : penalty) : result matrix :=
  match p with
  | PenaltyNone =>
      Raise (TypeError "unsupported operand type(s) for +=: 'float' and 'NoneType'")
  | PenaltyScalar c => Ok (add_scalar M c)
  | PenaltyMatrix R => Ok (add M R)
  end.

(** [np.all(penalty_matrix == 0)]. *)
Definition penalty_all_zero (p : penalty) : bool :=
  match p with
  | PenaltyNone => false
  | PenaltyScalar c => Qeq_bool c 0
  | PenaltyMatrix R => all_zero R
  end.

Section Solvers.

Context `{NP : NumPy} `{LA : LinAlg}.

(** [_Cholesky.__call__] (lines 23-45).  [basis_values] is passed by
    reference: [common_matrix] is a view of its buffer. *)
Definition _Cholesky (h : heap) (basis_values : ndarray)
    (weight_matrix : option matrix) (data_matrix : matrix)
    (penalty_matrix : penalty) : result matrix :=
  let common_matrix := view_T basis_values in                       (* 26 *)
  h <- match weight_matrix with                                      (* 28 *)
       | Some W => imatmul h common_matrix W                         (* 29 *)
       | None => Ok h
       end ;;
  let right_matrix := read h common_matrix @@ data_matrix in         (* 31 *)
  let left_matrix := read h common_matrix @@ read h basis_values in  (* 32 *)
  left_matrix <- match penalty_matrix with                           (* 35 *)
                 | PenaltyNone => Ok left_matrix
                 | _ => iadd_penalty left_matrix penalty_matrix      (* 36 *)
                 end ;;
  coefficients <- lapack (cho_solve_cho_factor left_matrix right_matrix) ;; (* 38 *)
  Ok (transpose coefficients).                                       (* 43 *)

(** [np.sqrt(w)] on a vector. *)
Definition sqrt_vector (w : list Q) : result (list Q) :=
  comprehension (fun x => lapack (np_sqrt x)) w.

(** [_QR.__call__] (lines 51-95). *)
Definition _QR (basis_values : matrix) (weight_matrix : option matrix)
    (data_matrix : matrix) (penalty_matrix : penalty) : result matrix :=
  bd <- match weight_matrix with                                     (* 54 *)
        | Some W =>
            upper <- lapack (scipy_cholesky W) ;;                    (* 56 *)
            Ok (upper @@ basis_values, upper @@ data_matrix)         (* 57-58 *)
        | None => Ok (basis_values, data_matrix)
        end ;;
  bd <- (if negb (penalty_all_zero penalty_matrix)                   (* 60 *)
         then
           match penalty_matrix with
           | PenaltyMatrix R =>
               wv <- lapack (linalg_eigh R) ;;                       (* 61 *)
               let w := rev (fst wv) in                              (* 63 *)
               let v := reverse_columns (snd wv) in                  (* 64 *)
               let w := map (fun x => maximum x 0) w in                   (* 66 *)
               sw <- sqrt_vector w ;;
               let penalty_matrix := v @@ diag sw in                 (* 68 *)
               Ok (vstack (fst bd) (transpose penalty_matrix),       (* 71 *)
                   pad_rows (snd bd) (nrows v))                      (* 76 *)
           | _ => Raise LinAlgError   (* eigh of a 0-dimensional array *)
           end
         else Ok bd) ;;
  qr <- lapack (linalg_qr (fst bd)) ;;                               (* 86 *)
  let right_matrix := transpose (fst qr) @@ snd bd in                (* 87 *)
  coefficients <- lapack (linalg_solve (snd qr) right_matrix) ;;     (* 90 *)
  Ok (transpose coefficients).                                       (* 93 *)

End Solvers.

(** The members of the enumeration [BasisSmoother.SolverMethod]. *)
Module SolverMethod.
Inductive t : Type := cholesky | qr | matrix.
End SolverMethod.

(** The functions a solver class defines. *)
Inductive solver_function : Type :=
| def_fit
| def_fit_transform
| def_call
| def_transform.

(** The attributes of an instance of each solver class: the functions of
    the class body ([_Cholesky]: lines 20-45, [_QR]: 48-95, [_Matrix]:
    98-127). *)
Definition class_dict (m : SolverMethod.t) : gmap string solver_function :=
  match m with
  | SolverMethod.cholesky => {[ "__call__"%string := def_call ]}
  | SolverMethod.qr => {[ "__call__"%string := def_call ]}
  | SolverMethod.matrix =>
      list_to_map [("fit"%string, def_fit);
                   ("fit_transform"%string, def_fit_transform);
                   ("__call__"%string, def_call);
                   ("transform"%string, def_transform)]
  end.

(** [getattr(method, name, None)]. *)
Definition getattr_or_None (m : SolverMethod.t) (name : string) : option solver_function :=
  class_dict m !! name.

(** [method.name]: a missing attribute raises. *)
Definition getattr (class_name : string) (m : SolverMethod.t) (name : string)
  : result solver_function :=
  match class_dict m !! name with
  | Some f => Ok f
  | None =>
      Raise (AttributeError
               ("'" ++ class_name ++ "' object has no attribute '" ++ name ++ "'"))
  end.

(** The constructor argument [method]: a name or a member of the
    enumeration. *)
Inductive method_argument : Type :=
| MethodName (s : string)
| Member (m : SolverMethod.t).

(** [str.lower()] on ASCII letters. *)
Definition lower_ascii (c : ascii) : ascii :=
  let n := nat_of_ascii c in
  if Nat.leb 65 n && Nat.leb n 90 then ascii_of_nat (n + 32) else c.

Fixpoint lower (s : string) : string :=
  match s with
  | EmptyString => EmptyString
  | String c rest => String (lower_ascii c) (lower rest)
  end.

(** [SolverMethod[name]]. *)
Definition SolverMethod_getitem (name : string) : result SolverMethod.t :=
  if String.eqb name "cholesky" then Ok SolverMethod.cholesky
  else if String.eqb name "qr" then Ok SolverMethod.qr
  else if String.eqb name "matrix" then Ok SolverMethod.matrix
  else Raise (KeyError name).

(** The estimator: the constructor's parameters (lines 302-318) and the
    attributes the methods set. *)
Record BasisSmoother : Type := mk_BasisSmoother {
  basis : Basis;
  smoothing_parameter : Q;
  weights : option matrix;
  regularization : option Regularization;
  output_points : option (list (list Q));
  method : method_argument;
  return_basis : bool;
  input_points_ : option (list (list Q));
  output_points_ : option (list (list Q));
  _cached_coef_matrix : option matrix;
  _cached_hat_matrix : option (list (list Q) * list (list Q) * matrix)
}.

(** [BasisSmoother.__init__] (lines 302-318), with the defaults of the
    signature where the caller gives none. *)
Definition BasisSmoother_init (basis : Basis) (smoothing_parameter : Q)
    (weights : option matrix) (regularization : option Regularization)
    (output_points : option (list (list Q))) (method : method_argument)
    (return_basis : bool) : BasisSmoother :=
  mk_BasisSmoother basis smoothing_parameter weights regularization
                   output_points method return_basis None None None None.

Definition set_points (self : BasisSmoother) (ip op : list (list Q)) : BasisSmoother :=
  mk_BasisSmoother (basis self) (smoothing_parameter self) (weights self)
    (regularization self) (output_points self) (method self) (return_basis self)
    (Some ip) (Some op) (_cached_coef_matrix self) (_cached_hat_matrix self).

Definition set_cached_coef_matrix (self : BasisSmoother) (M : matrix) : BasisSmoother :=
  mk_BasisSmoother (basis self) (smoothing_parameter self) (weights self)
    (regularization self) (output_points self) (method self) (return_basis self)
    (input_points_ self) (output_points_ self) (Some M) (_cached_hat_matrix self).

Definition set_cached_hat_matrix (self : BasisSmoother)
    (ip op : list (list Q)) (M : matrix) : BasisSmoother :=
  mk_BasisSmoother (basis self) (smoothing_parameter self) (weights self)
    (regularization self) (output_points self) (method self) (return_basis self)
    (input_points_ self) (output_points_ self) (_cached_coef_matrix self)
    (Some (ip, op, M)).

(** Two lists of axes hold the same points. *)
Definition points_eqb (p q : list (list Q)) : bool :=
  Nat.eqb (length p) (length q)
  && forallb (fun ab => Nat.eqb (length (fst ab)) (length (snd ab))
                        && forallb (fun xy => Qeq_bool (fst xy) (snd xy))
                                   (combine (fst ab) (snd ab)))
             (combine p q).

(** Reading an attribute that [fit] sets. *)
Definition fitted {A : Type} (name : string) (a : option A) : result A :=
  match a with
  | Some x => Ok x
  | None =>
      Raise (AttributeError
               ("'BasisSmoother' object has no attribute '" ++ name ++ "'"))
  end.

(** [BasisSmoother._method_function] (lines 320-327). *)
Definition _method_function (self : BasisSmoother) : result SolverMethod.t :=
  match method self with
  | Member m => Ok m
  | MethodName s => SolverMethod_getitem (lower s)
  end.

(** [self.basis.evaluate(_cartesian_product(points))]: shape
    (n_basis, number of points). *)
Definition evaluate_basis (self : BasisSmoother) (pts : list (list Q)) : result matrix :=
  grid <- _cartesian_product pts ;;
  Ok (evaluate (basis self) grid).

(** The error of lines 459-462. *)
Definition underdetermined (n_basis n_points : nat) : exn :=
  ValueError ("The number of basis functions (" ++ pretty n_basis
              ++ ") exceed the number of points to be smoothed ("
              ++ pretty n_points ++ ").").

(** An exception that is not the error of lines 459-462. *)
Definition not_underdetermined (e : exn) : Prop :=
  forall n m, e <> underdetermined n m.

Section Smoother.

Context `{NP : NumPy} `{LA : LinAlg}.

(** [BasisSmoother._coef_matrix] (lines 329-356).  The evaluated basis is
    one buffer; [basis_values_input] and [right_side] are views of it. *)
Definition _coef_matrix (self : BasisSmoother) (input_points : list (list Q))
  : result matrix :=
  values <- evaluate_basis self input_points ;;
  let hb := alloc ∅ values in
  let h := fst hb in
  let basis_values_input := view_T (snd hb) in                       (* 333 *)
  let ols_matrix :=
    match weights self with                                          (* 338 *)
    | Some W =>
        read h (view_T basis_values_input) @@ W
        @@ read h basis_values_input                                 (* 339 *)
    | None =>
        read h (view_T basis_values_input) @@ read h basis_values_input (* 342 *)
    end in
  let penalty_matrix :=
    compute_penalty_matrix (basis self) (smoothing_parameter self)
                           (regularization self) in                  (* 344 *)
  ols_matrix <- iadd_penalty ols_matrix penalty_matrix ;;            (* 349 *)
  let right_side := view_T basis_values_input in                     (* 351 *)
  h <- match weights self with                                       (* 352 *)
       | Some W => imatmul h right_side W                            (* 353 *)
       | None => Ok h
       end ;;
  lapack (linalg_solve ols_matrix (read h right_side)).              (* 355 *)

(** [BasisSmoother._hat_matrix] (lines 358-363). *)
Definition _hat_matrix (self : BasisSmoother) (input_points output_points : list (list Q))
  : result matrix :=
  values <- evaluate_basis self output_points ;;
  let basis_values_output := transpose values in                     (* 359 *)
  coef <- _coef_matrix self input_points ;;
  Ok (basis_values_output @@ coef).                                  (* 363 *)

(** Modelled from the spec: [_LinearSmoother.hat_matrix] of
    [skfda/preprocessing/smoothing/_linear.py] is not among the sources.
    Section 3: the hat matrix is "computed lazily on first need", is
    "valid only for a fixed pair of (input points, output points, ...)"
    and is "never silently reused across configurations"; section 4.3: it
    is cached on the estimator.  The cache holds the matrix with the
    points it was computed for. *)
Definition hat_matrix (self : BasisSmoother) : result (BasisSmoother * matrix) :=
  ip <- fitted "input_points_" (input_points_ self) ;;
  op <- fitted "output_points_" (output_points_ self) ;;
  let compute :=
    H <- _hat_matrix self ip op ;;
    Ok (set_cached_hat_matrix self ip op H, H) in
  match _cached_hat_matrix self with
  | Some (cached_ip, cached_op, H) =>
      if points_eqb ip cached_ip && points_eqb op cached_op
      then Ok (self, H)
      else compute
  | None => compute
  end.

(** [_Matrix.fit] (lines 101-107). *)
Definition _Matrix_fit (estimator : BasisSmoother) (X : FDataGrid) : result BasisSmoother :=
  if return_basis estimator                                          (* 102 *)
  then
    ip <- fitted "input_points_" (input_points_ estimator) ;;
    coef <- _coef_matrix estimator ip ;;                             (* 103 *)
    Ok (set_cached_coef_matrix estimator coef)
  else
    r <- hat_matrix estimator ;;                                     (* 107 *)
    Ok (fst r).

(** [BasisSmoother.fit] (lines 365-387). *)
Definition fit (self : BasisSmoother) (X : FDataGrid) : result BasisSmoother :=
  let input_points_ := sample_points X in                            (* 377 *)
  let output_points_ :=
    match output_points self with                                    (* 378 *)
    | Some op => op
    | None => input_points_
    end in
  let self := set_points self input_points_ output_points_ in
  method <- _method_function self ;;                                 (* 382 *)
  match getattr_or_None method "fit" with                            (* 383 *)
  | Some _ => _Matrix_fit self X                                     (* 385 *)
  | None => Ok self
  end.                                                               (* 387 *)

(** Modelled from the spec: [FDataBasis.to_grid] is not among the
    sources.  The curve of a sample is the linear combination of the basis
    functions with its coefficients, evaluated at the given points. *)
Definition to_grid (fd : FDataBasis) (pts : list (list Q)) : result FDataGrid :=
  grid <- _cartesian_product pts ;;
  Ok (mk_FDataGrid (coefficients fd @@ evaluate (fd_basis fd) grid) pts).

(** [_Matrix.transform] (lines 115-127); [self] is the [_Matrix] instance
    and [estimator] the smoother. *)
Definition _Matrix_transform (estimator : BasisSmoother) (X : FDataGrid)
  : result (BasisSmoother * FData) :=
  if return_basis estimator                                          (* 116 *)
  then
    cached <- fitted "_cached_coef_matrix" (_cached_coef_matrix estimator) ;;
    let coefficients := data_matrix X @@ transpose cached in         (* 117 *)
    Ok (estimator,
        InBasis (mk_FDataBasis (basis estimator) coefficients))      (* 120 *)
  else
    (* 126: [self.hat_matrix()], looked up on the solver object; whatever
       function of the class it named would be called without its
       arguments *)
    _ <- getattr "_Matrix" SolverMethod.matrix "hat_matrix" ;;
    Raise (TypeError "missing required positional arguments").

(** The assertion of [BasisSmoother.transform] (lines 486-487):
    [all([all(i == s) for i, s in zip(self.input_points_, X.sample_points)])]. *)
Definition same_points (input_points_ sample_points : list (list Q)) : result bool :=
  checks <- comprehension
              (fun p => e <- array_eq (fst p) (snd p) ;; py_all e)
              (combine input_points_ sample_points) ;;
  Ok (forallb (fun b => b) checks).

(** [BasisSmoother.transform] (lines 474-499), open in the method
    [fit_transform] it falls back to. *)
Definition transform_body
    (fit_transform : BasisSmoother -> FDataGrid -> result (BasisSmoother * FData))
    (self : BasisSmoother) (X : FDataGrid) : result (BasisSmoother * FData) :=
  ip <- fitted "input_points_" (input_points_ self) ;;
  same <- same_points ip (sample_points X) ;;                        (* 486 *)
  if negb same then Raise AssertionError else
  method <- _method_function self ;;                                 (* 489 *)
  match getattr_or_None method "transform" with                      (* 492 *)
  | Some _ => _Matrix_transform self X                               (* 494 *)
  | None => fit_transform self X                                     (* 499 *)
  end.

(** The end of [BasisSmoother.fit_transform] (lines 464-470): the
    coefficients in basis form, or the curves at the output points. *)
Definition finish (self : BasisSmoother) (coefficients : matrix)
  : result (BasisSmoother * FData) :=
  let fdatabasis := mk_FDataBasis (basis self) coefficients in       (* 464 *)
  if return_basis self                                               (* 467 *)
  then Ok (self, InBasis fdatabasis)                                 (* 468 *)
  else
    output_points_ <- fitted "output_points_" (output_points_ self) ;;
    g <- to_grid fdatabasis output_points_ ;;                        (* 470 *)
    Ok (self, Grid g).

(** The solver called as a function (lines 447-451): [_Cholesky.__call__],
    [_QR.__call__], and [_Matrix.__call__] (lines 112-113), which returns
    [None]. *)
Definition call_method (method : SolverMethod.t) (h : heap) (basis_values : ndarray)
    (weight_matrix : option matrix) (data_matrix : matrix)
    (penalty_matrix : penalty) : result (option matrix) :=
  match method with
  | SolverMethod.cholesky =>
      c <- _Cholesky h basis_values weight_matrix data_matrix penalty_matrix ;;
      Ok (Some c)
  | SolverMethod.qr =>
      c <- _QR (read h basis_values) weight_matrix data_matrix penalty_matrix ;;
      Ok (Some c)
  | SolverMethod.matrix => Ok None
  end.

(** [BasisSmoother.fit_transform] (lines 389-472), open in the method
    [transform] that [_Matrix.fit_transform] (lines 109-110) calls. *)
Definition fit_transform_body
    (transform : BasisSmoother -> FDataGrid -> result (BasisSmoother * FData))
    (self : BasisSmoother) (X : FDataGrid) : result (BasisSmoother * FData) :=
  let input_points_ := sample_points X in                            (* 402 *)
  let output_points_ :=
    match output_points self with                                    (* 403 *)
    | Some op => op
    | None => input_points_
    end in
  let self := set_points self input_points_ output_points_ in
  let penalty_matrix :=
    compute_penalty_matrix (basis self) (smoothing_parameter self)
                           (regularization self) in                  (* 407 *)
  let data_matrix := transpose (data_matrix X) in                    (* 417 *)
  values <- evaluate_basis self input_points_ ;;
  let hb := alloc ∅ values in
  let h := fst hb in
  let basis_values := view_T (snd hb) in                             (* 420 *)
  let weight_matrix := weights self in                               (* 425 *)
  if Nat.ltb (n_basis (basis self)) (nrows data_matrix)
     || Qltb 0 (smoothing_parameter self)                            (* 436 *)
  then
    method <- _method_function self ;;                               (* 439 *)
    match getattr_or_None method "fit_transform" with                (* 442 *)
    | Some _ =>
        (* 444, 110: [estimator.fit(X, y).transform(X, y)] *)
        fitted_self <- fit self X ;;
        transform fitted_self X
    | None =>
        c <- call_method method h basis_values weight_matrix data_matrix
                         penalty_matrix ;;                           (* 447 *)
        match c with
        | Some coefficients => finish self coefficients
        | None =>
            Raise (TypeError "FDataBasis: the coefficients are None")
        end
    end
  else if Nat.eqb (nrows data_matrix) (n_basis (basis self))         (* 453 *)
  then
    c <- lapack (linalg_solve (read h basis_values) data_matrix) ;;  (* 456 *)
    finish self (transpose c)
  else
    Raise (underdetermined (n_basis (basis self)) (nrows data_matrix)). (* 459 *)

(** The two methods, each calling the other as the source does.  A call
    chain is [transform] -> [fit_transform] (solver without [transform])
    or [fit_transform] -> [fit], [transform] ([_Matrix]); the solver does
    not change along it, so no chain is longer. *)
Definition fit_transform (self : BasisSmoother) (X : FDataGrid)
  : result (BasisSmoother * FData) :=
  fit_transform_body
    (transform_body (fun _ _ => Raise (TypeError "unreachable"))) self X.

Definition transform (self : BasisSmoother) (X : FDataGrid)
  : result (BasisSmoother * FData) :=
  transform_body fit_transform self X.

(** The solver [method] run on the penalized system for the sample [X],
    with [values] the basis at the sample points (one row per basis
    function): [_Cholesky] or [_QR] is given the values, the weights, the
    data (one row per point) and the penalty matrix scaled by
    [smoothing_parameter], and its coefficients are returned in basis
    form or as curves; [_Matrix] is run by [fit] and [transform]. *)
Definition run_solver (self : BasisSmoother) (X : FDataGrid) (values : matrix)
    (method : SolverMethod.t) : result (BasisSmoother * FData) :=
  let estimator :=
    set_points self (sample_points X)
               (match output_points self with
                | Some op => op
                | None => sample_points X
                end) in
  let penalty_matrix :=
    compute_penalty_matrix (basis self) (smoothing_parameter self)
                           (regularization self) in
  let data_matrix := transpose (data_matrix X) in
  match method with
  | SolverMethod.cholesky =>
      let hb := alloc ∅ values in
      coefficients <- _Cholesky (fst hb) (view_T (snd hb)) (weights self)
                                data_matrix penalty_matrix ;;
      finish estimator coefficients
  | SolverMethod.qr =>
      coefficients <- _QR (transpose values) (weights self)
                          data_matrix penalty_matrix ;;
      finish estimator coefficients
  | SolverMethod.matrix =>
      fitted_self <- fit estimator X ;;
      transform fitted_self X
  end.

End Smoother.

End Smoothing.

(* ===================================================================== *)
(** * An exact-arithmetic instance of the numerical libraries             *)
(* ===================================================================== *)

(** The calls of [LinAlg] computed over the rationals: the results the
    LAPACK routines approximate.  A result that is irrational (a square
    root, in general an eigenvector) is outside this instance, which then
    answers [None]. *)
Module Exact.

Open Scope Q_scope.

Definition dot (u v : list Q) : Q :=
  fold_right Qplus 0 (map (fun p => fst p * snd p) (combine u v)).

(** The array with the given shape and rows. *)
Definition with_shape (n m : nat) (rows : list (list Q)) : matrix :=
  mk_matrix n m (fun i j => Qred (nth j (nth i rows []) 0)).

(** ** Gauss-Jordan elimination *)

(** The first row whose entry in column [c] is not 0 (with [strict]: the
    first row, whose entry must be positive), and the other rows. *)
Fixpoint extract_pivot (strict : bool) (c : nat) (rows : list (list Q))
  : option (list Q * list (list Q)) :=
  match rows with
  | [] => None
  | r :: rest =>
      if strict
      then if Qltb 0 (nth c r 0) then Some (r, rest) else None
      else if Qeq_bool (nth c r 0) 0
           then match extract_pivot strict c rest with
                | Some (p, others) => Some (p, r :: others)
                | None => None
                end
           else Some (r, rest)
  end.

(** Row [r] minus its entry in column [c] times the pivot row [p]. *)
Definition eliminate (c : nat) (p r : list Q) : list Q :=
  map (fun xy => Qred (fst xy - nth c r 0 * snd xy)) (combine r p).

(** [steps] rounds of elimination from column [c] on: [done] holds the
    pivot rows found so far, [todo] the remaining rows. *)
Fixpoint gauss_jordan (strict : bool) (steps c : nat) (done todo : list (list Q))
  : option (list (list Q)) :=
  match steps with
  | O => match todo with
         | [] => Some done
         | _ => None
         end
  | S k =>
      match extract_pivot strict c todo with
      | None => None
      | Some (r, others) =>
          let p := map (fun x => Qred (x / nth c r 0)) r in
          gauss_jordan strict k (S c)
                       (map (eliminate c p) done ++ [p])
                       (map (eliminate c p) others)
      end
  end.

(** The solution [X] of [A @ X = B] for a square nonsingular [A]; with
    [strict], for an [A] whose pivots are positive without row exchanges. *)
Definition solve_with (strict : bool) (A B : matrix) : option matrix :=
  if Nat.eqb (nrows A) (ncols A) && Nat.eqb (nrows B) (nrows A)
  then
    let n := nrows A in
    let augmented := map (fun i => row A i ++ row B i) (seq 0 n) in
    match gauss_jordan strict n 0 [] augmented with
    | None => None
    | Some rows =>
        let X := with_shape n (ncols B) (map (skipn n) rows) in
        if meqb (A @@ X) B then Some X else None
    end
  else None.

Definition solve (A B : matrix) : option matrix := solve_with false A B.

(** A symmetric matrix is positive definite exactly when elimination
    without row exchanges meets positive pivots only.  The matrix that is
    factorized is the one read in the lower triangle of [A]. *)
Definition cho_solve (A B : matrix) : option matrix :=
  solve_with true (lower_mirror A) B.

(** ** Square roots *)

Definition sqrt_Z (z : Z) : option Z :=
  if Z.ltb z 0 then None
  else let r := Z.sqrt z in
       if Z.eqb (r * r) z then Some r else None.

(** The square root of a rational that has a rational one. *)
Definition sqrt (q : Q) : option Q :=
  let q := Qred q in
  match sqrt_Z (Qnum q), sqrt_Z (Zpos (Qden q)) with
  | Some a, Some (Zpos b) => Some (a # b)
  | _, _ => None
  end.

(** ** Cholesky factorization (Cholesky-Banachiewicz, row by row) *)

(** The entries of row [i] of the factor left of the diagonal, from the
    rows [prev] above it; [acc] holds the entries found so far. *)
Fixpoint cholesky_row (a : list Q) (prev : list (list Q)) (acc : list Q) : list Q :=
  match prev with
  | [] => acc
  | Lj :: rest =>
      let j := length acc in
      cholesky_row a rest (acc ++ [Qred ((nth j a 0 - dot acc Lj) / nth j Lj 0)])
  end.

Fixpoint cholesky_rows (A : list (list Q)) (done : list (list Q))
  : option (list (list Q)) :=
  match A with
  | [] => Some done
  | a :: rest =>
      let acc := cholesky_row a done [] in
      match sqrt (nth (length done) a 0 - dot acc acc) with
      | Some d =>
          if Qltb 0 d then cholesky_rows rest (done ++ [acc ++ [d]]) else None
      | None => None
      end
  end.

(** The lower factor [L] of a symmetric positive definite [A]. *)
Definition cholesky_lower (A : matrix) : option matrix :=
  if symmetricb A
  then match cholesky_rows (to_rows A) [] with
       | Some rows =>
           let L := with_shape (nrows A) (nrows A) rows in
           if meqb (L @@ transpose L) A then Some L else None
       | None => None
       end
  else None.

Definition cholesky_upper (A : matrix) : option matrix :=
  option_map transpose (cholesky_lower A).

(** The triangle of [A] that [solve_triangular] reads. *)
Definition triangle (lower : bool) (A : matrix) : matrix :=
  mk_matrix (nrows A) (ncols A)
            (fun i j => if (if lower then Nat.leb j i else Nat.leb i j)
                        then entry A i j else 0).

Definition triangular_solve (A B : matrix) (lower : bool) : option matrix :=
  solve (triangle lower A) B.

(** ** QR factorization (Gram-Schmidt on the columns) *)

(** The columns [qs] found so far are orthonormal; [a] is the next column
    of the matrix.  The answer is the new column of Q and the column of R
    above and on the diagonal. *)
Definition gram_schmidt_step (qs : list (list Q)) (a : list Q)
  : option (list Q * list Q) :=
  let rs := map (fun q => Qred (dot q a)) qs in
  let v := fold_left (fun v qr => map (fun p => Qred (fst p - snd qr * snd p))
                                      (combine v (fst qr)))
                     (combine qs rs) a in
  match sqrt (dot v v) with
  | Some norm =>
      if Qltb 0 norm
      then Some (map (fun x => Qred (x / norm)) v, rs ++ [norm])
      else None
  | None => None
  end.

Fixpoint gram_schmidt (columns : list (list Q)) (qs rs : list (list Q))
  : option (list (list Q) * list (list Q)) :=
  match columns with
  | [] => Some (qs, rs)
  | a :: rest =>
      match gram_schmidt_step qs a with
      | Some (q, r) => gram_schmidt rest (qs ++ [q]) (rs ++ [r])
      | None => None
      end
  end.

(** [A = Q @ R] with orthonormal columns in [Q] and an upper triangular
    [R], for an [A] of full column rank. *)
Definition qr (A : matrix) : option (matrix * matrix) :=
  match gram_schmidt (to_rows (transpose A)) [] [] with
  | Some (qs, rs) =>
      let Qm := transpose (with_shape (ncols A) (nrows A) qs) in
      let Rm := transpose (with_shape (ncols A) (ncols A) rs) in
      if meqb (Qm @@ Rm) A then Some (Qm, Rm) else None
  | None => None
  end.

(** ** Eigenvalues of a diagonal matrix *)

(** Insertion of an (eigenvalue, index) pair into a list sorted by
    ascending eigenvalue. *)
Fixpoint insert_sorted (x : Q * nat) (l : list (Q * nat)) : list (Q * nat) :=
  match l with
  | [] => [x]
  | y :: rest =>
      if Qle_bool (fst x) (fst y) then x :: l else y :: insert_sorted x rest
  end.

Definition is_diagonal (A : matrix) : bool :=
  Nat.eqb (nrows A) (ncols A) && meqb A (diag (map (fun i => entry A i i) (seq 0 (nrows A)))).

(** The eigenvalues of a diagonal matrix in ascending order, and the unit
    vectors that belong to them as columns. *)
Definition eigh (A : matrix) : option (list Q * matrix) :=
  if is_diagonal A
  then
    let n := nrows A in
    let sorted := fold_right insert_sorted []
                    (map (fun i => (entry A i i, i)) (seq 0 n)) in
    Some (map fst sorted,
          mk_matrix n n (fun i j => if Nat.eqb i (nth j (map snd sorted) n)
                                    then 1 else 0))
  else None.

(** ** Principal components of data with orthogonal centered columns *)

(** [PCA(n_components).fit(M)]: the data are centered; when the centered
    columns are orthogonal the principal directions are unit vectors, in
    the order of descending column norm, and the singular values are the
    column norms. *)
Definition pca (n_components : Z) (M : matrix) : option (matrix * list Q) :=
  let centered := sub_row M (mean_rows M) in
  let gram := transpose centered @@ centered in
  if Z.leb 0 n_components
     && Z.leb n_components (Z.of_nat (Nat.min (nrows M) (ncols M)))
     && is_diagonal gram
  then
    let k := Z.to_nat n_components in
    let m := ncols M in
    let sorted := rev (fold_right insert_sorted []
                         (map (fun j => (entry gram j j, j)) (seq 0 m))) in
    let chosen := firstn k sorted in
    match mapM (fun p => sqrt (fst p)) chosen with
    | Some singular_values =>
        Some (mk_matrix k m (fun i j => if Nat.eqb j (nth i (map snd chosen) m)
                                        then 1 else 0),
              singular_values)
    | None => None
    end
  else None.

#[export] Instance linalg : LinAlg := {
  linalg_solve := solve;
  cho_solve_cho_factor := cho_solve;
  scipy_cholesky := cholesky_upper;
  linalg_cholesky := cholesky_lower;
  solve_triangular := triangular_solve;
  linalg_eigh := eigh;
  linalg_qr := qr;
  np_sqrt := sqrt;
  PCA_fit := pca
}.

(** NumPy from release 1.25 on, and before. *)
Definition numpy_new : NumPy := {| numpy_ge_1_25 := true |}.
Definition numpy_old : NumPy := {| numpy_ge_1_25 := false |}.

End Exact.

(* ===================================================================== *)
(** * Methods that change the objects they are given                      *)
(* ===================================================================== *)

(** A method runs on a state (the estimator's attributes and the array
    buffers) and ends with a value or an exception; what it wrote before
    an exception stays written. *)
Module Eff.

Definition eff (S A : Type) : Type := S -> result A * S.

Definition ret {S A : Type} (a : A) : eff S A := fun s => (Ok a, s).

Definition raise {S A : Type} (e : exn) : eff S A := fun s => (Raise e, s).

Definition bind {S A B : Type} (c : eff S A) (k : A -> eff S B) : eff S B :=
  fun s => match c s with
           | (Ok a, s') => k a s'
           | (Raise e, s') => (Raise e, s')
           end.

Definition get {S : Type} : eff S S := fun s => (Ok s, s).

Definition put {S : Type} (s : S) : eff S unit := fun _ => (Ok tt, s).

Definition modify {S : Type} (f : S -> S) : eff S unit := fun s => (Ok tt, f s).

(** A call that changes nothing. *)
Definition pure {S A : Type} (c : result A) : eff S A := fun s => (c, s).

(** [c] keeps the property [I] of the state, however it ends. *)
Definition preserves {S A : Type} (I : S -> Prop) (c : eff S A) : Prop :=
  forall s, I s -> I (snd (c s)).

(** Every exception [c] raises satisfies [P]. *)
Definition raises_only {S A : Type} (P : exn -> Prop) (c : eff S A) : Prop :=
  forall s e, fst (c s) = Raise e -> P e.

End Eff.

Declare Scope eff_scope.
Delimit Scope eff_scope with eff.
Notation "x <~ c ;; k" := (Eff.bind c (fun x => k))
  (at level 100, c at next level, right associativity) : eff_scope.
Notation "c ;;; k" := (Eff.bind c (fun _ => k))
  (at level 100, right associativity) : eff_scope.

(* ===================================================================== *)
(** * [skfda/preprocessing/dim_reduction/projection/_fpca.py]             *)
(* ===================================================================== *)

Module FPCA.

Open Scope Q_scope.
Open Scope eff_scope.

(** What [FPCABasis.fit] uses of the class [Basis], which is not among the
    sources: the size, the domain range and its setter, the Gram matrix,
    the inner products with another basis and the penalty matrix of a
    linear differential operator (section 4.1 of the specification). *)
Class BasisClass (B Lfd : Type) : Type := {
  n_basis : B -> nat;
  domain_range : B -> list (Q * Q);
  set_domain_range : B -> list (Q * Q) -> B;
  gram_matrix : B -> matrix;
  inner_product : B -> B -> matrix;
  penalty : B -> Lfd -> matrix
}.

(** The configuration errors of [fit] (lines 197, 203 and 380, 386). *)
Definition too_few_samples : exn :=
  AttributeError "The sample size must be bigger than the number of components".

Definition too_small_basis : exn :=
  AttributeError "The number of components should be smaller than the number of attributes of target principal components' basis.".

Definition too_few_points : exn :=
  AttributeError "The number of components should be smaller than the number of discretization points of the functional data object.".

Section Basis.

Context {B Lfd : Type} `{BC : BasisClass B Lfd} `{LA : LinAlg}.

(** A sample in basis form; [coefficients] is the array object the sample
    holds, of shape (n_samples, n_basis). *)
Record FDataBasis : Type := mk_FDataBasis {
  basis : B;
  coefficients : ndarray
}.

(** The estimator [FPCABasis]: the parameters of [__init__] (lines
    133-164) and the attributes [fit] sets. *)
Record FPCABasis : Type := mk_FPCABasis {
  n_components : Z;
  components_basis : option B;
  centering : bool;
  regularization_parameter : Q;
  regularization_lfd : Lfd;
  pca_ : option (matrix * list Q);
  component_values_ : option (list Q);
  components_ : option FDataBasis
}.

Definition FPCABasis_init (n_components : Z) (components_basis : option B)
    (centering : bool) (regularization_parameter : Q) (regularization_lfd : Lfd)
  : FPCABasis :=
  mk_FPCABasis n_components components_basis centering regularization_parameter
               regularization_lfd None None None.

(** The state [FPCABasis.fit] runs on. *)
Record basis_state : Type := mk_basis_state {
  self : FPCABasis;
  arrays : heap
}.

Definition set_components_basis (cb : B) : Eff.eff basis_state unit :=
  Eff.modify (fun s =>
    mk_basis_state
      (mk_FPCABasis (n_components (self s)) (Some cb) (centering (self s))
         (regularization_parameter (self s)) (regularization_lfd (self s))
         (pca_ (self s)) (component_values_ (self s)) (components_ (self s)))
      (arrays s)).

Definition set_pca_ (p : option (matrix * list Q)) : Eff.eff basis_state unit :=
  Eff.modify (fun s =>
    mk_basis_state
      (mk_FPCABasis (n_components (self s)) (components_basis (self s))
         (centering (self s)) (regularization_parameter (self s))
         (regularization_lfd (self s)) p (component_values_ (self s))
         (components_ (self s)))
      (arrays s)).

Definition set_results (values : list Q) (components : FDataBasis)
  : Eff.eff basis_state unit :=
  Eff.modify (fun s =>
    mk_basis_state
      (mk_FPCABasis (n_components (self s)) (components_basis (self s))
         (centering (self s)) (regularization_parameter (self s))
         (regularization_lfd (self s)) (pca_ (self s)) (Some values)
         (Some components))
      (arrays s)).

(** Reading an array object. *)
Definition load (a : ndarray) : Eff.eff basis_state matrix :=
  fun s => (Ok (read (arrays s) a), s).

(** Writing an array object in place. *)
Definition store (a : ndarray) (M : matrix) : Eff.eff basis_state unit :=
  Eff.modify (fun s => mk_basis_state (self s) (write (arrays s) a M)).

(** A new array object. *)
Definition new_array (M : matrix) : Eff.eff basis_state ndarray :=
  fun s => let ha := alloc (arrays s) M in
           (Ok (snd ha), mk_basis_state (self s) (fst ha)).

(** Modelled from the spec: [FDataBasis.mean] is not among the sources.
    Section 4.4: "the cross-sample mean function"; its coefficients are
    the mean of the coefficient rows, a new array. *)
Definition mean (X : FDataBasis) : Eff.eff basis_state FDataBasis :=
  C <~ load (coefficients X) ;;
  m <~ new_array (mean_rows C) ;;
  Eff.ret (mk_FDataBasis (basis X) m).

(** [FPCABasis.fit] (lines 166-275). *)
Definition FPCABasis_fit (X : FDataBasis) : Eff.eff basis_state unit :=
  s <~ Eff.get ;;
  let n_basis_ :=
    match components_basis (self s) with                             (* 191 *)
    | Some cb => n_basis cb
    | None => n_basis (basis X)
    end in
  C <~ load (coefficients X) ;;
  let n_samples := nrows C in                                        (* 193 *)
  if Z.ltb (Z.of_nat n_samples) (n_components (self s))              (* 196 *)
  then Eff.raise too_few_samples
  else if Z.ltb (Z.of_nat n_basis_) (n_components (self s))          (* 202 *)
  then Eff.raise too_small_basis
  else
    (if centering (self s)                                           (* 209 *)
     then
       meanfd <~ mean X ;;                                           (* 210 *)
       m <~ load (coefficients meanfd) ;;
       C <~ load (coefficients X) ;;
       store (coefficients X) (sub_row C m)                          (* 213 *)
     else Eff.ret tt) ;;;
    gj <~ match components_basis (self s) with                       (* 216 *)
          | Some cb =>
              let cb := set_domain_range cb (domain_range (basis X)) in (* 218 *)
              set_components_basis cb ;;;
              Eff.ret (cb, gram_matrix cb,                           (* 219 *)
                       inner_product (basis X) cb)                   (* 223 *)
          | None =>
              let cb := basis X in                                   (* 227 *)
              set_components_basis cb ;;;
              Eff.ret (cb, gram_matrix cb, gram_matrix cb)           (* 228-229 *)
          end ;;
    let cb := fst (fst gj) in
    let j_matrix := snd gj in
    let g_matrix := snd (fst gj) in
    let g_matrix := divide (add g_matrix (transpose g_matrix)) 2 in  (* 232 *)
    let g_matrix :=
      if Qltb 0 (regularization_parameter (self s))                  (* 235 *)
      then add g_matrix
               (scale (regularization_parameter (self s))
                      (penalty cb (regularization_lfd (self s))))    (* 241 *)
      else g_matrix in
    l_matrix <~ Eff.pure (lapack (linalg_cholesky g_matrix)) ;;      (* 245 *)
    l_inv_j_t <~ Eff.pure (lapack (solve_triangular l_matrix
                                     (transpose j_matrix) true)) ;;  (* 251 *)
    root <~ Eff.pure (lapack (np_sqrt (inject_Z (Z.of_nat n_samples)))) ;;
    C <~ load (coefficients X) ;;
    let final_matrix := divide (C @@ transpose l_inv_j_t) root in    (* 255 *)
    set_pca_ None ;;;                                                (* 259 *)
    p <~ Eff.pure (lapack (PCA_fit (n_components (self s)) final_matrix)) ;; (* 260 *)
    set_pca_ (Some p) ;;;
    cc <~ Eff.pure (lapack (solve_triangular (transpose l_matrix)
                              (transpose (fst p)) false)) ;;         (* 264 *)
    let component_coefficients := transpose cc in                    (* 268 *)
    a <~ new_array component_coefficients ;;
    set_results (map (fun x => x * x) (snd p))                       (* 271 *)
                (mk_FDataBasis cb a).                                (* 272 *)

(** The number [fit] compares [n_components] with besides the number of
    samples: the size of the target basis if one is configured, else of
    the sample's basis (line 191). *)
Definition capacity (self : FPCABasis) (X : FDataBasis) : nat :=
  match components_basis self with
  | Some cb => n_basis cb
  | None => n_basis (basis X)
  end.

(** The number of samples (line 193). *)
Definition n_samples (s : basis_state) (X : FDataBasis) : nat :=
  nrows (read (arrays s) (coefficients X)).

(** The buffer [l] holds [buf]. *)
Definition buffer_is (l : nat) (buf : matrix) (s : basis_state) : Prop :=
  arrays s !! l = Some buf.

End Basis.

Section Grid.

Context `{LA : LinAlg}.

(** A discretized sample; [data_matrix] is the array object the sample
    holds, of shape (n_samples, number of points) for curves with values
    in R, and [sample_points] has one array per dimension of the domain. *)
Record FDataGrid : Type := mk_FDataGrid {
  data_matrix : ndarray;
  sample_points : list (list Q)
}.

(** The value of the attribute [weights]: [None], a Python list or a 1-D
    array. *)
Inductive weights_value : Type :=
| WNone
| WList (l : list Q)
| WArray (a : list Q).

(** The estimator [FPCAGrid]: the parameters of [__init__] (lines 334-347)
    and the attributes [fit] sets. *)
Record FPCAGrid : Type := mk_FPCAGrid {
  g_n_components : Z;
  weights : weights_value;
  g_centering : bool;
  g_pca_ : option (matrix * list Q);
  g_components_ : option FDataGrid;
  g_component_values_ : option (list Q)
}.

Definition FPCAGrid_init (n_components : Z) (weights : weights_value)
    (centering : bool) : FPCAGrid :=
  mk_FPCAGrid n_components weights centering None None None.

(** The state [FPCAGrid.fit] runs on. *)
Record grid_state : Type := mk_grid_state {
  g_self : FPCAGrid;
  g_arrays : heap
}.

Definition set_weights (w : weights_value) : Eff.eff grid_state unit :=
  Eff.modify (fun s =>
    mk_grid_state
      (mk_FPCAGrid (g_n_components (g_self s)) w (g_centering (g_self s))
         (g_pca_ (g_self s)) (g_components_ (g_self s))
         (g_component_values_ (g_self s)))
      (g_arrays s)).

Definition set_g_pca_ (p : option (matrix * list Q)) : Eff.eff grid_state unit :=
  Eff.modify (fun s =>
    mk_grid_state
      (mk_FPCAGrid (g_n_components (g_self s)) (weights (g_self s))
         (g_centering (g_self s)) p (g_components_ (g_self s))
         (g_component_values_ (g_self s)))
      (g_arrays s)).

Definition set_g_results (components : FDataGrid) (values : list Q)
  : Eff.eff grid_state unit :=
  Eff.modify (fun s =>
    mk_grid_state
      (mk_FPCAGrid (g_n_components (g_self s)) (weights (g_self s))
         (g_centering (g_self s)) (g_pca_ (g_self s)) (Some components)
         (Some values))
      (g_arrays s)).

Definition g_load (a : ndarray) : Eff.eff grid_state matrix :=
  fun s => (Ok (read (g_arrays s) a), s).

Definition g_store (a : ndarray) (M : matrix) : Eff.eff grid_state unit :=
  Eff.modify (fun s => mk_grid_state (g_self s) (write (g_arrays s) a M)).

Definition g_new_array (M : matrix) : Eff.eff grid_state ndarray :=
  fun s => let ha := alloc (g_arrays s) M in
           (Ok (snd ha), mk_grid_state (g_self s) (fst ha)).

(** The error of [bool(a)] for an array of more than one element. *)
Definition ambiguous_truth_value : exn :=
  ValueError "The truth value of an array with more than one element is ambiguous. Use a.any() or a.all()".

(** [bool(self.weights)], the test behind [not self.weights] (line 405):
    [None] and an empty list are false; an array of one element has the
    truth value of the element, and a longer one has none.  An empty
    array is false up to NumPy 2.1; later releases raise [ValueError]
    for it. *)
Definition truth_value (w : weights_value) : result bool :=
  match w with
  | WNone => Ok false
  | WList l => Ok (negb (Nat.eqb (length l) 0))
  | WArray [] => Ok false
  | WArray [x] => Ok (negb (Qeq_bool x 0))
  | WArray _ => Raise ambiguous_truth_value
  end.

(** The entries of [self.weights] as [np.diag] reads them. *)
Definition weights_entries (w : weights_value) : result (list Q) :=
  match w with
  | WNone => Raise (ValueError "Input must be 1- or 2-d.")
  | WList l => Ok l
  | WArray a => Ok a
  end.

(** [np.diff(a)]. *)
Fixpoint diff (a : list Q) : list Q :=
  match a with
  | x :: (y :: _) as rest => (y - x) :: diff rest
  | _ => []
  end.

(** The builtin [sum] of a list of floats. *)
Definition py_sum (l : list Q) : Q := fold_left Qplus l 0.

(** [l[i:i + 2]]. *)
Definition slice2 (l : list Q) (i : nat) : list Q := firstn 2 (skipn i l).

(** Modelled from the spec: [FDataGrid.mean] is not among the sources.
    Section 4.4: the grid variant "centers the discretized data" with the
    mean over the samples at each point, a new array. *)
Definition g_mean (X : FDataGrid) : Eff.eff grid_state FDataGrid :=
  D <~ g_load (data_matrix X) ;;
  m <~ g_new_array (mean_rows D) ;;
  Eff.ret (mk_FDataGrid m (sample_points X)).

(** The default weights (lines 410-413). *)
Definition default_weights (X : FDataGrid) : Eff.eff grid_state unit :=
  match sample_points X with
  | [] => Eff.raise (IndexError "list index out of range")
  | axis :: _ =>
      let differences := diff axis in                                (* 410 *)
      let halves := map (fun i => py_sum (slice2 differences i) / 2)
                        (seq 0 (length differences)) in
      set_weights (WList halves) ;;;                                 (* 411 *)
      match differences with
      | [] =>
          Eff.raise (IndexError "index 0 is out of bounds for axis 0 with size 0")
      | d0 :: _ => set_weights (WArray ((d0 / 2) :: halves))         (* 413 *)
      end
  end.

(** [FPCAGrid.fit] (lines 349-425). *)
Definition FPCAGrid_fit (X : FDataGrid) : Eff.eff grid_state unit :=
  s <~ Eff.get ;;
  D <~ g_load (data_matrix X) ;;
  if Z.ltb (Z.of_nat (nrows D)) (g_n_components (g_self s))          (* 379 *)
  then Eff.raise too_few_samples
  else if Z.ltb (Z.of_nat (ncols D)) (g_n_components (g_self s))     (* 385 *)
  then Eff.raise too_few_points
  else
    let fd_data := data_matrix X in                                  (* 391: a view *)
    (* 394: [np.squeeze] has also dropped an axis of length 1 *)
    (if Nat.eqb (nrows D) 1 && Nat.eqb (ncols D) 1
     then Eff.raise (ValueError "not enough values to unpack (expected 2, got 0)")
     else if Nat.eqb (nrows D) 1 || Nat.eqb (ncols D) 1
     then Eff.raise (ValueError "not enough values to unpack (expected 2, got 1)")
     else Eff.ret tt) ;;;
    let n_samples := nrows D in
    (if g_centering (g_self s)                                       (* 398 *)
     then
       meanfd <~ g_mean X ;;                                         (* 399 *)
       m <~ g_load (data_matrix meanfd) ;;
       D <~ g_load fd_data ;;
       g_store fd_data (sub_row D m)                                 (* 402 *)
     else Eff.ret tt) ;;;
    s1 <~ Eff.get ;;
    t <~ Eff.pure (truth_value (weights (g_self s1))) ;;             (* 405 *)
    (if negb t then default_weights X else Eff.ret tt) ;;;
    s2 <~ Eff.get ;;
    w <~ Eff.pure (weights_entries (weights (g_self s2))) ;;
    sw <~ Eff.pure (comprehension (fun x => lapack (np_sqrt x)) w) ;;
    let weights_matrix_root := diag sw in                            (* 415, 418 *)
    root <~ Eff.pure (lapack (np_sqrt (inject_Z (Z.of_nat n_samples)))) ;;
    D <~ g_load fd_data ;;
    let final_matrix := divide (D @@ weights_matrix_root) root in    (* 418 *)
    set_g_pca_ None ;;;                                              (* 420 *)
    p <~ Eff.pure (lapack (PCA_fit (g_n_components (g_self s)) final_matrix)) ;; (* 421 *)
    set_g_pca_ (Some p) ;;;
    a <~ g_new_array (fst p) ;;
    set_g_results (mk_FDataGrid a (sample_points X))                 (* 422 *)
                  (map (fun x => x * x) (snd p)).                    (* 423 *)

(** The buffer [l] holds [buf]. *)
Definition g_buffer_is (l : nat) (buf : matrix) (s : grid_state) : Prop :=
  g_arrays s !! l = Some buf.

(** The attribute [weights] is [w]. *)
Definition weights_are (w : weights_value) (s : grid_state) : Prop :=
  weights (g_self s) = w.

(** The values of the sample as [fit] reads them on entry. *)
Definition values (s : grid_state) (X : FDataGrid) : matrix :=
  read (g_arrays s) (data_matrix X).

(** The shape that line 394 unpacks has two axes: [np.squeeze] dropped
    neither the samples nor the points. *)
Definition two_axes (D : matrix) : bool :=
  negb (Nat.eqb (nrows D) 1) && negb (Nat.eqb (ncols D) 1).

(** The vector that lines 410-413 build from the points [axis]. *)
Definition built_weights (axis : list Q) : list Q :=
  let differences := diff axis in
  (nth 0 differences 0 / 2)
  :: map (fun i => py_sum (slice2 differences i) / 2) (seq 0 (length differences)).

(** The trapezoidal weights of the points [axis]: for each point, half
    the width of the interval on its left, if there is one, plus half the
    width of the interval on its right, if there is one. *)
Definition trapezoidal (axis : list Q) (k : nat) : Q :=
  (if Nat.eqb k 0 then 0 else (nth k axis 0 - nth (k - 1) axis 0) / 2)
  + (if Nat.eqb (S k) (length axis) then 0
     else (nth (S k) axis 0 - nth k axis 0) / 2).

End Grid.

End FPCA.

(* ===================================================================== *)
(** * [skfda/representation/basis/_fourier.py]                            *)
(* ===================================================================== *)

Module Fourier.

Import Reals.
Open Scope R_scope.

(** An argument that is "array-like": a number, a flat sequence or a
    sequence of sequences. *)
Inductive array_like : Type :=
| Scalar (x : R)
| Flat (l : list R)
| Nested (l : list (list R)).

(** [_list_of_arrays] of [skfda/_utils/_utils.py] (lines 83-112). *)
Definition _list_of_arrays (original_array : array_like) : result (list (list R)) :=
  match original_array with
  | Scalar x => Ok [[x]]
  | Flat [] => Raise (IndexError "list index out of range")
  | Flat l => Ok [l]
  | Nested [] => Raise (IndexError "list index out of range")
  | Nested l => Ok l
  end.

(** The attributes of a Fourier basis: those [Basis.__init__] stores and
    [_period]. *)
Record Fourier : Type := mk_Fourier {
  _domain_range : option (list R);
  n_basis : Z;
  _period : option R
}.

(** [Fourier.__init__] (lines 71-97).  Python's [%] on integers is
    [Z.modulo].  Modelled from the spec: [Basis.__init__] is not among the
    sources; by section 3 a basis holds its domain interval and its number
    of basis functions, which is all the constructor is taken to store. *)
Definition Fourier_init (domain_range : option array_like) (n_basis : Z)
    (period : option R) : result Fourier :=
  (domain_range <-
     match domain_range with                                         (* 86 *)
     | Some d =>
         arrays <- _list_of_arrays d ;;                              (* 87 *)
         match arrays with
         | [interval] => Ok (Some interval)                          (* 92 *)
         | _ => Raise (ValueError "Domain range should be unidimensional.") (* 90 *)
         end
     | None => Ok None
     end ;;
   let n_basis := (n_basis + (1 - n_basis mod 2))%Z in               (* 96 *)
   Ok (mk_Fourier domain_range n_basis period))%py.                  (* 94, 97 *)

(** Modelled from the spec: the property [Basis.domain_range] is not
    among the sources; it is the domain interval of section 3, the unit
    interval when none was given. *)
Definition domain_range (b : Fourier) : list (list R) :=
  match _domain_range b with
  | Some interval => [interval]
  | None => [[0; 1]]
  end.

(** The property [Fourier.period] (lines 99-104). *)
Definition period (b : Fourier) : R :=
  match _period b with
  | None => nth 1 (nth 0 (domain_range b) []) 0
            - nth 0 (nth 0 (domain_range b) []) 0                    (* 102 *)
  | Some T => T                                                      (* 104 *)
  end.

(** [Fourier._evaluate] (lines 110-140) at the points [eval_points]
    (their only coordinate): the rows of the result, one per basis
    function.  These are the rows the method returns; it returns for a
    period that is not 0 (line 116 divides by it) and for one point or
    more (line 131 cannot reshape to no column). *)
Definition _evaluate (b : Fourier) (eval_points : list R) : list (list R) :=
  let omega := 2 * PI / period b in                                  (* 116 *)
  let normalization_denominator := sqrt (period b / 2) in            (* 118 *)
  let seq_ := map (fun n => IZR (Z.of_nat n))
                  (seq 1 (Z.to_nat ((n_basis b - 1) / 2))) in        (* 120 *)
  let phase_coefs := map (fun n => omega * n) seq_ in                (* 122 *)
  let res :=
    flat_map (fun c =>
                [map (fun t => sin (c * t)) eval_points;
                 map (fun t => cos (c * t)) eval_points])
             phase_coefs in                                          (* 125-131 *)
  let res := map (map (fun x => x / normalization_denominator)) res in (* 132 *)
  let constant_basis :=
    [repeat (1 / (sqrt 2 * normalization_denominator))
            (length eval_points)] in                                 (* 134 *)
  constant_basis ++ res.                                             (* 138 *)

End Fourier.

(* ===================================================================== *)
(** * Concrete bases, samples and estimators                              *)
(* ===================================================================== *)

(** The inputs at which the theorems below are instantiated and at which
    the code is run. *)
Module Examples.

Open Scope Q_scope.

(** ** Smoothing *)

(** The basis of the constant function 1. *)
Definition constant_basis : Smoothing.Basis :=
  Smoothing.mk_Basis 1 (fun pts => of_rows [map (fun _ => 1) pts]).

(** The monomial basis 1, t. *)
Definition monomial_basis : Smoothing.Basis :=
  Smoothing.mk_Basis 2 (fun pts => of_rows [map (fun _ => 1) pts;
                                            map (fun p => nth 0 p 0) pts]).

(** One curve observed at the points 0 and 1, with values 2 and 6. *)
Definition two_point_sample : Smoothing.FDataGrid :=
  Smoothing.mk_FDataGrid (of_rows [[2; 6]]) [[0; 1]].

(** [BasisSmoother(constant_basis, weights=np.diag([9, 16]), method=m,
    return_basis=True)]: the observations weighted 9 and 16, the default
    smoothing parameter 1, no regularization. *)
Definition weighted_smoother (m : Smoothing.SolverMethod.t) : Smoothing.BasisSmoother :=
  Smoothing.BasisSmoother_init constant_basis 1 (Some (diag [9; 16])) None None
                               (Smoothing.Member m) true.

(** The penalty matrix of the monomial basis on [0, 1] for the operator
    of order 0: its Gram matrix. *)
Definition monomial_penalty : Smoothing.Regularization :=
  Smoothing.mk_Regularization (fun _ => of_rows [[1; 1 # 2]; [1 # 2; 1 # 3]]).

(** [BasisSmoother(monomial_basis, smoothing_parameter=1, regularization=...,
    method='cholesky', return_basis=True)]. *)
Definition penalized_smoother : Smoothing.BasisSmoother :=
  Smoothing.BasisSmoother_init monomial_basis 1 None (Some monomial_penalty) None
                               (Smoothing.MethodName "cholesky") true.

(** The same smoother with [smoothing_parameter=0]. *)
Definition unsmoothed_smoother : Smoothing.BasisSmoother :=
  Smoothing.BasisSmoother_init monomial_basis 0 None (Some monomial_penalty) None
                               (Smoothing.MethodName "cholesky") true.

(** One curve observed at the single point 1, with value 3. *)
Definition one_point_sample : Smoothing.FDataGrid :=
  Smoothing.mk_FDataGrid (of_rows [[3]]) [[1]].

(** [BasisSmoother(monomial_basis, smoothing_parameter=0, method=m)]. *)
Definition interpolating_smoother (m : Smoothing.SolverMethod.t) : Smoothing.BasisSmoother :=
  Smoothing.BasisSmoother_init monomial_basis 0 None None None
                               (Smoothing.Member m) false.

(** Two curves observed at the points 0 and 1. *)
Definition two_curves : Smoothing.FDataGrid :=
  Smoothing.mk_FDataGrid (of_rows [[3; 5]; [1; 1]]) [[0; 1]].

(** [BasisSmoother(constant_basis, method='cholesky')]. *)
Definition plain_smoother : Smoothing.BasisSmoother :=
  Smoothing.BasisSmoother_init constant_basis 1 None None None
                               (Smoothing.MethodName "cholesky") false.

(** One surface observed on the grid {0, 1} x {0, 1}: two axes of sample
    points, four values. *)
Definition surface_sample : Smoothing.FDataGrid :=
  Smoothing.mk_FDataGrid (of_rows [[2; 6; 2; 6]]) [[0; 1]; [0; 1]].

(** [BasisSmoother(constant_basis, method='matrix')], with the default
    [return_basis=False]. *)
Definition matrix_smoother : Smoothing.BasisSmoother :=
  Smoothing.BasisSmoother_init constant_basis 1 None None None
                               (Smoothing.MethodName "matrix") false.

(** [BasisSmoother(constant_basis, method='matrix', return_basis=True)]. *)
Definition matrix_basis_smoother : Smoothing.BasisSmoother :=
  Smoothing.BasisSmoother_init constant_basis 1 None None None
                               (Smoothing.MethodName "matrix") true.

(** The coefficients or the values a smoother returned, row by row. *)
Definition returned_rows (r : result (Smoothing.BasisSmoother * Smoothing.FData))
  : option (list (list Q)) :=
  match r with
  | Ok (_, Smoothing.InBasis b) => Some (to_rows (Smoothing.coefficients b))
  | Ok (_, Smoothing.Grid g) => Some (to_rows (Smoothing.data_matrix g))
  | Raise _ => None
  end.

(** The smoother returned the given rows, as rational numbers. *)
Definition returns_rows (r : result (Smoothing.BasisSmoother * Smoothing.FData))
    (rows : list (list Q)) : bool :=
  match returned_rows r with
  | Some got => meqb (of_rows got) (of_rows rows)
  | None => false
  end.

(** ** Functional PCA *)

(** Orthonormal bases, named by their size: the Gram matrix is the
    identity and the penalty is taken to be zero. *)
#[export] Instance orthonormal : FPCA.BasisClass nat unit := {|
  FPCA.n_basis := fun n => n;
  FPCA.domain_range := fun _ => [(0, 1)];
  FPCA.set_domain_range := fun n _ => n;
  FPCA.gram_matrix := fun n => identity n;
  FPCA.inner_product :=
    fun n m => mk_matrix n m (fun i j => if Nat.eqb i j then 1 else 0);
  FPCA.penalty := fun n _ => mk_matrix n n (fun _ _ => 0)
|}.

(** Four samples with the coefficients 1, 3, 1, 3 in a basis of one
    function; the array of coefficients is the buffer 0. *)
Definition coefficient_heap : gmap nat matrix :=
  {[ 0%nat := of_rows [[1]; [3]; [1]; [3]] ]}.

Definition basis_sample : FPCA.FDataBasis (B := nat) :=
  FPCA.mk_FDataBasis 1%nat (mk_ndarray 0 false).

(** [FPCABasis(n_components=1)], centering by default. *)
Definition fpca_basis : FPCA.FPCABasis (B := nat) (Lfd := unit) :=
  FPCA.FPCABasis_init 1 None true 0 tt.

(** Two samples of four curves each: one observed at the points 0 and 2,
    its array of values the buffer 0; one observed at the points 0, 2
    and 3, its array of values the buffer 1. *)
Definition grid_heap : gmap nat matrix :=
  {[ 0%nat := of_rows [[2; 5]; [0; 5]; [2; 5]; [0; 5]];
     1%nat := of_rows [[2; 5; 1]; [0; 5; 1]; [2; 5; 1]; [0; 5; 1]] ]}.

Definition grid_sample : FPCA.FDataGrid :=
  FPCA.mk_FDataGrid (mk_ndarray 0 false) [[0; 2]].

Definition longer_grid_sample : FPCA.FDataGrid :=
  FPCA.mk_FDataGrid (mk_ndarray 1 false) [[0; 2; 3]].

(** The array stored in [weights], its entries in lowest terms. *)
Definition stored_weights (s : FPCA.grid_state) : option (list Q) :=
  match FPCA.weights (FPCA.g_self s) with
  | FPCA.WArray a => Some (map Qred a)
  | _ => None
  end.

(** [FPCAGrid(n_components=1)]: no weights, centering by default. *)
Definition fpca_grid : FPCA.FPCAGrid := FPCA.FPCAGrid_init 1 FPCA.WNone true.

(** [FPCABasis(n_components=5)] and [FPCAGrid(n_components=5)]: more
    components than the four samples above. *)
Definition greedy_fpca_basis : FPCA.FPCABasis (B := nat) (Lfd := unit) :=
  FPCA.FPCABasis_init 5 None true 0 tt.

Definition greedy_fpca_grid : FPCA.FPCAGrid := FPCA.FPCAGrid_init 5 FPCA.WNone true.

(** The same estimators without centering. *)
Definition uncentered_fpca_basis : FPCA.FPCABasis (B := nat) (Lfd := unit) :=
  FPCA.FPCABasis_init 1 None false 0 tt.

Definition uncentered_fpca_grid : FPCA.FPCAGrid := FPCA.FPCAGrid_init 1 FPCA.WNone false.

End Examples.

(* ===================================================================== *)
(** * The least-squares problem of the smoother                          *)
(* ===================================================================== *)

Module LeastSquares.

Open Scope Q_scope.
Import Smoothing.

(** The contracts of the factorizations [_QR] calls, in exact
    arithmetic. *)
Class FactorizationLaws (L : LinAlg) : Prop := {
  (** [q, r = np.linalg.qr(a)]: [a = q @ r], and the columns of [q] are
      orthonormal *)
  linalg_qr_sound : forall A Qm Rm,
    linalg_qr A = Some (Qm, Rm) ->
    ncols Qm = nrows Rm /\ Qm @@ Rm =m A
    /\ transpose Qm @@ Qm =m identity (nrows Rm);
  (** [u = scipy.linalg.cholesky(w)]: [w = u.T @ u] *)
  scipy_cholesky_sound : forall W U,
    scipy_cholesky W = Some U -> transpose U @@ U =m W;
  (** [w, v = np.linalg.eigh(a)]: [a = v @ diag(w) @ v.T] for a square [v] *)
  linalg_eigh_sound : forall A w v,
    linalg_eigh A = Some (w, v) ->
    nrows v = ncols v /\ ncols v = length w
    /\ v @@ diag w @@ transpose v =m A;
  (** [np.sqrt(x)] *)
  np_sqrt_sound : forall x r, np_sqrt x = Some r -> r * r == x
}.

(** [W @ M], or [M] where no weights are given (all weights 1). *)
Definition weighted (W : option matrix) (M : matrix) : matrix :=
  match W with
  | Some W => W @@ M
  | None => M
  end.

(** [M + P] as lines 36 and 349 of [_basis.py] add the penalty: a matrix
    entry by entry, a number to every entry; no penalty leaves [M]. *)
Definition plus_penalty (M : matrix) (P : penalty) : matrix :=
  match P with
  | PenaltyNone => M
  | PenaltyScalar c => add_scalar M c
  | PenaltyMatrix R => add M R
  end.

(** The coefficients [C] (one row per sample) solve the system of the
    class docstring (lines 156-161),
    (Phi' W Phi + P) C' = Phi' W Y,
    where [Phi] holds the basis functions at the points (one column per
    basis function) and [Y] the data (one column per sample). *)
Definition normal_equations (Phi : matrix) (W : option matrix) (P : penalty)
    (Y C : matrix) : Prop :=
  plus_penalty (transpose Phi @@ weighted W Phi) P @@ transpose C
  =m transpose Phi @@ weighted W Y.

(** The eigenvalues [np.linalg.eigh] finds for [R] are not negative. *)
Definition positive_semidefinite `{LinAlg} (R : matrix) : Prop :=
  forall w v, linalg_eigh R = Some (w, v) -> Forall (fun x => 0 <= x) w.

End LeastSquares.

(* ===================================================================== *)
(** * Factorizations that are tested when they run                       *)
(* ===================================================================== *)

(** The instance [Exact.linalg] with every factorization tested against
    its contract before it is returned. *)
Module Checked.

Open Scope Q_scope.

Definition qr (A : matrix) : option (matrix * matrix) :=
  match Exact.qr A with
  | Some (Qm, Rm) =>
      if Nat.eqb (ncols Qm) (nrows Rm)
         && meqb (Qm @@ Rm) A
         && meqb (transpose Qm @@ Qm) (identity (nrows Rm))
      then Some (Qm, Rm) else None
  | None => None
  end.

Definition cholesky_upper (W : matrix) : option matrix :=
  match Exact.cholesky_upper W with
  | Some U => if meqb (transpose U @@ U) W then Some U else None
  | None => None
  end.

Definition eigh (A : matrix) : option (list Q * matrix) :=
  match Exact.eigh A with
  | Some (w, v) =>
      if Nat.eqb (nrows v) (ncols v) && Nat.eqb (ncols v) (length w)
         && meqb (v @@ diag w @@ transpose v) A
      then Some (w, v) else None
  | None => None
  end.

Definition sqrt (x : Q) : option Q :=
  match Exact.sqrt x with
  | Some r => if Qeq_bool (r * r) x then Some r else None
  | None => None
  end.

#[export] Instance linalg : LinAlg := {
  linalg_solve := Exact.solve;
  cho_solve_cho_factor := Exact.cho_solve;
  scipy_cholesky := cholesky_upper;
  linalg_cholesky := Exact.cholesky_lower;
  solve_triangular := Exact.triangular_solve;
  linalg_eigh := eigh;
  linalg_qr := qr;
  np_sqrt := sqrt;
  PCA_fit := Exact.pca
}.

End Checked.

(* ===================================================================== *)
(** * The estimator interface of the smoother                            *)
(* ===================================================================== *)

Module Estimator.
Import Smoothing.

(** The parameters of the constructor (lines 312-318) are the same in
    [s] and [s']. *)
Definition same_parameters (s s' : BasisSmoother) : Prop :=
  basis s' = basis s
  /\ smoothing_parameter s' = smoothing_parameter s
  /\ weights s' = weights s
  /\ regularization s' = regularization s
  /\ output_points s' = output_points s
  /\ method s' = method s
  /\ return_basis s' = return_basis s.

(** The points [fit] and [fit_transform] record for the sample [X] (lines
    377-380 and 402-405). *)
Definition records_points (s : BasisSmoother) (X : FDataGrid) (s' : BasisSmoother)
  : Prop :=
  input_points_ s' = Some (sample_points X)
  /\ output_points_ s' = Some (match output_points s with
                              | Some op => op
                              | None => sample_points X
                              end).

(** The exception of the comparison [i == s] of line 486 for two arrays
    whose shapes cannot be broadcast, by release of NumPy. *)
Definition shape_mismatch `{NumPy} : exn :=
  if numpy_ge_1_25
  then ValueError "operands could not be broadcast together"
  else TypeError "'bool' object is not iterable".

End Estimator.

(* ===================================================================== *)
(** * The quadrature of the functional PCA                               *)
(* ===================================================================== *)

Module Quadrature.

Open Scope Q_scope.
Import FPCA.

(** The error of the unpacking of line 394 of [_fpca.py] when
    [np.squeeze] has dropped the axis of the samples or of the points. *)
Definition unpack_error (D : matrix) : exn :=
  if Nat.eqb (nrows D) 1 && Nat.eqb (ncols D) 1
  then ValueError "not enough values to unpack (expected 2, got 0)"
  else ValueError "not enough values to unpack (expected 2, got 1)".

(** The target basis [FPCABasis.fit] stores (lines 216-229): the one
    configured, on the domain of the sample, or the basis of the sample. *)
Definition stored_basis {B Lfd : Type} `{BasisClass B Lfd}
    (self : FPCABasis (B := B) (Lfd := Lfd)) (X : FDataBasis (B := B)) : B :=
  match components_basis self with
  | Some cb => set_domain_range cb (domain_range (basis X))
  | None => basis X
  end.

(** The attribute [components_basis] is [cb]. *)
Definition components_basis_is {B Lfd : Type} (cb : option B)
    (s : basis_state (B := B) (Lfd := Lfd)) : Prop :=
  components_basis (self s) = cb.

End Quadrature.

(* ===================================================================== *)
(** * The derivative of a Fourier expansion                              *)
(* ===================================================================== *)

Module FourierDerivative.

Import Fourier.
Import Reals.
Open Scope R_scope.
Open Scope py_scope.

(** A 2-D array of coefficients: [coefs.shape[1]] and the rows, one per
    sample. *)
Record coefficient_array : Type := mk_coefficient_array {
  n_columns : nat;
  coefficient_rows : list (list R)
}.

(** [x[::2]]. *)
Fixpoint every_other (x : list R) : list R :=
  match x with
  | [] => []
  | a :: rest =>
      a :: match rest with
           | [] => []
           | _ :: rest' => every_other rest'
           end
  end.

(** [x[start::2]]. *)
Definition slice_step_2 (start : nat) (x : list R) : list R :=
  every_other (skipn start x).

(** The number of indices of [start::2] on an axis of length [n]. *)
Definition slots (start n : nat) : nat := Nat.div2 (n - start + 1).

(** The number of columns of [x * f] for [x] with [a] columns and a
    vector [f] of [n] entries, by NumPy's broadcasting.  (NumPy's message
    goes on with the two shapes.) *)
Definition broadcast (a n : nat) : result nat :=
  if Nat.eqb a n then Ok a
  else if Nat.eqb n 1 then Ok a
  else if Nat.eqb a 1 then Ok n
  else Raise (ValueError "operands could not be broadcast together").

(** One row of [x * f]. *)
Definition multiply (x f : list R) : list R :=
  if Nat.eqb (length x) (length f)
  then map (fun p => fst p * snd p) (combine x f)
  else if Nat.eqb (length f) 1 then map (fun a => a * hd 0 f) x
  else map (fun c => hd 0 x * c) f.

(** [target[:, start::2] = value] for a value of [r] columns: they must
    be as many as the indices of the slice, or one.  (NumPy's message
    goes on with the two shapes.) *)
Definition assignable (n_slots r : nat) : result unit :=
  if Nat.eqb r n_slots || Nat.eqb r 1 then Ok tt
  else Raise (ValueError "could not broadcast input array").

(** One row of the value, as the assignment spreads it over the slice. *)
Definition spread (n_slots : nat) (value : list R) : list R :=
  if Nat.eqb (length value) n_slots then value else repeat (hd 0 value) n_slots.

(** A row of [np.zeros] of length [n] after [row[1::2] = odd] and
    [row[2::2] = even]. *)
Definition fill (n : nat) (odd even : list R) : list R :=
  map (fun j => if Nat.eqb j 0 then 0
                else if Nat.odd j then nth (Nat.div2 (j - 1)) odd 0
                else nth (Nat.div2 (j - 2)) even 0)
      (seq 0 n).

(** [Fourier._derivative_basis_and_coefs] (lines 142-160).  [int(x / 2)]
    rounds towards zero ([Z.quot]); a power with an integer exponent is
    [powerRZ]; [np.arange(1, (n_basis + 1) / 2)] has the entries 1, ...,
    [n_basis // 2].  [self.copy()] is the basis itself. *)
Definition _derivative_basis_and_coefs (self : Fourier) (coefs : coefficient_array)
    (order : Z) : result (Fourier * coefficient_array) :=
  let omega := 2 * PI / period self in                                (* 144 *)
  let deriv_factor :=
    map (fun k => powerRZ (INR k * omega) order)
        (seq 1 (Z.to_nat (n_basis self / 2))) in                      (* 145 *)
  let n := n_columns coefs in                                         (* 147 *)
  let cos_sign := powerRZ (-1) (Z.quot (order + 1) 2) in              (* 149 *)
  let sin_sign := powerRZ (-1) (Z.quot order 2) in                    (* 150 *)
  let sines row :=
    multiply (map (fun a => sin_sign * a) (slice_step_2 1 row)) deriv_factor in
  let cosines row :=
    multiply (map (fun a => cos_sign * a) (slice_step_2 2 row)) deriv_factor in
  if Z.even order                                                     (* 152 *)
  then
    r <- broadcast (slots 1 n) (length deriv_factor) ;;
    _ <- assignable (slots 1 n) r ;;                                  (* 153 *)
    r <- broadcast (slots 2 n) (length deriv_factor) ;;
    _ <- assignable (slots 2 n) r ;;                                  (* 154 *)
    Ok (self,
        mk_coefficient_array n
          (map (fun row => fill n (spread (slots 1 n) (sines row))
                                  (spread (slots 2 n) (cosines row)))
               (coefficient_rows coefs)))
  else
    r <- broadcast (slots 1 n) (length deriv_factor) ;;
    _ <- assignable (slots 2 n) r ;;                                  (* 156 *)
    r <- broadcast (slots 2 n) (length deriv_factor) ;;
    _ <- assignable (slots 1 n) r ;;                                  (* 157 *)
    Ok (self,
        mk_coefficient_array n
          (map (fun row => fill n (spread (slots 1 n) (cosines row))
                                  (spread (slots 2 n) (sines row)))
               (coefficient_rows coefs))).                            (* 160 *)

(** The coefficient of index [j] of the derivative of order [order] of
    the combination with the coefficients [c]: the derivative of
    s sin(k w t) + c cos(k w t) is a combination of the same two
    functions, with the factor (k w)^order, the signs of lines 149-150
    and, for an odd order, the two coefficients exchanged. *)
Definition derivative_entry (self : Fourier) (order : Z) (c : list R) (j : nat) : R :=
  let omega := 2 * PI / period self in
  let factor := powerRZ (INR (Nat.div2 (j + 1)) * omega) order in
  let cos_sign := powerRZ (-1) (Z.quot (order + 1) 2) in
  let sin_sign := powerRZ (-1) (Z.quot order 2) in
  if Nat.eqb j 0 then 0
  else if Z.even order
       then if Nat.odd j then sin_sign * nth j c 0 * factor
            else cos_sign * nth j c 0 * factor
       else if Nat.odd j then cos_sign * nth (j + 1) c 0 * factor
            else sin_sign * nth (j - 1) c 0 * factor.

(** An array with one column per basis function, every row of it of that
    length. *)
Definition well_formed (self : Fourier) (coefs : coefficient_array) : Prop :=
  Z.odd (n_basis self) = true
  /\ (1 <= n_basis self)%Z
  /\ n_columns coefs = Z.to_nat (n_basis self)
  /\ Forall (fun row => length row = n_columns coefs) (coefficient_rows coefs).

(** The linear combination of the basis functions with the coefficients
    [c], at the point [t]. *)
Definition combination (b : Fourier) (c : list R) (t : R) : R :=
  fold_right Rplus 0
    (map (fun p => fst p * snd p)
         (combine c (map (fun row => nth 0 row 0) (_evaluate b [t])))).

(** [rsum n f] is f 0 + ... + f (n-1). *)
Fixpoint rsum (n : nat) (f : nat -> R) : R :=
  match n with
  | O => 0
  | S k => rsum k f + f k
  end.

(** [g] is the derivative of order [n] of [f]. *)
Fixpoint derivative_of_order (n : nat) (f g : R -> R) : Prop :=
  match n with
  | O => forall t, g t = f t
  | S m => exists h, (forall t, derivable_pt_lim f t (h t))
                     /\ derivative_of_order m h g
  end.

End FourierDerivative.

(* ===================================================================== *)
(** * Grids of points                                                    *)
(* ===================================================================== *)

Module Utils.

Open Scope py_scope.

Section Arrays.

(** The type of the numbers in the arrays. *)
Context {T : Type}.

(** An argument that is "array-like": a number, a flat sequence or a
    sequence of sequences. *)
Inductive array_like : Type :=
| Scalar (x : T)
| Flat (l : list T)
| Nested (l : list (list T)).

(** [_list_of_arrays] (lines 83-112): [iter] fails on a number, and
    [original_array[0]] on an empty sequence. *)
Definition _list_of_arrays (original_array : array_like) : result (list (list T)) :=
  match original_array with
  | Scalar x => Ok [[x]]                                              (* 102, 110 *)
  | Flat [] => Raise (IndexError "list index out of range")           (* 105 *)
  | Flat l => Ok [l]                                                  (* 110 *)
  | Nested [] => Raise (IndexError "list index out of range")         (* 105 *)
  | Nested l => Ok l                                                  (* 112 *)
  end.

(** The points of the grid with the given axes, the first axis varying
    slowest: the rows of the array that [np.meshgrid] with
    [indexing='ij'] and [np.stack] on the last axis build (line 182), in
    row-major order. *)
Fixpoint cartesian (axes : list (list T)) : list (list T) :=
  match axes with
  | [] => [[]]
  | a :: rest => flat_map (fun x => map (cons x) (cartesian rest)) a
  end.

(** An array of points: its shape, and its points in row-major order. *)
Record point_array : Type := mk_point_array {
  array_shape : list nat;
  array_points : list (list T)
}.

(** What [_cartesian_product] returns: the array, or the array and the
    shape it had before it was flattened. *)
Inductive cartesian_result : Type :=
| Array (cartesian : point_array)
| ArrayAndShape (cartesian : point_array) (shape : list nat).

(** [_cartesian_product] (lines 145-192); [np.stack] refuses an empty
    list of axes. *)
Definition _cartesian_product (axes : list (list T)) (flatten return_shape : bool)
  : result cartesian_result :=
  match axes with
  | [] => Raise (ValueError "need at least one array to stack")
  | _ =>
      let points := cartesian axes in                                 (* 182 *)
      let shape := map (@length T) axes ++ [length axes] in           (* 184 *)
      let cartesian :=
        if flatten                                                    (* 186 *)
        then mk_point_array [length points; length axes] points       (* 187 *)
        else mk_point_array shape points in
      if return_shape                                                 (* 189 *)
      then Ok (ArrayAndShape cartesian shape)                         (* 190 *)
      else Ok (Array cartesian)                                       (* 192 *)
  end.

(** [_one_grid_to_points] (lines 247-265).  The call of line 260 asks
    for the shape, so that what it returns is always a pair. *)
Definition _one_grid_to_points (axes : array_like) (dim_domain : nat)
  : result (point_array * list nat) :=
  axes <- _list_of_arrays axes ;;                                     (* 254 *)
  if negb (Nat.eqb (length axes) dim_domain)                          (* 256 *)
  then Raise (ValueError ("Length of axes should be " ++ pretty dim_domain))
  else
    r <- _cartesian_product axes true true ;;                         (* 260 *)
    match r with
    | ArrayAndShape cartesian shape =>
        Ok (cartesian, removelast shape)                              (* 263, 265 *)
    | Array _ => Raise (ValueError "too many values to unpack (expected 2)")
    end.

(** The number of points of a grid of the given shape. *)
Definition size (shape : list nat) : nat := fold_right Nat.mul 1%nat shape.

(** The index of a point in row-major order: the point with the indices
    [i] on the axes, of lengths [shape]. *)
Fixpoint ravel (shape i : list nat) : nat :=
  match shape, i with
  | _ :: rest, k :: i' => k * size rest + ravel rest i'
  | _, _ => 0
  end.

End Arrays.

(** The arguments of the modelled callers, as array-likes of this
    module. *)
Definition of_fourier (d : Fourier.array_like) : array_like (T := Reals.Rdefinitions.R) :=
  match d with
  | Fourier.Scalar x => Scalar x
  | Fourier.Flat l => Flat l
  | Fourier.Nested l => Nested l
  end.

Arguments array_like : clear implicits.
Arguments point_array : clear implicits.
Arguments cartesian_result : clear implicits.

End Utils.

(* ===================================================================== *)
(** * More examples                                                      *)
(* ===================================================================== *)

Module SolverExamples.

Open Scope Q_scope.

(** A basis evaluated on two points, with weights, data and a penalty
    for them. *)
Definition scaled_basis_values : matrix := of_rows [[3; 0]; [0; 3]].
Definition four_weights : matrix := diag [4; 4].
Definition two_values : matrix := of_rows [[5]; [10]].
Definition diagonal_penalty : matrix := diag [64; 64].

(** The values of the basis 1, t at the points 0 and 1, in the buffer 0. *)
Definition monomial_values_heap : gmap nat matrix :=
  {[ 0%nat := of_rows [[1; 0]; [1; 1]] ]}.

End SolverExamples.

Module MoreExamples.

Open Scope Q_scope.

(** One curve observed at the points 0, 1 and 2; its array of values is
    the buffer 0. *)
Definition single_curve_heap : gmap nat matrix :=
  {[ 0%nat := of_rows [[2; 5; 7]] ]}.

Definition single_curve : FPCA.FDataGrid :=
  FPCA.mk_FDataGrid (mk_ndarray 0 false) [[0; 1; 2]].

(** [FPCAGrid(n_components=1, weights=[1, 1])]. *)
Definition weighted_fpca_grid : FPCA.FPCAGrid :=
  FPCA.FPCAGrid_init 1 (FPCA.WList [1; 1]) true.

End MoreExamples.

(* ===================================================================== *)
(** * Facts about arrays                                                  *)
(* ===================================================================== *)

Module npFacts.

Open Scope Q_scope.

Lemma qsum_ext (n : nat) (f g : nat -> Q) :
  (forall k, (k < n)%nat -> f k == g k) -> qsum n f == qsum n g.
Proof.
  induction n as [|n IH]; intros Hfg; simpl.
  - reflexivity.
  - rewrite IH by (intros; apply Hfg; lia).
    rewrite (Hfg n) by lia. reflexivity.
Qed.

Lemma meq_refl (A : matrix) : A =m A.
Proof. repeat split; intros; reflexivity. Qed.

Lemma meq_sym (A B : matrix) : A =m B -> B =m A.
Proof.
  intros (Hr & Hc & He). repeat split; try congruence.
  intros i j Hi Hj. symmetry. apply He; congruence.
Qed.

Lemma meq_trans (A B C : matrix) : A =m B -> B =m C -> A =m C.
Proof.
  intros (Hr & Hc & He) (Hr' & Hc' & He'). repeat split; try congruence.
  intros i j Hi Hj. rewrite He by assumption. apply He'; congruence.
Qed.

(** [meqb] decides [meq]. *)
Lemma meqb_meq (A B : matrix) : meqb A B = true -> A =m B.
Proof.
  unfold meqb, meq. intros H.
  apply andb_prop in H as [H He]. apply andb_prop in H as [Hr Hc].
  apply Nat.eqb_eq in Hr, Hc. repeat split; try assumption.
  intros i j Hi Hj.
  rewrite forallb_forall in He.
  specialize (He i). rewrite in_seq in He.
  assert (Hrow := He ltac:(lia)). rewrite forallb_forall in Hrow.
  apply Qeq_bool_iff, Hrow, in_seq. lia.
Qed.

Lemma meq_meqb (A B : matrix) : A =m B -> meqb A B = true.
Proof.
  unfold meqb, meq. intros (Hr & Hc & He).
  apply andb_true_intro; split; [apply andb_true_intro; split|].
  - now apply Nat.eqb_eq.
  - now apply Nat.eqb_eq.
  - apply forallb_forall. intros i Hi. apply forallb_forall. intros j Hj.
    apply in_seq in Hi, Hj. apply Qeq_bool_iff, He; lia.
Qed.

(** The transpose of a product, entry by entry: [(A @ B).T = B.T @ A.T]
    for conformable [A] and [B]. *)
Lemma transpose_matmul (A B : matrix) :
  ncols A = nrows B ->
  transpose (A @@ B) =m transpose B @@ transpose A.
Proof.
  intros Hconf. repeat split. simpl. intros i j _ _.
  rewrite Hconf. apply qsum_ext. intros k _. apply Qmult_comm.
Qed.

Lemma transpose_meq (A B : matrix) : A =m B -> transpose A =m transpose B.
Proof.
  intros (Hr & Hc & He). repeat split; simpl; try assumption.
  intros i j Hi Hj. apply He; assumption.
Qed.

Lemma transpose_involutive (A : matrix) : transpose (transpose A) =m A.
Proof. repeat split; intros; reflexivity. Qed.

End npFacts.

(* ===================================================================== *)
(** * Facts about the heap of array buffers                               *)
(* ===================================================================== *)

Module HeapFacts.

(** A new array shows the matrix it was made from. *)
Lemma read_alloc (h : gmap nat matrix) (M : matrix) :
  read (fst (alloc h M)) (snd (alloc h M)) = M.
Proof.
  unfold alloc, read. simpl. rewrite lookup_insert_eq. reflexivity.
Qed.

(** Its transposed view shows the transpose. *)
Lemma read_alloc_T (h : gmap nat matrix) (M : matrix) :
  read (fst (alloc h M)) (view_T (snd (alloc h M))) = transpose M.
Proof.
  unfold alloc, read, view_T. simpl. rewrite lookup_insert_eq. reflexivity.
Qed.

(** A new array has a buffer of its own: the arrays that exist keep
    their contents. *)
Lemma alloc_lookup (h : gmap nat matrix) (M : matrix) (l : nat) :
  is_Some (h !! l) -> fst (alloc h M) !! l = h !! l.
Proof.
  intros Hl. unfold alloc. simpl. apply lookup_insert_ne.
  intros <-. apply elem_of_dom in Hl. exact (is_fresh (dom h) Hl).
Qed.

Lemma alloc_is_Some (h : gmap nat matrix) (M : matrix) (l : nat) :
  is_Some (h !! l) -> is_Some (fst (alloc h M) !! l).
Proof. intros Hl. rewrite alloc_lookup; assumption. Qed.

(** Reading after another buffer was added. *)
Lemma read_insert_new (h : gmap nat matrix) (l : nat) (M : matrix) :
  read (<[l := M]> h) (mk_ndarray l false) = M.
Proof. unfold read. simpl. rewrite lookup_insert_eq. reflexivity. Qed.

Lemma read_insert_other (h : gmap nat matrix) (l : nat) (M : matrix) (a : ndarray) :
  l <> base a -> read (<[l := M]> h) a = read h a.
Proof. intros Hne. unfold read. rewrite lookup_insert_ne by exact Hne. reflexivity. Qed.

(** Writing through a view and reading through the same view. *)
Lemma read_write (h : gmap nat matrix) (a : ndarray) (M : matrix) :
  (read (write h a M) a =m M)%Q.
Proof.
  unfold read, write. rewrite lookup_insert_eq. simpl.
  destruct (transposed a).
  - apply npFacts.transpose_involutive.
  - apply npFacts.meq_refl.
Qed.

(** Writing through a view changes what the other view of the buffer
    shows. *)
Lemma read_write_T (h : gmap nat matrix) (a : ndarray) (M : matrix) :
  (read (write h (view_T a) M) a =m transpose M)%Q.
Proof.
  unfold read, write, view_T. simpl. rewrite lookup_insert_eq. simpl.
  destruct (transposed a); simpl.
  - apply npFacts.meq_refl.
  - apply npFacts.transpose_meq, npFacts.transpose_involutive.
Qed.

End HeapFacts.

(* ===================================================================== *)
(** * The exact instance keeps the contracts                              *)
(* ===================================================================== *)

Module ExactFacts.

Open Scope Q_scope.

Lemma solve_with_sound (strict : bool) (A B X : matrix) :
  Exact.solve_with strict A B = Some X -> nrows X = ncols A /\ A @@ X =m B.
Proof.
  unfold Exact.solve_with.
  destruct (Nat.eqb (nrows A) (ncols A) && Nat.eqb (nrows B) (nrows A)) eqn:Hshape;
    [|discriminate].
  apply andb_prop in Hshape as [Hsq _]. apply Nat.eqb_eq in Hsq.
  destruct (Exact.gauss_jordan _ _ _ _ _) as [rows|]; [|discriminate].
  destruct (meqb _ B) eqn:Hcheck; [|discriminate].
  intros [= <-]. split.
  - exact Hsq.
  - now apply npFacts.meqb_meq.
Qed.

#[export] Instance linalg_laws : LinAlgLaws Exact.linalg.
Proof.
  split.
  - intros A B X. apply solve_with_sound.
  - intros A B X. simpl. unfold Exact.cho_solve.
    apply (solve_with_sound true (lower_mirror A)).
Qed.

End ExactFacts.

(* ===================================================================== *)
(** * Facts about the basis smoother                                      *)
(* ===================================================================== *)

Module SmoothingFacts.

Import Smoothing.
Open Scope Q_scope.
Open Scope py_scope.

(** Case analysis on the outcome of the first call of a sequence. *)
Ltac first_call :=
  match goal with
  | |- context [Py.bind ?c _] =>
      let E := fresh "E" in destruct c eqn:E; simpl
  end.

Section Facts.

Context `{NP : NumPy} `{LA : LinAlg}.

(** The attributes of the solver classes, by cases. *)
Lemma has_fit_transform_matrix (m : SolverMethod.t) (f : solver_function) :
  getattr_or_None m "fit_transform" = Some f -> m = SolverMethod.matrix.
Proof. destruct m; vm_compute; congruence. Qed.

Lemma matrix_has_transform :
  getattr_or_None SolverMethod.matrix "transform" = Some def_transform.
Proof. reflexivity. Qed.

Lemma matrix_has_no_hat_matrix :
  getattr "_Matrix" SolverMethod.matrix "hat_matrix"
  = Raise (AttributeError "'_Matrix' object has no attribute 'hat_matrix'").
Proof. reflexivity. Qed.

(** The setters leave the constructor's parameters alone. *)
Lemma _method_function_set_points (self : BasisSmoother) (ip op : list (list Q)) :
  _method_function (set_points self ip op) = _method_function self.
Proof. reflexivity. Qed.

Lemma _Matrix_fit_method (self self' : BasisSmoother) (X : FDataGrid) :
  _Matrix_fit self X = Ok self' -> _method_function self' = _method_function self.
Proof.
  unfold _Matrix_fit. destruct (return_basis self).
  - do 2 (first_call; [|discriminate]). intros [= <-]. reflexivity.
  - first_call; [|discriminate]. intros [= <-].
    unfold hat_matrix in E. revert E.
    do 2 (first_call; [|discriminate]).
    destruct (_cached_hat_matrix self) as [[[cip cop] H]|].
    + destruct (_ && _).
      * intros [= <-]. reflexivity.
      * first_call; [|discriminate]. intros [= <-]. reflexivity.
    + first_call; [|discriminate]. intros [= <-]. reflexivity.
Qed.

Lemma fit_method (self self' : BasisSmoother) (X : FDataGrid) :
  fit self X = Ok self' -> _method_function self' = _method_function self.
Proof.
  unfold fit. first_call; [|discriminate].
  destruct (getattr_or_None a "fit").
  - intros H. apply _Matrix_fit_method in H. exact H.
  - intros [= <-]. reflexivity.
Qed.

(** With the solver [_Matrix], [transform] never reaches its fallback. *)
Lemma transform_body_matrix
    (f g : BasisSmoother -> FDataGrid -> result (BasisSmoother * FData))
    (self : BasisSmoother) (X : FDataGrid) :
  _method_function self = Ok SolverMethod.matrix ->
  transform_body f self X = transform_body g self X.
Proof.
  intros Hm. unfold transform_body. rewrite Hm. simpl.
  rewrite matrix_has_transform. reflexivity.
Qed.

(** [fit_transform] and [transform] call each other as in the source. *)
Lemma fit_transform_unfold (self : BasisSmoother) (X : FDataGrid) :
  fit_transform self X = fit_transform_body transform self X.
Proof.
  unfold fit_transform, fit_transform_body.
  first_call; [|reflexivity].
  destruct (_ || _); [|reflexivity].
  first_call; [|reflexivity].
  destruct (getattr_or_None a0 "fit_transform") eqn:Hattr; [|reflexivity].
  apply has_fit_transform_matrix in Hattr. subst a0.
  first_call; [|reflexivity].
  apply transform_body_matrix.
  apply fit_method in E1. rewrite E1. exact E0.
Qed.

(** ** The square system (lines 453-456) *)

(** The curves of coefficients [c.T] at the points where the basis takes
    the values [values] are the data, once [c] solves the square system. *)
Lemma interpolation (values data c : matrix) :
  nrows c = ncols (transpose values) ->
  transpose values @@ c =m transpose data ->
  transpose c @@ values =m data.
Proof.
  intros Hconf (Hr & Hc & He). simpl in *.
  repeat split; simpl; try congruence.
  intros i j Hi Hj.
  rewrite <- (He j i) by congruence.
  rewrite Hconf. apply npFacts.qsum_ext. intros k _. apply Qmult_comm.
Qed.

(** C7.  When the number of points equals the basis size and the smoothing
    parameter is not greater than 0, [fit_transform] takes the coefficients
    from [np.linalg.solve(basis_values, data_matrix)], whatever the solver
    method; and when it returns curves at the input points, these are the
    original values: it does so as soon as the system has a solution. *)
Theorem square_system_is_solved_directly `{!LinAlgLaws LA}
    (self : BasisSmoother) (X : FDataGrid) (values : matrix) :
  evaluate_basis self (sample_points X) = Ok values ->
  ncols (data_matrix X) = n_basis (basis self) ->
  Qltb 0 (smoothing_parameter self) = false ->
  let fitted_self :=
    set_points self (sample_points X)
      (match output_points self with
       | Some op => op
       | None => sample_points X
       end) in
  fit_transform self X
  = (c <- lapack (linalg_solve (transpose values) (transpose (data_matrix X))) ;;
     finish fitted_self (transpose c))
  /\ (return_basis self = false ->
      output_points self = None ->
      forall c,
        linalg_solve (transpose values) (transpose (data_matrix X)) = Some c ->
        exists g,
          fit_transform self X = Ok (fitted_self, Grid g)
          /\ sample_points g = sample_points X
          /\ data_matrix g =m data_matrix X).
Proof.
  intros Hvalues Hsquare Hlambda fitted_self.
  assert (Hdirect :
    fit_transform self X
    = (c <- lapack (linalg_solve (transpose values) (transpose (data_matrix X))) ;;
       finish fitted_self (transpose c))).
  { unfold fit_transform, fit_transform_body.
    change (evaluate_basis (set_points self _ _) (sample_points X))
      with (evaluate_basis self (sample_points X)).
    rewrite Hvalues. simpl.
    rewrite Hsquare, Nat.ltb_irrefl, Hlambda, Nat.eqb_refl. simpl.
    unfold read. simpl. rewrite lookup_insert_eq. reflexivity. }
  split; [exact Hdirect|].
  intros Hgrid Hout c Hc.
  rewrite Hdirect, Hc. simpl.
  unfold finish. subst fitted_self. simpl. rewrite Hgrid, Hout. simpl.
  unfold to_grid. simpl.
  unfold evaluate_basis in Hvalues.
  destruct (_cartesian_product (sample_points X)) as [grid|] eqn:Hgridpts;
    [|discriminate].
  simpl in Hvalues. injection Hvalues as <-. simpl.
  eexists. split; [reflexivity|]. split; [reflexivity|]. simpl.
  destruct (linalg_solve_sound _ _ _ Hc) as [Hconf Hsol].
  apply interpolation; assumption.
Qed.

End Facts.

(** The monomial basis 1, t interpolates two curves observed at 0 and 1. *)
Lemma square_system_witness :
  exists g,
    @fit_transform Exact.numpy_new Exact.linalg
      (Examples.interpolating_smoother SolverMethod.qr) Examples.two_curves
    = Ok (set_points (Examples.interpolating_smoother SolverMethod.qr)
                     [[0; 1]] [[0; 1]], Grid g)
    /\ sample_points g = [[0; 1]]
    /\ data_matrix g =m of_rows [[3; 5]; [1; 1]].
Proof.
  destruct (Exact.solve
              (transpose (evaluate Examples.monomial_basis (cartesian [[0; 1]])))
              (transpose (data_matrix Examples.two_curves))) as [c|] eqn:Hc.
  - exact (proj2 (@square_system_is_solved_directly
                    Exact.numpy_new Exact.linalg ExactFacts.linalg_laws
                    (Examples.interpolating_smoother SolverMethod.qr)
                    Examples.two_curves
                    (evaluate Examples.monomial_basis (cartesian [[0; 1]]))
                    eq_refl eq_refl eq_refl)
                 eq_refl eq_refl c Hc).
  - vm_compute in Hc. discriminate Hc.
Defined.

(** ** Fewer points than basis functions (lines 436-462) *)

Section Underdetermined.

Context `{NP : NumPy} `{LA : LinAlg}.

Lemma only_raises_ok {A : Type} (P : exn -> Prop) (a : A) : only_raises P (Ok a).
Proof. intros e. discriminate. Qed.

Lemma only_raises_raise {A : Type} (P : exn -> Prop) (e : exn) :
  P e -> only_raises (A := A) P (Raise e).
Proof. intros He e' [= <-]. exact He. Qed.

Lemma only_raises_lapack {A : Type} (P : exn -> Prop) (o : option A) :
  P LinAlgError -> only_raises P (lapack o).
Proof. intros HP e. destruct o; simpl; [discriminate|]. intros [= <-]. exact HP. Qed.

Lemma only_raises_bind {A C : Type} (P : exn -> Prop) (c : result A) (k : A -> result C) :
  only_raises P c -> (forall a, only_raises P (k a)) -> only_raises P (Py.bind c k).
Proof.
  intros Hc Hk e. destruct c as [a|e']; simpl.
  - apply Hk.
  - intros [= <-]. apply Hc. reflexivity.
Qed.

Lemma only_raises_comprehension {A C : Type} (P : exn -> Prop)
    (f : A -> result C) (l : list A) :
  (forall x, only_raises P (f x)) -> only_raises P (comprehension f l).
Proof.
  intros Hf. induction l as [|x l IH]; simpl.
  - apply only_raises_ok.
  - apply only_raises_bind; [apply Hf|]. intros y.
    apply only_raises_bind; [exact IH|]. intros ys. apply only_raises_ok.
Qed.

(** The exceptions of the other steps are not the error of lines
    459-462. *)
Ltac other_error :=
  let H := fresh in
  intros ? ? H; unfold underdetermined in H;
  first [ discriminate H | injection H as H; discriminate H ].

Ltac py_rules :=
  repeat first
    [ apply only_raises_bind; [|intros ?]
    | apply only_raises_ok
    | apply only_raises_lapack; other_error
    | apply only_raises_raise; other_error
    | apply only_raises_comprehension; intros ?
    | match goal with
      | |- only_raises _ (if ?b then _ else _) => destruct b
      | |- only_raises _ (match ?x with _ => _ end) => destruct x
      end
    | progress cbv zeta
    | progress unfold evaluate_basis, _cartesian_product, _method_function,
        SolverMethod_getitem, fit, _Matrix_fit, _coef_matrix, hat_matrix,
        _hat_matrix, fitted, iadd_penalty, imatmul, transform_body, same_points,
        array_eq, py_all, _Matrix_transform, getattr, call_method, _Cholesky,
        _QR, sqrt_vector, finish, to_grid ].

(** With a smoothing parameter greater than 0 the solver branch is taken
    (line 436), and nothing on it raises the error of lines 459-462. *)
Lemma smoothing_takes_the_solver_branch (self : BasisSmoother) (X : FDataGrid) :
  Qltb 0 (smoothing_parameter self) = true ->
  only_raises not_underdetermined (fit_transform self X).
Proof.
  intros Hlambda. unfold fit_transform, fit_transform_body.
  apply only_raises_bind; [py_rules|]. intros values.
  cbv zeta.
  change (smoothing_parameter (set_points self ?ip ?op))
    with (smoothing_parameter self).
  rewrite Hlambda, orb_true_r.
  py_rules.
Qed.

(** With a smoothing parameter greater than 0, [fit_transform] is the
    selected solver run on the penalized system (lines 436-451 and
    464-470), whatever the number of points. *)
Lemma smoothing_runs_the_solver (self : BasisSmoother) (X : FDataGrid)
    (values : matrix) :
  evaluate_basis self (sample_points X) = Ok values ->
  Qltb 0 (smoothing_parameter self) = true ->
  fit_transform self X
  = (method <- _method_function self ;; run_solver self X values method).
Proof.
  intros Hvalues Hlambda. rewrite fit_transform_unfold.
  unfold fit_transform_body. cbv zeta.
  change (evaluate_basis (set_points self ?ip ?op)) with (evaluate_basis self).
  rewrite Hvalues. cbn [Py.bind].
  change (smoothing_parameter (set_points self ?ip ?op))
    with (smoothing_parameter self).
  rewrite Hlambda, orb_true_r.
  rewrite _method_function_set_points.
  destruct (_method_function self) as [method|e]; [|reflexivity].
  cbn [Py.bind].
  destruct method; cbn [getattr_or_None]; unfold run_solver, call_method.
  - change (getattr_or_None SolverMethod.cholesky "fit_transform") with
      (@None solver_function).
    cbv iota.
    destruct (_Cholesky _ _ _ _ _); reflexivity.
  - change (getattr_or_None SolverMethod.qr "fit_transform") with
      (@None solver_function).
    cbv iota. rewrite HeapFacts.read_alloc_T.
    destruct (_QR _ _ _ _); reflexivity.
  - change (getattr_or_None SolverMethod.matrix "fit_transform") with
      (Some def_fit_transform).
    reflexivity.
Qed.

(** C4, as amended.  With fewer observation points than basis functions,
    [fit_transform] raises the error of lines 459-462 when the smoothing
    parameter is not greater than 0; when it is greater than 0 the
    selected solver is run on the penalized system instead: the result of
    [fit_transform] is the result of that run, and the error of lines
    459-462 is not raised. *)
Theorem underdetermined_system_error (self : BasisSmoother) (X : FDataGrid) :
  sample_points X <> [] ->
  (ncols (data_matrix X) < n_basis (basis self))%nat ->
  (Qltb 0 (smoothing_parameter self) = false ->
   fit_transform self X
   = Raise (underdetermined (n_basis (basis self)) (ncols (data_matrix X))))
  /\ (Qltb 0 (smoothing_parameter self) = true ->
      only_raises not_underdetermined (fit_transform self X)
      /\ exists values,
           evaluate_basis self (sample_points X) = Ok values
           /\ fit_transform self X
              = (method <- _method_function self ;;
                 run_solver self X values method)).
Proof.
  intros Hpts Hfew. split.
  - intros Hlambda.
    unfold fit_transform, fit_transform_body, evaluate_basis, _cartesian_product.
    destruct (sample_points X) as [|axis axes]; [contradiction|]. simpl.
    rewrite Hlambda.
    destruct (Nat.ltb_spec (n_basis (basis self)) (ncols (data_matrix X))); [lia|].
    destruct (Nat.eqb_spec (ncols (data_matrix X)) (n_basis (basis self))); [lia|].
    reflexivity.
  - intros Hlambda. split; [now apply smoothing_takes_the_solver_branch|].
    destruct (evaluate_basis self (sample_points X)) as [values|e] eqn:Hvalues.
    + exists values. split; [reflexivity|].
      now apply smoothing_runs_the_solver.
    + exfalso. revert Hvalues. unfold evaluate_basis, _cartesian_product.
      destruct (sample_points X) as [|axis axes]; [contradiction|]. discriminate.
Qed.

End Underdetermined.

(** One point, two basis functions.  With [smoothing_parameter=0]: the
    error.  With [smoothing_parameter=1]: the run of the solver. *)
Lemma underdetermined_system_witness :
  @fit_transform Exact.numpy_new Exact.linalg
    Examples.unsmoothed_smoother Examples.one_point_sample
  = Raise (ValueError "The number of basis functions (2) exceed the number of points to be smoothed (1).")
  /\ (only_raises not_underdetermined
        (@fit_transform Exact.numpy_new Exact.linalg
           Examples.penalized_smoother Examples.one_point_sample)
      /\ exists values,
           evaluate_basis Examples.penalized_smoother
             (sample_points Examples.one_point_sample) = Ok values
           /\ @fit_transform Exact.numpy_new Exact.linalg
                Examples.penalized_smoother Examples.one_point_sample
              = (method <- _method_function Examples.penalized_smoother ;;
                 @run_solver Exact.numpy_new Exact.linalg
                   Examples.penalized_smoother Examples.one_point_sample
                   values method)).
Proof.
  split.
  - exact (proj1 (@underdetermined_system_error Exact.numpy_new Exact.linalg
                    Examples.unsmoothed_smoother Examples.one_point_sample
                    ltac:(discriminate) ltac:(simpl; lia))
                 eq_refl).
  - exact (proj2 (@underdetermined_system_error Exact.numpy_new Exact.linalg
                    Examples.penalized_smoother Examples.one_point_sample
                    ltac:(discriminate) ltac:(simpl; lia))
                 eq_refl).
Defined.

(** C4, as stated, fails: one point, two basis functions and the default
    [smoothing_parameter=1].  The condition of line 436 holds, the
    Cholesky solver is called on the penalized system and the coefficients
    -6/5, 18/5 are returned. *)
Lemma underdetermined_system_counterexample :
  (ncols (Smoothing.data_matrix Examples.one_point_sample)
   < n_basis (basis Examples.penalized_smoother))%nat
  /\ @fit_transform Exact.numpy_new Exact.linalg
       Examples.penalized_smoother Examples.one_point_sample
     <> Raise (underdetermined 2 1)
  /\ Examples.returns_rows
       (@fit_transform Exact.numpy_new Exact.linalg
          Examples.penalized_smoother Examples.one_point_sample)
       [[-6 # 5; 18 # 5]] = true.
Proof.
  split; [simpl; lia|]. split.
  - intros H.
    assert (Hok : Py.is_ok (@fit_transform Exact.numpy_new Exact.linalg
                              Examples.penalized_smoother Examples.one_point_sample)
                  = true) by (vm_compute; reflexivity).
    rewrite H in Hok. discriminate Hok.
  - vm_compute. reflexivity.
Qed.

(** ** The solver [_Matrix] (lines 98-127) *)

Section MatrixSolver.

Context `{NP : NumPy} `{LA : LinAlg}.

(** With [return_basis=True], [fit] stores the matrix of [_coef_matrix]
    for the recorded input points. *)
Lemma matrix_fit_caches_coef_matrix (self : BasisSmoother) (X : FDataGrid) (M : matrix) :
  _method_function self = Ok SolverMethod.matrix ->
  return_basis self = true ->
  _coef_matrix self (sample_points X) = Ok M ->
  exists fitted_self,
    fit self X = Ok fitted_self
    /\ input_points_ fitted_self = Some (sample_points X)
    /\ _cached_coef_matrix fitted_self = Some M
    /\ return_basis fitted_self = true
    /\ _method_function fitted_self = Ok SolverMethod.matrix.
Proof.
  intros Hm Hrb HM. unfold fit.
  rewrite _method_function_set_points, Hm. simpl.
  unfold _Matrix_fit. simpl. rewrite Hrb.
  change (_coef_matrix (set_points self ?ip ?op) ?p) with (_coef_matrix self p).
  rewrite HM. simpl. eexists. split; [reflexivity|]. simpl. auto.
Qed.

(** With [return_basis=True], [transform] on data sampled at the recorded
    points multiplies the data by the stored matrix: nothing is solved
    again. *)
Lemma matrix_transform_reuses_cache (self : BasisSmoother) (X : FDataGrid) (M : matrix) :
  _method_function self = Ok SolverMethod.matrix ->
  return_basis self = true ->
  input_points_ self = Some (sample_points X) ->
  same_points (sample_points X) (sample_points X) = Ok true ->
  _cached_coef_matrix self = Some M ->
  transform self X
  = Ok (self, InBasis (mk_FDataBasis (basis self) (data_matrix X @@ transpose M))).
Proof.
  intros Hm Hrb Hip Hsame HM. unfold transform, transform_body.
  rewrite Hip. simpl. rewrite Hsame. simpl. rewrite Hm. simpl.
  rewrite matrix_has_transform. unfold _Matrix_transform.
  rewrite Hrb, HM. reflexivity.
Qed.

(** With [return_basis=False], [_Matrix.transform] looks [hat_matrix] up
    on the solver object (line 126), which has no such attribute. *)
Lemma matrix_transform_raises (estimator : BasisSmoother) (X : FDataGrid) :
  return_basis estimator = false ->
  _Matrix_transform estimator X
  = Raise (AttributeError "'_Matrix' object has no attribute 'hat_matrix'").
Proof. intros Hrb. unfold _Matrix_transform. rewrite Hrb. reflexivity. Qed.

End MatrixSolver.

(** C3, where the code departs from it.  [BasisSmoother(constant_basis,
    method='matrix')] (so [return_basis=False]) on one curve observed at
    two points: [fit] succeeds and caches the hat matrix, and the
    following [transform] on the same data raises [AttributeError]; so
    does [fit_transform]. *)
Theorem matrix_transform_fails_without_return_basis :
  exists fitted_self : BasisSmoother,
    @fit Exact.numpy_new Exact.linalg Examples.matrix_smoother
         Examples.two_point_sample = Ok fitted_self
    /\ option_map (fun c => to_rows (snd c)) (_cached_hat_matrix fitted_self)
       = Some [[1 # 2; 1 # 2]; [1 # 2; 1 # 2]]
    /\ @transform Exact.numpy_new Exact.linalg fitted_self Examples.two_point_sample
       = Raise (AttributeError "'_Matrix' object has no attribute 'hat_matrix'")
    /\ @fit_transform Exact.numpy_new Exact.linalg Examples.matrix_smoother
         Examples.two_point_sample
       = Raise (AttributeError "'_Matrix' object has no attribute 'hat_matrix'").
Proof.
  destruct (@fit Exact.numpy_new Exact.linalg Examples.matrix_smoother
              Examples.two_point_sample) as [fitted_self|e] eqn:Hfit.
  - exists fitted_self. split; [reflexivity|].
    assert (Hcache : option_map (fun c => to_rows (snd c))
                       (match @fit Exact.numpy_new Exact.linalg
                                Examples.matrix_smoother Examples.two_point_sample with
                        | Ok s => _cached_hat_matrix s
                        | Raise _ => None
                        end) = Some [[1 # 2; 1 # 2]; [1 # 2; 1 # 2]])
      by (vm_compute; reflexivity).
    assert (Htransform :
              match @fit Exact.numpy_new Exact.linalg
                      Examples.matrix_smoother Examples.two_point_sample with
              | Ok s => @transform Exact.numpy_new Exact.linalg s Examples.two_point_sample
              | Raise e => Raise e
              end = Raise (AttributeError "'_Matrix' object has no attribute 'hat_matrix'"))
      by (vm_compute; reflexivity).
    rewrite Hfit in Hcache, Htransform.
    split; [exact Hcache|]. split; [exact Htransform|].
    vm_compute. reflexivity.
  - exfalso.
    assert (Hok : Py.is_ok (@fit Exact.numpy_new Exact.linalg
                              Examples.matrix_smoother Examples.two_point_sample)
                  = true) by (vm_compute; reflexivity).
    rewrite Hfit in Hok. discriminate Hok.
Qed.

(** ** The assertion of [transform] (lines 486-487) *)

Section Assertion.

Context `{NP : NumPy}.

(** An array compared with itself. *)
Lemma array_eq_refl (a : list Q) :
  array_eq a a = Ok (BoolArray (map (fun _ => true) a)).
Proof.
  unfold array_eq. rewrite Nat.eqb_refl. do 2 f_equal.
  induction a as [|x a IH]; simpl; [reflexivity|].
  rewrite IH. f_equal. apply Qeq_bool_iff. reflexivity.
Qed.

(** Sample points that are the recorded input points pass the assertion. *)
Lemma same_points_refl (pts : list (list Q)) : same_points pts pts = Ok true.
Proof.
  unfold same_points.
  assert (H : comprehension
                (fun p : list Q * list Q => e <- array_eq (fst p) (snd p) ;; py_all e)
                (combine pts pts)
              = Ok (map (fun _ => true) pts)).
  { induction pts as [|a pts IH]; simpl; [reflexivity|].
    rewrite array_eq_refl. simpl. rewrite IH. simpl.
    f_equal. f_equal. clear IH. induction a; simpl; auto. }
  rewrite H. simpl. f_equal. clear H. induction pts; simpl; auto.
Qed.

(** [zip] stops at the shorter list: axes that only the new data have are
    not compared. *)
Lemma same_points_extra_axes (pts extra : list (list Q)) :
  same_points pts (pts ++ extra) = Ok true.
Proof.
  rewrite <- (same_points_refl pts). unfold same_points.
  replace (combine pts (pts ++ extra)) with (combine pts pts); [reflexivity|].
  clear. induction pts as [|a pts IH]; simpl; [reflexivity|].
  now rewrite IH.
Qed.

(** Two grids with the same axes lengths that differ in a coordinate fail
    the assertion: here one axis. *)
Lemma same_points_one_axis (a b : list Q) :
  length a = length b ->
  same_points [a] [b]
  = Ok (forallb (fun p => Qeq_bool (fst p) (snd p)) (combine a b)).
Proof.
  intros Hlen. unfold same_points. simpl. unfold array_eq.
  rewrite Hlen, Nat.eqb_refl. simpl. rewrite andb_true_r. f_equal.
  generalize (combine a b). intros l. induction l; simpl; congruence.
Qed.

End Assertion.

(** C6, where the code departs from it.  A smoother fitted on curves
    observed at the points 0, 1 is given a surface observed on the grid
    {0, 1} x {0, 1}: the sample points differ from the recorded ones, the
    assertion passes, and the four values are smoothed as if they were a
    curve. *)
Theorem transform_accepts_other_sample_points :
  exists fitted_self : BasisSmoother,
    @fit Exact.numpy_new Exact.linalg Examples.plain_smoother
         Examples.two_point_sample = Ok fitted_self
    /\ input_points_ fitted_self = Some [[0; 1]]
    /\ sample_points Examples.surface_sample = [[0; 1]; [0; 1]]
    /\ @same_points Exact.numpy_new [[0; 1]] [[0; 1]; [0; 1]] = Ok true
    /\ @transform Exact.numpy_new Exact.linalg fitted_self Examples.surface_sample
       <> Raise AssertionError
    /\ Examples.returns_rows
         (@transform Exact.numpy_new Exact.linalg fitted_self Examples.surface_sample)
         [[4; 4; 4; 4]] = true.
Proof.
  exists (set_points Examples.plain_smoother [[0; 1]] [[0; 1]]).
  split; [reflexivity|].
  split; [reflexivity|]. split; [reflexivity|]. split; [reflexivity|].
  assert (Hrows : Examples.returns_rows
                    (@transform Exact.numpy_new Exact.linalg
                       (set_points Examples.plain_smoother [[0; 1]] [[0; 1]])
                       Examples.surface_sample)
                    [[4; 4; 4; 4]] = true) by (vm_compute; reflexivity).
  split; [|exact Hrows].
  intros H. rewrite H in Hrows. discriminate Hrows.
Qed.

(** ** The three solvers on weighted observations *)

(** C1, where the code departs from it.  The constant basis, one curve
    with the values 2 and 6, the weights 9 and 16, the default smoothing
    parameter and no regularization.  The weighted mean is
    (9*2 + 16*6) / (9 + 16) = 114/25: [_QR] returns it, and [_Matrix]
    returns it where [@=] works in place.  [_Cholesky] overwrites
    [basis_values] through the view [common_matrix] (line 29) before it
    forms the left-hand side (line 32), and returns 114/337; where NumPy
    has no in-place [@=], [_Cholesky] and [_Matrix] raise [TypeError]. *)
Theorem solvers_disagree_on_weighted_data :
  let run (np : NumPy) (m : SolverMethod.t) :=
    @fit_transform np Exact.linalg (Examples.weighted_smoother m)
                   Examples.two_point_sample in
  Examples.returns_rows (run Exact.numpy_new SolverMethod.cholesky) [[114 # 337]] = true
  /\ Examples.returns_rows (run Exact.numpy_new SolverMethod.qr) [[114 # 25]] = true
  /\ Examples.returns_rows (run Exact.numpy_new SolverMethod.matrix) [[114 # 25]] = true
  /\ ((114 # 337) + (1 # 1000000) < (114 # 25))%Q
  /\ run Exact.numpy_old SolverMethod.cholesky
     = Raise (TypeError "In-place matrix multiplication is not (yet) supported. Use 'a = a @ b' instead of 'a @= b'.")
  /\ Examples.returns_rows (run Exact.numpy_old SolverMethod.qr) [[114 # 25]] = true
  /\ run Exact.numpy_old SolverMethod.matrix
     = Raise (TypeError "In-place matrix multiplication is not (yet) supported. Use 'a = a @ b' instead of 'a @= b'.").
Proof.
  repeat split; vm_compute; reflexivity.
Qed.

End SmoothingFacts.

(* ===================================================================== *)
(** * Reasoning about methods that change their state                     *)
(* ===================================================================== *)

Module EffFacts.

Import Eff.
Open Scope eff_scope.

Section Rules.

Context {S : Type}.

(** A sequence whose first call returns goes on with the value and the
    state of that call; one whose first call raises ends there. *)
Lemma bind_ok {A B : Type} (c : eff S A) (k : A -> eff S B) (s s' : S) (a : A) :
  c s = (Ok a, s') -> bind c k s = k a s'.
Proof. intros H. unfold bind. rewrite H. reflexivity. Qed.

Lemma bind_raise {A B : Type} (c : eff S A) (k : A -> eff S B) (s s' : S) (e : exn) :
  c s = (Raise e, s') -> bind c k s = (Raise e, s').
Proof. intros H. unfold bind. rewrite H. reflexivity. Qed.

Lemma preserves_ret {A : Type} (I : S -> Prop) (a : A) : preserves I (ret a).
Proof. intros s Hs. exact Hs. Qed.

Lemma preserves_raise {A : Type} (I : S -> Prop) (e : exn) :
  preserves I (raise (A := A) e).
Proof. intros s Hs. exact Hs. Qed.

Lemma preserves_pure {A : Type} (I : S -> Prop) (r : result A) :
  preserves I (pure r).
Proof. intros s Hs. exact Hs. Qed.

Lemma preserves_get (I : S -> Prop) : preserves I get.
Proof. intros s Hs. exact Hs. Qed.

Lemma preserves_modify (I : S -> Prop) (f : S -> S) :
  (forall s, I s -> I (f s)) -> preserves I (modify f).
Proof. intros Hf s Hs. apply Hf, Hs. Qed.

Lemma preserves_bind {A B : Type} (I : S -> Prop) (c : eff S A) (k : A -> eff S B) :
  preserves I c -> (forall a, preserves I (k a)) -> preserves I (bind c k).
Proof.
  intros Hc Hk s Hs. unfold bind.
  specialize (Hc s Hs). destruct (c s) as [[a|e] s']; simpl in *.
  - apply Hk, Hc.
  - exact Hc.
Qed.

Lemma raises_only_ret {A : Type} (P : exn -> Prop) (a : A) :
  raises_only P (ret (S := S) a).
Proof. intros s e. discriminate. Qed.

Lemma raises_only_raise {A : Type} (P : exn -> Prop) (e : exn) :
  P e -> raises_only P (raise (S := S) (A := A) e).
Proof. intros He s e' [= <-]. exact He. Qed.

Lemma raises_only_pure {A : Type} (P : exn -> Prop) (r : result A) :
  (forall e, r = Raise e -> P e) -> raises_only P (pure (S := S) r).
Proof. intros Hr s e. apply Hr. Qed.

Lemma raises_only_lapack {A : Type} (P : exn -> Prop) (o : option A) :
  P LinAlgError -> raises_only P (pure (S := S) (lapack o)).
Proof. intros HP s e. destruct o; simpl; [discriminate|]. intros [= <-]. exact HP. Qed.

Lemma raises_only_get (P : exn -> Prop) : raises_only P (get (S := S)).
Proof. intros s e. discriminate. Qed.

Lemma raises_only_modify (P : exn -> Prop) (f : S -> S) : raises_only P (modify f).
Proof. intros s e. discriminate. Qed.

Lemma raises_only_bind {A B : Type} (P : exn -> Prop) (c : eff S A) (k : A -> eff S B) :
  raises_only P c -> (forall a, raises_only P (k a)) -> raises_only P (bind c k).
Proof.
  intros Hc Hk s e. unfold bind.
  specialize (Hc s). destruct (c s) as [[a|e'] s']; simpl in *.
  - apply Hk.
  - intros [= <-]. apply Hc. reflexivity.
Qed.

End Rules.

End EffFacts.

(* ===================================================================== *)
(** * Facts about functional PCA                                          *)
(* ===================================================================== *)

Module FPCAFacts.

Import FPCA Eff EffFacts.
Open Scope Q_scope.
Open Scope eff_scope.

(** The rules of [EffFacts], applied along the structure of a method;
    [primitive] settles the operations on the state. *)
Ltac eff_rules primitive :=
  repeat first
    [ apply preserves_bind; [|intros ?]
    | apply raises_only_bind; [|intros ?]
    | apply preserves_ret
    | apply preserves_raise
    | apply preserves_pure
    | apply preserves_get
    | apply raises_only_ret
    | apply raises_only_get
    | apply raises_only_modify
    | apply raises_only_lapack; intros ?; discriminate
    | apply raises_only_raise; intros ?; discriminate
    | primitive
    | match goal with
      | |- preserves _ (if ?b then _ else _) => destruct b
      | |- raises_only _ (if ?b then _ else _) => destruct b
      | |- preserves _ (match ?x with _ => _ end) => destruct x
      | |- raises_only _ (match ?x with _ => _ end) => destruct x
      end ].

(** ** [FPCABasis.fit] *)

Section BasisVariant.

Context {B Lfd : Type} `{BC : BasisClass B Lfd} `{LA : LinAlg}.

Abbreviation state := (basis_state (B := B) (Lfd := Lfd)) (only parsing).
Abbreviation estimator := (FPCABasis (B := B) (Lfd := Lfd)) (only parsing).
Abbreviation sample := (FDataBasis (B := B)) (only parsing).

Lemma load_preserves (I : state -> Prop) (a : ndarray) : preserves I (load a).
Proof. intros s Hs. exact Hs. Qed.

Lemma load_raises (P : exn -> Prop) (a : ndarray) :
  raises_only P (load (B := B) (Lfd := Lfd) a).
Proof. intros s e. discriminate. Qed.

Lemma store_raises (P : exn -> Prop) (a : ndarray) (M : matrix) :
  raises_only P (store (B := B) (Lfd := Lfd) a M).
Proof. intros s e. discriminate. Qed.

Lemma new_array_raises (P : exn -> Prop) (M : matrix) :
  raises_only P (new_array (B := B) (Lfd := Lfd) M).
Proof. intros s e. discriminate. Qed.

(** A new array leaves the arrays that exist alone. *)
Lemma new_array_preserves (l : nat) (buf M : matrix) :
  preserves (buffer_is (B := B) (Lfd := Lfd) l buf) (new_array M).
Proof.
  intros s Hs. unfold buffer_is in *. simpl.
  rewrite lookup_insert_ne; [exact Hs|].
  intros <-. apply (is_fresh (dom (arrays s))), elem_of_dom. eauto.
Qed.

Lemma set_components_basis_preserves (l : nat) (buf : matrix) (cb : B) :
  preserves (buffer_is (Lfd := Lfd) l buf) (set_components_basis cb).
Proof. intros s Hs. exact Hs. Qed.

Lemma set_pca__preserves (l : nat) (buf : matrix) (p : option (matrix * list Q)) :
  preserves (buffer_is (B := B) (Lfd := Lfd) l buf) (set_pca_ p).
Proof. intros s Hs. exact Hs. Qed.

Lemma set_results_preserves (l : nat) (buf : matrix) (v : list Q) (c : sample) :
  preserves (buffer_is (Lfd := Lfd) l buf) (set_results v c).
Proof. intros s Hs. exact Hs. Qed.

Ltac basis_primitive :=
  first
    [ apply load_preserves
    | apply new_array_preserves
    | apply set_components_basis_preserves
    | apply set_pca__preserves
    | apply set_results_preserves
    | apply load_raises
    | apply store_raises
    | apply new_array_raises
    | progress unfold mean, set_components_basis, set_pca_, set_results ].

(** More components than samples (line 196): the error, and nothing has
    been computed or written. *)
Lemma basis_too_few_samples (X : sample) (s : state) :
  (Z.of_nat (n_samples s X) < n_components (self s))%Z ->
  FPCABasis_fit X s = (Raise too_few_samples, s).
Proof.
  intros H. unfold FPCABasis_fit, bind, get, load. simpl.
  apply Z.ltb_lt in H. unfold n_samples in H. rewrite H. reflexivity.
Qed.

(** More components than basis functions (line 202). *)
Lemma basis_too_small_basis (X : sample) (s : state) :
  (n_components (self s) <= Z.of_nat (n_samples s X))%Z ->
  (Z.of_nat (capacity (self s) X) < n_components (self s))%Z ->
  FPCABasis_fit X s = (Raise too_small_basis, s).
Proof.
  intros H1 H2. unfold FPCABasis_fit, bind, get, load. simpl.
  unfold n_samples in H1.
  destruct (Z.ltb_spec (Z.of_nat (nrows (read (arrays s) (coefficients X))))
                       (n_components (self s))); [lia|].
  apply Z.ltb_lt in H2. unfold capacity in H2. rewrite H2. reflexivity.
Qed.

(** Within both bounds, no later step raises an [AttributeError]. *)
Lemma basis_within_bounds (X : sample) (s : state) :
  (n_components (self s) <= Z.of_nat (n_samples s X))%Z ->
  (n_components (self s) <= Z.of_nat (capacity (self s) X))%Z ->
  forall e, fst (FPCABasis_fit X s) = Raise e -> no_AttributeError e.
Proof.
  intros H1 H2. unfold FPCABasis_fit. unfold bind at 1 2. unfold get, load. simpl.
  unfold n_samples in H1. unfold capacity in H2.
  destruct (Z.ltb_spec (Z.of_nat (nrows (read (arrays s) (coefficients X))))
                       (n_components (self s))); [lia|].
  match goal with
  | |- context [if ?c then _ else _] => destruct c eqn:Hc
  end.
  { apply Z.ltb_lt in Hc. lia. }
  match goal with
  | |- forall e, fst (?c s) = Raise e -> _ =>
      enough (Hr : raises_only no_AttributeError c) by (intros e; apply Hr)
  end.
  eff_rules basis_primitive.
Qed.

(** What the centering of lines 209-213 does to the state: the mean is a
    new array, and the difference is written into the array of the
    sample. *)
Lemma basis_centering_block (X : sample) (s : state) (buf : matrix) :
  buffer_is (base (coefficients X)) buf s ->
  let C := read (arrays s) (coefficients X) in
  (meanfd <~ mean X ;;
   m <~ load (coefficients meanfd) ;;
   C <~ load (coefficients X) ;;
   store (coefficients X) (sub_row C m)) s
  = (Ok tt,
     mk_basis_state (self s)
       (write (<[fresh (dom (arrays s)) := mean_rows C]> (arrays s))
              (coefficients X) (sub_row C (mean_rows C)))).
Proof.
  intros Hbuf C. unfold buffer_is in Hbuf.
  assert (Hfresh : fresh (dom (arrays s)) <> base (coefficients X)).
  { intros Heq. apply (is_fresh (dom (arrays s))). rewrite Heq.
    apply elem_of_dom. eauto. }
  unfold mean, bind, load, new_array, store, modify, ret, alloc. simpl.
  rewrite HeapFacts.read_insert_new, HeapFacts.read_insert_other by exact Hfresh.
  reflexivity.
Qed.

(** With centering, and once the tests on [n_components] have passed, the
    array of the sample holds the centered coefficients when [fit] ends. *)
Lemma basis_centering_writes (X : sample) (s : state) (buf : matrix) :
  buffer_is (base (coefficients X)) buf s ->
  centering (self s) = true ->
  (n_components (self s) <= Z.of_nat (n_samples s X))%Z ->
  (n_components (self s) <= Z.of_nat (capacity (self s) X))%Z ->
  let C := read (arrays s) (coefficients X) in
  read (arrays (snd (FPCABasis_fit X s))) (coefficients X)
  =m sub_row C (mean_rows C).
Proof.
  intros Hbuf Hc H1 H2 C.
  unfold FPCABasis_fit.
  rewrite (bind_ok get _ s s s eq_refl).
  rewrite (bind_ok (load _) _ s s _ eq_refl).
  unfold n_samples in H1. unfold capacity in H2. fold C in H1 |- *.
  destruct (Z.ltb_spec (Z.of_nat (nrows C)) (n_components (self s))); [lia|].
  match goal with
  | |- context [if ?c then _ else _] => destruct c eqn:Hcap
  end.
  { apply Z.ltb_lt in Hcap. lia. }
  rewrite Hc.
  rewrite (bind_ok _ _ s _ tt (basis_centering_block X s buf Hbuf)).
  fold C.
  set (M := sub_row C (mean_rows C)).
  set (buf' := if transposed (coefficients X) then transpose M else M).
  match goal with
  | |- read (arrays (snd (?rest ?s1))) _ =m _ =>
      assert (Hend : buffer_is (base (coefficients X)) buf' (snd (rest s1)))
  end.
  { match goal with
    | |- buffer_is _ _ (snd (?rest ?s1)) =>
        enough (Hp : preserves (buffer_is (base (coefficients X)) buf') rest)
    end.
    - apply Hp. unfold buffer_is, write. simpl. apply lookup_insert_eq.
    - eff_rules basis_primitive. }
  unfold buffer_is in Hend. unfold read. rewrite Hend. simpl.
  subst buf'. destruct (transposed (coefficients X)).
  - apply npFacts.transpose_involutive.
  - apply npFacts.meq_refl.
Qed.

(** Without centering, [fit] leaves the array of the sample as it is. *)
Lemma basis_no_centering (X : sample) (s : state) (buf : matrix) :
  buffer_is (base (coefficients X)) buf s ->
  centering (self s) = false ->
  buffer_is (base (coefficients X)) buf (snd (FPCABasis_fit X s)).
Proof.
  intros Hbuf Hc.
  unfold FPCABasis_fit.
  rewrite (bind_ok get _ s s s eq_refl).
  rewrite (bind_ok (load _) _ s s _ eq_refl).
  destruct (Z.ltb _ _); [exact Hbuf|].
  destruct (Z.ltb _ _); [exact Hbuf|].
  rewrite Hc.
  match goal with
  | |- buffer_is _ _ (snd (?c s)) =>
      enough (Hp : preserves (buffer_is (base (coefficients X)) buf) c)
        by (apply Hp, Hbuf)
  end.
  eff_rules basis_primitive.
Qed.

End BasisVariant.

(** ** [FPCAGrid.fit] *)

Section GridVariant.

Context `{LA : LinAlg}.

Lemma g_load_preserves (I : grid_state -> Prop) (a : ndarray) :
  preserves I (g_load a).
Proof. intros s Hs. exact Hs. Qed.

Lemma g_load_raises (P : exn -> Prop) (a : ndarray) : raises_only P (g_load a).
Proof. intros s e. discriminate. Qed.

Lemma g_store_raises (P : exn -> Prop) (a : ndarray) (M : matrix) :
  raises_only P (g_store a M).
Proof. intros s e. discriminate. Qed.

Lemma g_new_array_raises (P : exn -> Prop) (M : matrix) :
  raises_only P (g_new_array M).
Proof. intros s e. discriminate. Qed.

Lemma set_weights_raises (P : exn -> Prop) (w : weights_value) :
  raises_only P (set_weights w).
Proof. intros s e. discriminate. Qed.

Lemma g_new_array_preserves (l : nat) (buf M : matrix) :
  preserves (g_buffer_is l buf) (g_new_array M).
Proof.
  intros s Hs. unfold g_buffer_is in *. simpl.
  rewrite lookup_insert_ne; [exact Hs|].
  intros <-. apply (is_fresh (dom (g_arrays s))), elem_of_dom. eauto.
Qed.

Lemma set_weights_preserves (l : nat) (buf : matrix) (w : weights_value) :
  preserves (g_buffer_is l buf) (set_weights w).
Proof. intros s Hs. exact Hs. Qed.

Lemma set_g_pca__preserves (l : nat) (buf : matrix) (p : option (matrix * list Q)) :
  preserves (g_buffer_is l buf) (set_g_pca_ p).
Proof. intros s Hs. exact Hs. Qed.

Lemma set_g_results_preserves (l : nat) (buf : matrix) (c : FDataGrid) (v : list Q) :
  preserves (g_buffer_is l buf) (set_g_results c v).
Proof. intros s Hs. exact Hs. Qed.

(** The operations on arrays and the results leave [weights] alone. *)
Lemma g_store_weights (w : weights_value) (a : ndarray) (M : matrix) :
  preserves (weights_are w) (g_store a M).
Proof. intros s Hs. exact Hs. Qed.

Lemma g_new_array_weights (w : weights_value) (M : matrix) :
  preserves (weights_are w) (g_new_array M).
Proof. intros s Hs. exact Hs. Qed.

Lemma set_g_pca__weights (w : weights_value) (p : option (matrix * list Q)) :
  preserves (weights_are w) (set_g_pca_ p).
Proof. intros s Hs. exact Hs. Qed.

Lemma set_g_results_weights (w : weights_value) (c : FDataGrid) (v : list Q) :
  preserves (weights_are w) (set_g_results c v).
Proof. intros s Hs. exact Hs. Qed.

(** The pure steps of [fit] raise no [AttributeError]. *)
Lemma truth_value_raises (w : weights_value) :
  raises_only (S := grid_state) no_AttributeError (pure (truth_value w)).
Proof.
  apply raises_only_pure. intros e.
  destruct w as [|l|[|x [|y a]]]; simpl; intros [= <-] msg; discriminate.
Qed.

Lemma weights_entries_raises (w : weights_value) :
  raises_only (S := grid_state) no_AttributeError (pure (weights_entries w)).
Proof.
  apply raises_only_pure. intros e.
  destruct w; simpl; intros [= <-] msg; discriminate.
Qed.

Lemma sqrt_vector_raises (w : list Q) :
  raises_only (S := grid_state) no_AttributeError
              (pure (comprehension (fun x => lapack (np_sqrt x)) w)).
Proof.
  apply raises_only_pure. induction w as [|x w IH]; simpl; intros e.
  - discriminate.
  - destruct (np_sqrt x); simpl.
    + destruct (comprehension _ w); simpl; [discriminate|].
      intros [= <-]. apply IH. reflexivity.
    + intros [= <-] msg. discriminate.
Qed.

Ltac grid_primitive :=
  first
    [ apply truth_value_raises
    | apply weights_entries_raises
    | apply sqrt_vector_raises
    | apply g_load_preserves
    | apply g_new_array_preserves
    | apply set_weights_preserves
    | apply set_g_pca__preserves
    | apply set_g_results_preserves
    | apply g_store_weights
    | apply g_new_array_weights
    | apply set_g_pca__weights
    | apply set_g_results_weights
    | apply g_load_raises
    | apply g_store_raises
    | apply g_new_array_raises
    | apply set_weights_raises
    | progress unfold g_mean, default_weights ].

(** More components than samples (line 379). *)
Lemma grid_too_few_samples (X : FDataGrid) (s : grid_state) :
  (Z.of_nat (nrows (values s X)) < g_n_components (g_self s))%Z ->
  FPCAGrid_fit X s = (Raise too_few_samples, s).
Proof.
  intros H. unfold FPCAGrid_fit, bind, get, g_load. simpl.
  apply Z.ltb_lt in H. unfold values in H. rewrite H. reflexivity.
Qed.

(** More components than discretization points (line 385). *)
Lemma grid_too_few_points (X : FDataGrid) (s : grid_state) :
  (g_n_components (g_self s) <= Z.of_nat (nrows (values s X)))%Z ->
  (Z.of_nat (ncols (values s X)) < g_n_components (g_self s))%Z ->
  FPCAGrid_fit X s = (Raise too_few_points, s).
Proof.
  intros H1 H2. unfold FPCAGrid_fit, bind, get, g_load. simpl.
  unfold values in *.
  destruct (Z.ltb_spec (Z.of_nat (nrows (read (g_arrays s) (data_matrix X))))
                       (g_n_components (g_self s))); [lia|].
  apply Z.ltb_lt in H2. rewrite H2. reflexivity.
Qed.

(** Within both bounds, no later step raises an [AttributeError]. *)
Lemma grid_within_bounds (X : FDataGrid) (s : grid_state) :
  (g_n_components (g_self s) <= Z.of_nat (nrows (values s X)))%Z ->
  (g_n_components (g_self s) <= Z.of_nat (ncols (values s X)))%Z ->
  forall e, fst (FPCAGrid_fit X s) = Raise e -> no_AttributeError e.
Proof.
  intros H1 H2. unfold FPCAGrid_fit. unfold bind at 1 2. unfold get, g_load. simpl.
  unfold values in *.
  destruct (Z.ltb_spec (Z.of_nat (nrows (read (g_arrays s) (data_matrix X))))
                       (g_n_components (g_self s))); [lia|].
  destruct (Z.ltb_spec (Z.of_nat (ncols (read (g_arrays s) (data_matrix X))))
                       (g_n_components (g_self s))); [lia|].
  match goal with
  | |- forall e, fst (?c s) = Raise e -> _ =>
      enough (Hr : raises_only no_AttributeError c) by (intros e; apply Hr)
  end.
  eff_rules grid_primitive.
Qed.

(** What the centering of lines 398-402 does to the state: the mean is a
    new array, and the difference is written into the array of the
    sample. *)
Lemma grid_centering_block (X : FDataGrid) (s : grid_state) (buf : matrix) :
  g_buffer_is (base (data_matrix X)) buf s ->
  let D := values s X in
  (meanfd <~ g_mean X ;;
   m <~ g_load (data_matrix meanfd) ;;
   D <~ g_load (data_matrix X) ;;
   g_store (data_matrix X) (sub_row D m)) s
  = (Ok tt,
     mk_grid_state (g_self s)
       (write (<[fresh (dom (g_arrays s)) := mean_rows D]> (g_arrays s))
              (data_matrix X) (sub_row D (mean_rows D)))).
Proof.
  intros Hbuf D. unfold g_buffer_is in Hbuf.
  assert (Hfresh : fresh (dom (g_arrays s)) <> base (data_matrix X)).
  { intros Heq. apply (is_fresh (dom (g_arrays s))). rewrite Heq.
    apply elem_of_dom. eauto. }
  unfold g_mean, bind, g_load, g_new_array, g_store, modify, ret, alloc. simpl.
  rewrite HeapFacts.read_insert_new, HeapFacts.read_insert_other by exact Hfresh.
  reflexivity.
Qed.

(** With centering, and once the tests on [n_components] and on the shape
    have passed, the array of the sample holds the centered values when
    [fit] ends. *)
Lemma grid_centering_writes (X : FDataGrid) (s : grid_state) (buf : matrix) :
  g_buffer_is (base (data_matrix X)) buf s ->
  g_centering (g_self s) = true ->
  (g_n_components (g_self s) <= Z.of_nat (nrows (values s X)))%Z ->
  (g_n_components (g_self s) <= Z.of_nat (ncols (values s X)))%Z ->
  two_axes (values s X) = true ->
  read (g_arrays (snd (FPCAGrid_fit X s))) (data_matrix X)
  =m sub_row (values s X) (mean_rows (values s X)).
Proof.
  intros Hbuf Hc H1 H2 Hshape.
  unfold FPCAGrid_fit.
  rewrite (bind_ok get _ s s s eq_refl).
  rewrite (bind_ok (g_load _) _ s s _ eq_refl).
  fold (values s X).
  destruct (Z.ltb_spec (Z.of_nat (nrows (values s X)))
                       (g_n_components (g_self s))); [lia|].
  destruct (Z.ltb_spec (Z.of_nat (ncols (values s X)))
                       (g_n_components (g_self s))); [lia|].
  unfold two_axes in Hshape. apply andb_prop in Hshape as [Hr Hcol].
  apply negb_true_iff in Hr, Hcol. rewrite Hr, Hcol. cbn [andb orb].
  rewrite Hc.
  rewrite (bind_ok (ret tt) _ s s tt eq_refl).
  rewrite (bind_ok _ _ s _ tt (grid_centering_block X s buf Hbuf)).
  set (M := sub_row (values s X) (mean_rows (values s X))).
  set (buf' := if transposed (data_matrix X) then transpose M else M).
  match goal with
  | |- read (g_arrays (snd (?rest ?s1))) _ =m _ =>
      assert (Hend : g_buffer_is (base (data_matrix X)) buf' (snd (rest s1)))
  end.
  { match goal with
    | |- g_buffer_is _ _ (snd (?rest ?s1)) =>
        enough (Hp : preserves (g_buffer_is (base (data_matrix X)) buf') rest)
    end.
    - apply Hp. unfold g_buffer_is, write. simpl. apply lookup_insert_eq.
    - eff_rules grid_primitive. }
  unfold g_buffer_is in Hend. unfold read. rewrite Hend. simpl.
  subst buf'. destruct (transposed (data_matrix X)).
  - apply npFacts.transpose_involutive.
  - apply npFacts.meq_refl.
Qed.

(** Without centering, [fit] leaves the array of the sample as it is. *)
Lemma grid_no_centering (X : FDataGrid) (s : grid_state) (buf : matrix) :
  g_buffer_is (base (data_matrix X)) buf s ->
  g_centering (g_self s) = false ->
  g_buffer_is (base (data_matrix X)) buf (snd (FPCAGrid_fit X s)).
Proof.
  intros Hbuf Hc.
  unfold FPCAGrid_fit.
  rewrite (bind_ok get _ s s s eq_refl).
  rewrite (bind_ok (g_load _) _ s s _ eq_refl).
  destruct (Z.ltb _ _); [exact Hbuf|].
  destruct (Z.ltb _ _); [exact Hbuf|].
  rewrite Hc.
  match goal with
  | |- g_buffer_is _ _ (snd (?c s)) =>
      enough (Hp : preserves (g_buffer_is (base (data_matrix X)) buf) c)
        by (apply Hp, Hbuf)
  end.
  eff_rules grid_primitive.
Qed.

(** *** The default weights (lines 404-413) *)

Lemma length_diff (a : list Q) : length (diff a) = (length a - 1)%nat.
Proof.
  induction a as [|x [|y a] IH]; simpl in *; try reflexivity.
  rewrite IH. lia.
Qed.

Lemma nth_diff (a : list Q) (i : nat) :
  (S i < length a)%nat -> nth i (diff a) 0 = nth (S i) a 0 - nth i a 0.
Proof.
  revert i. induction a as [|x [|y a] IH]; intros i Hi; simpl in Hi; try lia.
  destruct i as [|i]; [reflexivity|].
  change (diff (x :: y :: a)) with ((y - x) :: diff (y :: a)).
  change (nth (S i) ((y - x) :: diff (y :: a)) 0) with (nth i (diff (y :: a)) 0).
  rewrite IH by (simpl; lia). reflexivity.
Qed.

(** [differences[i:i + 2]] has two entries, except at the last index. *)
Lemma slice2_interior (d : list Q) (i : nat) :
  (S i < length d)%nat -> slice2 d i = [nth i d 0; nth (S i) d 0].
Proof.
  revert i. induction d as [|x d IH]; intros i Hi; simpl in Hi; [lia|].
  destruct i as [|i].
  - destruct d as [|y d]; simpl in Hi; [lia|]. reflexivity.
  - unfold slice2 in *. simpl. apply IH. lia.
Qed.

Lemma slice2_last (d : list Q) (i : nat) :
  S i = length d -> slice2 d i = [nth i d 0].
Proof.
  revert i. induction d as [|x d IH]; intros i Hi; simpl in Hi; [lia|].
  destruct i as [|i].
  - destruct d as [|y d]; simpl in Hi; [reflexivity|lia].
  - unfold slice2 in *. simpl. apply IH. lia.
Qed.

Lemma nth_map_seq (f : nat -> Q) (n k : nat) (d : Q) :
  (k < n)%nat -> nth k (map f (seq 0 n)) d = f k.
Proof.
  intros Hk. rewrite (nth_indep _ d (f 0%nat)) by (rewrite length_map, length_seq; exact Hk).
  rewrite map_nth, seq_nth by exact Hk. reflexivity.
Qed.

(** It has one entry per point, and its entries are the trapezoidal
    weights. *)
Lemma built_weights_trapezoidal (axis : list Q) :
  (2 <= length axis)%nat ->
  length (built_weights axis) = length axis
  /\ forall k, (k < length axis)%nat ->
       nth k (built_weights axis) 0 == trapezoidal axis k.
Proof.
  intros Hlen. unfold built_weights.
  assert (Hd := length_diff axis). split.
  - simpl. rewrite length_map, length_seq. lia.
  - intros k Hk. unfold trapezoidal. destruct k as [|k].
    + simpl nth. rewrite nth_diff by lia.
      destruct (Nat.eqb_spec 1 (length axis)); [lia|].
      change (Nat.eqb 0 0) with true. cbv iota. unfold Qdiv. ring.
    + change (nth (S k) (?x :: ?l) 0) with (nth k l 0).
      assert (Hk' : (k < length (diff axis))%nat) by lia.
      rewrite nth_map_seq by exact Hk'.
      replace (S k - 1)%nat with k by lia.
      change (Nat.eqb (S k) 0) with false. cbv iota.
      destruct (Nat.eqb_spec (S (S k)) (length axis)) as [Hlast|Hinner].
      * rewrite slice2_last by lia. unfold py_sum. simpl.
        rewrite nth_diff by lia. unfold Qdiv. ring.
      * rewrite slice2_interior by lia. unfold py_sum. simpl.
        rewrite !nth_diff by lia. unfold Qdiv. ring.
Qed.

(** The centering step returns and leaves [weights] alone. *)
Lemma grid_centering_returns (X : FDataGrid) (s : grid_state) (w : weights_value) :
  weights_are w s ->
  exists s1,
    (if g_centering (g_self s)
     then (meanfd <~ g_mean X ;;
           m <~ g_load (data_matrix meanfd) ;;
           D <~ g_load (data_matrix X) ;;
           g_store (data_matrix X) (sub_row D m))
     else ret tt) s = (Ok tt, s1)
    /\ weights_are w s1.
Proof.
  intros Hw.
  match goal with
  | |- exists s1, ?c s = _ /\ _ =>
      assert (Hp : preserves (weights_are w) c) by eff_rules grid_primitive;
      assert (Hr : raises_only (fun _ => False) c) by eff_rules grid_primitive;
      specialize (Hp s Hw); specialize (Hr s);
      destruct (c s) as [[[]|e] s1]
  end.
  - exists s1. split; [reflexivity|exact Hp].
  - exfalso. apply (Hr e). reflexivity.
Qed.

(** The first steps of [fit] when the tests of lines 379, 385 and the
    unpacking of line 394 pass: what is left is the rest of the method,
    run after the centering step. *)
Ltac enter_fit X s H1 H2 Hshape :=
  unfold FPCAGrid_fit;
  rewrite (bind_ok get _ s s s eq_refl);
  rewrite (bind_ok (g_load _) _ s s _ eq_refl);
  fold (values s X);
  destruct (Z.ltb_spec (Z.of_nat (nrows (values s X)))
                       (g_n_components (g_self s))); [lia|];
  destruct (Z.ltb_spec (Z.of_nat (ncols (values s X)))
                       (g_n_components (g_self s))); [lia|];
  let Hr := fresh "Hr" in
  let Hcol := fresh "Hcol" in
  unfold two_axes in Hshape; apply andb_prop in Hshape as [Hr Hcol];
  apply negb_true_iff in Hr, Hcol; rewrite Hr, Hcol; cbn [andb orb];
  rewrite (bind_ok (ret tt) _ s s tt eq_refl).

(** Without weights, [fit] stores the vector of lines 410-413. *)
Lemma grid_fit_default_weights (X : FDataGrid) (s : grid_state)
    (axis : list Q) (axes : list (list Q)) :
  weights (g_self s) = WNone ->
  sample_points X = axis :: axes ->
  (2 <= length axis)%nat ->
  (g_n_components (g_self s) <= Z.of_nat (nrows (values s X)))%Z ->
  (g_n_components (g_self s) <= Z.of_nat (ncols (values s X)))%Z ->
  two_axes (values s X) = true ->
  weights_are (WArray (built_weights axis)) (snd (FPCAGrid_fit X s)).
Proof.
  intros Hw Hpts Hlen H1 H2 Hshape.
  enter_fit X s H1 H2 Hshape.
  destruct (grid_centering_returns X s WNone Hw) as (s1 & Hrun & Hw1).
  rewrite (bind_ok _ _ s s1 tt Hrun).
  rewrite (bind_ok get _ s1 s1 s1 eq_refl).
  unfold weights_are in Hw1. rewrite Hw1.
  rewrite (bind_ok (pure (truth_value WNone)) _ s1 s1 false eq_refl).
  cbn [negb].
  assert (Hdefault :
    exists s2, default_weights X s1 = (Ok tt, s2)
               /\ weights_are (WArray (built_weights axis)) s2).
  { unfold default_weights, built_weights. rewrite Hpts.
    assert (Hd := length_diff axis).
    destruct (diff axis) as [|d0 ds] eqn:Hdiff; [simpl in Hd; lia|].
    eexists. split; [reflexivity|]. reflexivity. }
  destruct Hdefault as (s2 & Hrun2 & Hw2).
  rewrite (bind_ok _ _ s1 s2 tt Hrun2).
  match goal with
  | |- weights_are _ (snd (?rest s2)) =>
      enough (Hp : preserves (weights_are (WArray (built_weights axis))) rest)
        by (apply Hp, Hw2)
  end.
  eff_rules grid_primitive.
Qed.

(** With an array of two or more weights stored, [fit] raises at the test
    of line 405 and leaves the array as it is. *)
Lemma grid_fit_with_stored_array (X : FDataGrid) (s : grid_state) (w : list Q) :
  weights (g_self s) = WArray w ->
  (2 <= length w)%nat ->
  (g_n_components (g_self s) <= Z.of_nat (nrows (values s X)))%Z ->
  (g_n_components (g_self s) <= Z.of_nat (ncols (values s X)))%Z ->
  two_axes (values s X) = true ->
  fst (FPCAGrid_fit X s) = Raise ambiguous_truth_value
  /\ weights_are (WArray w) (snd (FPCAGrid_fit X s)).
Proof.
  intros Hw Hlen H1 H2 Hshape.
  enter_fit X s H1 H2 Hshape.
  destruct (grid_centering_returns X s (WArray w) Hw) as (s1 & Hrun & Hw1).
  rewrite (bind_ok _ _ s s1 tt Hrun).
  rewrite (bind_ok get _ s1 s1 s1 eq_refl).
  rewrite Hw1.
  assert (Ht : truth_value (WArray w) = Raise ambiguous_truth_value).
  { destruct w as [|x [|y w]]; simpl in Hlen; try lia. reflexivity. }
  rewrite (bind_raise (pure (truth_value (WArray w))) _ s1 s1
             ambiguous_truth_value (f_equal (fun r => (r, s1)) Ht)).
  split; [reflexivity|exact Hw1].
Qed.

End GridVariant.

(** ** The claims about functional PCA *)

(** C5.  [fit] compares [n_components] with the number of samples and
    with the capacity (the size of the target basis for [FPCABasis], the
    number of discretization points for [FPCAGrid]) before anything else:
    when either test fails the configuration error is the outcome and the
    state is untouched, for every instance of the numerical libraries, none
    of which has been called; within both bounds no [AttributeError] is
    raised by what follows. *)
Theorem n_components_is_checked_first
    {B Lfd : Type} `{BC : BasisClass B Lfd} `{LA : LinAlg}
    (Xb : FDataBasis (B := B)) (sb : basis_state (B := B) (Lfd := Lfd))
    (Xg : FDataGrid) (sg : grid_state) :
  let n := n_components (self sb) in
  let m := g_n_components (g_self sg) in
  ((Z.of_nat (n_samples sb Xb) < n)%Z ->
   FPCABasis_fit Xb sb = (Raise too_few_samples, sb))
  /\ ((n <= Z.of_nat (n_samples sb Xb))%Z ->
      (Z.of_nat (capacity (self sb) Xb) < n)%Z ->
      FPCABasis_fit Xb sb = (Raise too_small_basis, sb))
  /\ ((n <= Z.of_nat (n_samples sb Xb))%Z ->
      (n <= Z.of_nat (capacity (self sb) Xb))%Z ->
      forall e, fst (FPCABasis_fit Xb sb) = Raise e -> no_AttributeError e)
  /\ ((Z.of_nat (nrows (values sg Xg)) < m)%Z ->
      FPCAGrid_fit Xg sg = (Raise too_few_samples, sg))
  /\ ((m <= Z.of_nat (nrows (values sg Xg)))%Z ->
      (Z.of_nat (ncols (values sg Xg)) < m)%Z ->
      FPCAGrid_fit Xg sg = (Raise too_few_points, sg))
  /\ ((m <= Z.of_nat (nrows (values sg Xg)))%Z ->
      (m <= Z.of_nat (ncols (values sg Xg)))%Z ->
      forall e, fst (FPCAGrid_fit Xg sg) = Raise e -> no_AttributeError e).
Proof.
  intros n m. split; [|split; [|split; [|split; [|split]]]].
  - apply basis_too_few_samples.
  - apply basis_too_small_basis.
  - apply basis_within_bounds.
  - apply grid_too_few_samples.
  - apply grid_too_few_points.
  - apply grid_within_bounds.
Qed.

(** Five components asked of four samples: both variants raise at once. *)
Lemma n_components_witness :
  @FPCABasis_fit nat unit Examples.orthonormal Exact.linalg Examples.basis_sample
    (mk_basis_state Examples.greedy_fpca_basis Examples.coefficient_heap)
  = (Raise too_few_samples,
     mk_basis_state Examples.greedy_fpca_basis Examples.coefficient_heap)
  /\ @FPCAGrid_fit Exact.linalg Examples.grid_sample
       (mk_grid_state Examples.greedy_fpca_grid Examples.grid_heap)
     = (Raise too_few_samples,
        mk_grid_state Examples.greedy_fpca_grid Examples.grid_heap).
Proof.
  pose proof (@n_components_is_checked_first nat unit Examples.orthonormal
                Exact.linalg Examples.basis_sample
                (mk_basis_state Examples.greedy_fpca_basis Examples.coefficient_heap)
                Examples.grid_sample
                (mk_grid_state Examples.greedy_fpca_grid Examples.grid_heap))
    as (Hb & _ & _ & Hg & _).
  split.
  - apply Hb. vm_compute. reflexivity.
  - apply Hg. vm_compute. reflexivity.
Defined.

(** C2, as amended.  With centering, once the tests on [n_components]
    (and, for [FPCAGrid], the unpacking of the shape) have passed, [fit]
    writes the centered values into the array the sample holds; without
    centering the array is the same after the call. *)
Theorem centering_is_done_in_place
    {B Lfd : Type} `{BC : BasisClass B Lfd} `{LA : LinAlg}
    (Xb : FDataBasis (B := B)) (sb : basis_state (B := B) (Lfd := Lfd))
    (Xg : FDataGrid) (sg : grid_state) (bufb bufg : matrix) :
  buffer_is (base (coefficients Xb)) bufb sb ->
  g_buffer_is (base (data_matrix Xg)) bufg sg ->
  let C := read (arrays sb) (coefficients Xb) in
  let D := values sg Xg in
  (centering (self sb) = true ->
   (n_components (self sb) <= Z.of_nat (n_samples sb Xb))%Z ->
   (n_components (self sb) <= Z.of_nat (capacity (self sb) Xb))%Z ->
   read (arrays (snd (FPCABasis_fit Xb sb))) (coefficients Xb)
   =m sub_row C (mean_rows C))
  /\ (centering (self sb) = false ->
      buffer_is (base (coefficients Xb)) bufb (snd (FPCABasis_fit Xb sb)))
  /\ (g_centering (g_self sg) = true ->
      (g_n_components (g_self sg) <= Z.of_nat (nrows D))%Z ->
      (g_n_components (g_self sg) <= Z.of_nat (ncols D))%Z ->
      two_axes D = true ->
      read (g_arrays (snd (FPCAGrid_fit Xg sg))) (data_matrix Xg)
      =m sub_row D (mean_rows D))
  /\ (g_centering (g_self sg) = false ->
      g_buffer_is (base (data_matrix Xg)) bufg (snd (FPCAGrid_fit Xg sg))).
Proof.
  intros Hb Hg C D. split; [|split; [|split]].
  - intros. eapply basis_centering_writes; eassumption.
  - intros. apply basis_no_centering; assumption.
  - intros. eapply grid_centering_writes; eassumption.
  - intros. apply grid_no_centering; assumption.
Qed.

(** The coefficients 1, 3, 1, 3 become -1, 1, -1, 1; the arrays of the
    estimators without centering stay as they are. *)
Lemma centering_witness :
  (read (arrays (snd (@FPCABasis_fit nat unit Examples.orthonormal Exact.linalg
                        Examples.basis_sample
                        (mk_basis_state Examples.fpca_basis Examples.coefficient_heap))))
        (mk_ndarray 0 false)
   =m sub_row (of_rows [[1]; [3]; [1]; [3]]) (mean_rows (of_rows [[1]; [3]; [1]; [3]])))
  /\ (arrays (snd (@FPCABasis_fit nat unit Examples.orthonormal Exact.linalg
                     Examples.basis_sample
                     (mk_basis_state Examples.uncentered_fpca_basis
                                     Examples.coefficient_heap))) !! 0%nat
      = Some (of_rows [[1]; [3]; [1]; [3]])).
Proof.
  pose proof (@centering_is_done_in_place nat unit Examples.orthonormal Exact.linalg
                Examples.basis_sample
                (mk_basis_state Examples.fpca_basis Examples.coefficient_heap)
                Examples.grid_sample
                (mk_grid_state Examples.fpca_grid Examples.grid_heap)
                (of_rows [[1]; [3]; [1]; [3]])
                (of_rows [[2; 5]; [0; 5]; [2; 5]; [0; 5]])
                eq_refl eq_refl) as (Hc & _).
  pose proof (@centering_is_done_in_place nat unit Examples.orthonormal Exact.linalg
                Examples.basis_sample
                (mk_basis_state Examples.uncentered_fpca_basis Examples.coefficient_heap)
                Examples.grid_sample
                (mk_grid_state Examples.fpca_grid Examples.grid_heap)
                (of_rows [[1]; [3]; [1]; [3]])
                (of_rows [[2; 5]; [0; 5]; [2; 5]; [0; 5]])
                eq_refl eq_refl) as (_ & Hn & _).
  split.
  - apply Hc; [reflexivity | vm_compute; discriminate | vm_compute; discriminate].
  - apply Hn. reflexivity.
Defined.

(** C2, as stated, fails: [fit] with the default centering returns
    normally and the arrays of both samples have changed. *)
Lemma centering_counterexample :
  let sb := mk_basis_state Examples.fpca_basis Examples.coefficient_heap in
  let sg := mk_grid_state Examples.fpca_grid Examples.grid_heap in
  let rb := @FPCABasis_fit nat unit Examples.orthonormal Exact.linalg
              Examples.basis_sample sb in
  let rg := @FPCAGrid_fit Exact.linalg Examples.grid_sample sg in
  fst rb = Ok tt
  /\ ~ (read (arrays (snd rb)) (coefficients Examples.basis_sample)
        =m read (arrays sb) (coefficients Examples.basis_sample))
  /\ map (map Qred)
         (to_rows (read (arrays (snd rb)) (coefficients Examples.basis_sample)))
     = [[-1]; [1]; [-1]; [1]]
  /\ fst rg = Ok tt
  /\ ~ (read (g_arrays (snd rg)) (data_matrix Examples.grid_sample)
        =m read (g_arrays sg) (data_matrix Examples.grid_sample)).
Proof.
  intros sb sg rb rg. split; [vm_compute; reflexivity|]. split.
  { intros H. apply npFacts.meq_meqb in H. vm_compute in H. discriminate H. }
  split; [vm_compute; reflexivity|]. split; [vm_compute; reflexivity|].
  intros H. apply npFacts.meq_meqb in H. vm_compute in H. discriminate H.
Qed.

(** C9.  An [FPCAGrid] without weights whose [fit] gets past its tests
    stores as [weights] an array with one entry per sample point; the
    entry of a point is half the width of the interval on its left plus
    half the width of the interval on its right, where a boundary point
    has only one of the two. *)
Theorem default_weights_are_trapezoidal `{LA : LinAlg}
    (X : FDataGrid) (s : grid_state) (axis : list Q) (axes : list (list Q)) :
  weights (g_self s) = WNone ->
  sample_points X = axis :: axes ->
  (2 <= length axis)%nat ->
  (g_n_components (g_self s) <= Z.of_nat (nrows (values s X)))%Z ->
  (g_n_components (g_self s) <= Z.of_nat (ncols (values s X)))%Z ->
  two_axes (values s X) = true ->
  exists w,
    weights (g_self (snd (FPCAGrid_fit X s))) = WArray w
    /\ length w = length axis
    /\ forall k, (k < length axis)%nat -> nth k w 0 == trapezoidal axis k.
Proof.
  intros Hw Hpts Hlen H1 H2 Hshape.
  exists (built_weights axis). split.
  - apply (grid_fit_default_weights X s axis axes); assumption.
  - apply built_weights_trapezoidal, Hlen.
Qed.

(** Four curves observed at the points 0, 2 and 3: the weights are 1,
    3/2 and 1/2. *)
Lemma default_weights_witness :
  exists w,
    weights (g_self (snd (@FPCAGrid_fit Exact.linalg Examples.longer_grid_sample
                            (mk_grid_state Examples.fpca_grid Examples.grid_heap))))
    = WArray w
    /\ length w = 3%nat
    /\ forall k, (k < 3)%nat -> nth k w 0 == trapezoidal [0; 2; 3] k.
Proof.
  apply (@default_weights_are_trapezoidal Exact.linalg Examples.longer_grid_sample
           (mk_grid_state Examples.fpca_grid Examples.grid_heap) [0; 2; 3] []).
  - reflexivity.
  - reflexivity.
  - simpl. lia.
  - vm_compute. discriminate.
  - vm_compute. discriminate.
  - vm_compute. reflexivity.
Defined.

(** C10, where the code departs from it.  The first [fit] of an
    [FPCAGrid] without weights, on four curves observed at the points 0
    and 2, returns and has stored the array (1, 1).  Each later [fit], on
    the same curves or on curves observed at the three points 0, 2, 3,
    raises [ValueError] at the test [not self.weights] of line 405: the
    stored array is still there, and no component is computed. *)
Theorem second_fit_raises :
  let s0 := mk_grid_state Examples.fpca_grid Examples.grid_heap in
  let first := @FPCAGrid_fit Exact.linalg Examples.grid_sample s0 in
  let again := @FPCAGrid_fit Exact.linalg Examples.grid_sample (snd first) in
  let other := @FPCAGrid_fit Exact.linalg Examples.longer_grid_sample (snd first) in
  fst first = Ok tt
  /\ Examples.stored_weights (snd first) = Some [1; 1]
  /\ fst again = Raise ambiguous_truth_value
  /\ fst other = Raise ambiguous_truth_value
  /\ Examples.stored_weights (snd other) = Some [1; 1].
Proof.
  intros s0 first again other.
  repeat split; vm_compute; reflexivity.
Qed.

End FPCAFacts.

(* ===================================================================== *)
(** * Facts about the Fourier basis                                       *)
(* ===================================================================== *)

Module FourierFacts.

Import Fourier.
Import Reals.
Open Scope R_scope.

(** The number of basis functions the constructor stores. *)
Lemma Fourier_init_n_basis (d : option array_like) (n : Z) (T : option R) (b : Fourier) :
  Fourier_init d n T = Ok b -> n_basis b = (n + (1 - n mod 2))%Z.
Proof.
  unfold Fourier_init. destruct d as [d|]; simpl.
  - destruct (_list_of_arrays d) as [[|interval [|]]|]; simpl; try discriminate.
    intros [= <-]. reflexivity.
  - intros [= <-]. reflexivity.
Qed.

(** It is odd, whatever was asked for. *)
Lemma Fourier_init_odd (d : option array_like) (n : Z) (T : option R) (b : Fourier) :
  Fourier_init d n T = Ok b -> Z.odd (n_basis b) = true.
Proof.
  intros H. rewrite (Fourier_init_n_basis _ _ _ _ H).
  rewrite Zmod_even. destruct (Z.even n) eqn:He.
  - rewrite Z.add_comm, Z.sub_0_r, Z.odd_add. simpl.
    rewrite <- Z.negb_even, He. reflexivity.
  - rewrite Z.sub_diag, Z.add_0_r, <- Z.negb_even, He. reflexivity.
Qed.

(** The first row of [_evaluate] is the row [constant_basis]. *)
Lemma first_row (b : Fourier) (pts : list R) :
  nth 0 (_evaluate b pts) []
  = repeat (1 / (sqrt 2 * sqrt (period b / 2))) (length pts).
Proof. reflexivity. Qed.

(** C8.  A Fourier basis built with an even [n_basis] holds [n_basis + 1]
    functions, an odd number (4 becomes 5); and at every evaluation point
    the function of index 0 of a Fourier basis is the constant 1/sqrt(2)
    divided by the normalization constant sqrt(T/2), T the period. *)
Theorem even_n_basis_and_constant_function
    (d : option array_like) (n : Z) (T : option R) (built b : Fourier)
    (eval_points : list R) (j : nat) :
  Z.even n = true ->
  Fourier_init d n T = Ok built ->
  (j < length eval_points)%nat ->
  n_basis built = (n + 1)%Z
  /\ Z.odd (n_basis built) = true
  /\ nth j (nth 0 (_evaluate b eval_points) []) 0
     = (1 / sqrt 2) / sqrt (period b / 2).
Proof.
  intros Heven Hinit Hj. split; [|split].
  - rewrite (Fourier_init_n_basis _ _ _ _ Hinit), Zmod_even, Heven. reflexivity.
  - exact (Fourier_init_odd _ _ _ _ Hinit).
  - rewrite first_row.
    rewrite (nth_indep _ 0 (1 / (sqrt 2 * sqrt (period b / 2))))
      by (rewrite repeat_length; exact Hj).
    rewrite nth_repeat. unfold Rdiv. rewrite Rinv_mult. ring.
Qed.

(** [Fourier((0, 1), n_basis=4)] has five functions, and its function of
    index 0 at the point 1/4 is (1/sqrt 2) / sqrt(1/2), the period being
    1 - 0. *)
Lemma even_n_basis_witness :
  n_basis (mk_Fourier (Some [0; 1]) 5 None) = 5%Z
  /\ Z.odd (n_basis (mk_Fourier (Some [0; 1]) 5 None)) = true
  /\ nth 0 (nth 0 (_evaluate (mk_Fourier (Some [0; 1]) 5 None) [1 / 4]) []) 0
     = (1 / sqrt 2) / sqrt (period (mk_Fourier (Some [0; 1]) 5 None) / 2).
Proof.
  exact (even_n_basis_and_constant_function
           (Some (Flat [0; 1])) 4 None
           (mk_Fourier (Some [0; 1]) 5 None) (mk_Fourier (Some [0; 1]) 5 None)
           [1 / 4] 0%nat eq_refl eq_refl (Nat.lt_0_succ 0)).
Defined.

End FourierFacts.

(* ===================================================================== *)
(** * Matrix algebra                                                     *)
(* ===================================================================== *)

Module Algebra.
Open Scope Q_scope.
Import npFacts.

Lemma qsum_plus (n : nat) (f g : nat -> Q) :
  qsum n (fun k => f k + g k) == qsum n f + qsum n g.
Proof.
  induction n as [|n IH]; simpl.
  - ring.
  - rewrite IH. ring.
Qed.

Lemma qsum_scale_l (n : nat) (c : Q) (f : nat -> Q) :
  qsum n (fun k => c * f k) == c * qsum n f.
Proof.
  induction n as [|n IH]; simpl.
  - ring.
  - rewrite IH. ring.
Qed.

Lemma qsum_scale_r (n : nat) (c : Q) (f : nat -> Q) :
  qsum n (fun k => f k * c) == qsum n f * c.
Proof.
  induction n as [|n IH]; simpl.
  - ring.
  - rewrite IH. ring.
Qed.

Lemma qsum_zero (n : nat) (f : nat -> Q) :
  (forall k, (k < n)%nat -> f k == 0) -> qsum n f == 0.
Proof.
  induction n as [|n IH]; intros H; simpl.
  - reflexivity.
  - rewrite IH by (intros; apply H; lia). rewrite (H n) by lia. ring.
Qed.

(** Sums over two indices in either order. *)
Lemma qsum_swap (n m : nat) (f : nat -> nat -> Q) :
  qsum n (fun k => qsum m (fun l => f k l))
  == qsum m (fun l => qsum n (fun k => f k l)).
Proof.
  induction n as [|n IH]; simpl.
  - symmetry. apply qsum_zero. intros; reflexivity.
  - rewrite IH. rewrite <- qsum_plus. reflexivity.
Qed.

(** A sum over [n + m] indices in two parts. *)
Lemma qsum_app (n m : nat) (f : nat -> Q) :
  qsum (n + m) f == qsum n f + qsum m (fun k => f (n + k)%nat).
Proof.
  induction m as [|m IH]; simpl.
  - rewrite Nat.add_0_r. ring.
  - rewrite Nat.add_succ_r. simpl. rewrite IH. ring.
Qed.

(** A sum read from its last term to its first. *)
Lemma qsum_rev (n : nat) (f : nat -> Q) :
  qsum n (fun k => f (n - 1 - k)%nat) == qsum n f.
Proof.
  induction n as [|n IH].
  - reflexivity.
  - change (S n) with (1 + n)%nat at 1. rewrite qsum_app. simpl.
    rewrite !Nat.sub_0_r.
    rewrite (qsum_ext n _ (fun k => f (n - 1 - k)%nat)).
    + rewrite IH. ring.
    + intros k Hk. replace (n - S k)%nat with (n - 1 - k)%nat by lia. reflexivity.
Qed.

Lemma matmul_assoc (A B C : matrix) : (A @@ B) @@ C =m A @@ (B @@ C).
Proof.
  repeat split. simpl. intros i j _ _.
  transitivity (qsum (ncols B) (fun k => qsum (ncols A)
                  (fun l => entry A i l * entry B l k * entry C k j))).
  { apply qsum_ext. intros k _. symmetry. apply qsum_scale_r. }
  rewrite qsum_swap. apply qsum_ext. intros l _.
  rewrite <- qsum_scale_l. apply qsum_ext. intros k _. ring.
Qed.

Lemma matmul_meq_l (A A' B : matrix) : A =m A' -> A @@ B =m A' @@ B.
Proof.
  intros (Hr & Hc & He). repeat split; simpl; try assumption.
  intros i j Hi _. rewrite <- Hc. apply qsum_ext. intros k Hk.
  rewrite He by assumption. reflexivity.
Qed.

Lemma matmul_meq_r (A B B' : matrix) :
  ncols A = nrows B -> B =m B' -> A @@ B =m A @@ B'.
Proof.
  intros Hconf (Hr & Hc & He). repeat split; simpl; try assumption.
  intros i j _ Hj. apply qsum_ext. intros k Hk.
  rewrite He by lia. reflexivity.
Qed.

Lemma matmul_identity_l (A : matrix) (n : nat) :
  n = nrows A -> identity n @@ A =m A.
Proof.
  intros ->. repeat split. simpl. intros i j Hi _.
  induction (nrows A) as [|n IH] in i, Hi |- *; [lia|].
  simpl. destruct (Nat.eq_dec i n) as [->|Hne].
  - rewrite Nat.eqb_refl. rewrite qsum_zero.
    + ring.
    + intros k Hk. destruct (Nat.eqb_spec n k); [lia|]. ring.
  - destruct (Nat.eqb_spec i n); [lia|]. rewrite IH by lia. ring.
Qed.

End Algebra.

(* ===================================================================== *)
(** * The tested factorizations keep their contracts                     *)
(* ===================================================================== *)

Module CheckedFacts.

Open Scope Q_scope.
Import LeastSquares.

#[export] Instance checked_linalg_laws : LinAlgLaws Checked.linalg.
Proof.
  split.
  - intros A B X. apply ExactFacts.solve_with_sound.
  - intros A B X. simpl. unfold Exact.cho_solve.
    apply (ExactFacts.solve_with_sound true (lower_mirror A)).
Qed.

#[export] Instance checked_factorization_laws : FactorizationLaws Checked.linalg.
Proof.
  split; simpl.
  - intros A Qm Rm. unfold Checked.qr.
    destruct (Exact.qr A) as [[Q0 R0]|]; [|discriminate].
    destruct (_ && _) eqn:Hc; [|discriminate].
    intros [= <- <-].
    apply andb_prop in Hc as [Hc H3]. apply andb_prop in Hc as [H1 H2].
    apply Nat.eqb_eq in H1.
    split; [exact H1|]. split; now apply npFacts.meqb_meq.
  - intros W U. unfold Checked.cholesky_upper.
    destruct (Exact.cholesky_upper W) as [U0|]; [|discriminate].
    destruct (meqb _ W) eqn:Hc; [|discriminate].
    intros [= <-]. now apply npFacts.meqb_meq.
  - intros A w v. unfold Checked.eigh.
    destruct (Exact.eigh A) as [[w0 v0]|]; [|discriminate].
    destruct (_ && _) eqn:Hc; [|discriminate].
    intros [= <- <-].
    apply andb_prop in Hc as [Hc H3]. apply andb_prop in Hc as [H1 H2].
    apply Nat.eqb_eq in H1, H2.
    split; [exact H1|]. split; [exact H2|]. now apply npFacts.meqb_meq.
  - intros x r. unfold Checked.sqrt.
    destruct (Exact.sqrt x) as [r0|]; [|discriminate].
    destruct (Qeq_bool _ x) eqn:Hc; [|discriminate].
    intros [= <-]. now apply Qeq_bool_iff.
Qed.

End CheckedFacts.

(* ===================================================================== *)
(** * The solvers solve the normal equations                             *)
(* ===================================================================== *)

Module SolverFacts.

Open Scope Q_scope.
Open Scope py_scope.
Import Smoothing LeastSquares npFacts Algebra.

(** The triangular system of line 90 gives the normal equations of the
    factorized matrix: from [B = Q R] with orthonormal columns in [Q] and
    [R X = Q' D] follows [B' B X = B' D]. *)
Lemma qr_normal_equations (B Qm Rm X D : matrix) :
  ncols Qm = nrows Rm ->
  Qm @@ Rm =m B ->
  transpose Qm @@ Qm =m identity (nrows Rm) ->
  nrows X = ncols Rm ->
  Rm @@ X =m transpose Qm @@ D ->
  transpose B @@ B @@ X =m transpose B @@ D.
Proof.
  intros Hk HB HQ HX HRX.
  assert (HBt : transpose B =m transpose Rm @@ transpose Qm).
  { eapply meq_trans; [apply transpose_meq, meq_sym, HB|].
    now apply transpose_matmul. }
  assert (HBX : B @@ X =m Qm @@ (transpose Qm @@ D)).
  { eapply meq_trans; [apply matmul_meq_l, meq_sym, HB|].
    eapply meq_trans; [apply matmul_assoc|].
    apply matmul_meq_r; [exact Hk | exact HRX]. }
  eapply meq_trans; [apply matmul_assoc|].
  eapply meq_trans.
  { apply matmul_meq_r; [|exact HBX].
    destruct HB as (Hr & _). simpl in *. congruence. }
  eapply meq_trans; [apply matmul_meq_l, HBt|].
  eapply meq_trans; [apply matmul_assoc|].
  eapply meq_trans; [|apply matmul_meq_l, meq_sym, HBt].
  eapply meq_trans; [|apply meq_sym, matmul_assoc].
  apply matmul_meq_r; [simpl; congruence|].
  eapply meq_trans; [apply meq_sym, matmul_assoc|].
  eapply meq_trans; [apply matmul_meq_l, HQ|].
  apply matmul_identity_l. simpl. congruence.
Qed.


(** A sum against a row of a diagonal matrix keeps one term. *)
Lemma qsum_diag (n k : nat) (f : nat -> Q) (d : list Q) :
  (k < n)%nat ->
  qsum n (fun l => f l * (if Nat.eqb l k then nth l d 0 else 0)) == f k * nth k d 0.
Proof.
  intros Hk. induction n as [|n IH]; [lia|]. simpl.
  destruct (Nat.eq_dec k n) as [->|Hne].
  - rewrite Nat.eqb_refl. rewrite qsum_zero.
    + ring.
    + intros l Hl. destruct (Nat.eqb_spec l n); [lia|]. ring.
  - destruct (Nat.eqb_spec n k); [lia|]. rewrite IH by lia. ring.
Qed.

Lemma comprehension_nth {A C : Type} (f : A -> result C) (l : list A) (l' : list C) :
  comprehension f l = Ok l' ->
  length l' = length l
  /\ forall k d d', (k < length l)%nat -> f (nth k l d) = Ok (nth k l' d').
Proof.
  revert l'. induction l as [|x l IH]; intros l' H; simpl in H.
  - injection H as <-. split; [reflexivity|]. simpl. intros; lia.
  - destruct (f x) as [y|e] eqn:Hx; simpl in H; [|discriminate].
    destruct (comprehension f l) as [ys|e] eqn:Hl; simpl in H; [|discriminate].
    injection H as <-. destruct (IH ys eq_refl) as [Hlen Hnth].
    split; [simpl; congruence|].
    intros [|k] d d' Hk; simpl; [exact Hx|]. apply Hnth. simpl in Hk. lia.
Qed.

(** Lines 63-68: the matrix [S = v[:, ::-1] @ diag(sqrt(w[::-1]))] is a
    square root of [v @ diag(w) @ v.T] when no eigenvalue is negative. *)
Lemma penalty_root `{LA : LinAlg} `{!FactorizationLaws LA}
    (w sw : list Q) (v : matrix) :
  ncols v = length w ->
  Forall (fun x => 0 <= x) w ->
  sqrt_vector (map (fun x => maximum x 0) (rev w)) = Ok sw ->
  let root := reverse_columns v @@ diag sw in
  root @@ transpose root =m v @@ diag w @@ transpose v.
Proof.
  intros Hv Hpos Hsw root.
  apply comprehension_nth in Hsw as [Hlen Hnth].
  rewrite length_map, length_rev in Hlen.
  repeat split. simpl. intros i j _ _.
  rewrite Hlen. rewrite <- (qsum_rev (length w) (fun k => _ * entry v j k)).
  apply qsum_ext. intros k Hk. simpl.
  rewrite !(qsum_diag (ncols v) k) by lia.
  rewrite (qsum_diag (ncols v) (length w - 1 - k)) by lia.
  assert (Hroot : nth k sw 0 * nth k sw 0 == nth (length w - 1 - k) w 0).
  { specialize (Hnth k 0 0). rewrite length_map, length_rev in Hnth.
    specialize (Hnth Hk).
    destruct (np_sqrt _) as [r|] eqn:Hr; simpl in Hnth; [|discriminate].
    injection Hnth as <-. apply np_sqrt_sound in Hr. rewrite Hr.
    rewrite (map_nth (fun x => maximum x 0) (rev w) 0 k : nth k (map _ (rev w)) 0 = _).
    rewrite rev_nth by lia.
    replace (length w - S k)%nat with (length w - 1 - k)%nat by lia.
    rewrite List.Forall_forall in Hpos.
    assert (H0 : 0 <= nth (length w - 1 - k) w 0) by (apply Hpos, nth_In; lia).
    unfold maximum. destruct (Qle_bool _ 0) eqn:Hle; [|reflexivity].
    apply Qle_bool_iff in Hle. apply Qle_antisym; assumption. }
  rewrite Hv. rewrite <- Hroot. ring.
Qed.

(** The Gram matrix of an array extended by rows (lines 71-74). *)
Lemma gram_vstack (A T : matrix) :
  transpose (vstack A T) @@ vstack A T
  =m add (transpose A @@ A) (transpose T @@ T).
Proof.
  repeat split. simpl. intros i j _ _.
  rewrite qsum_app. apply Qplus_comp.
  - apply qsum_ext. intros k Hk.
    destruct (Nat.ltb_spec k (nrows A)); [reflexivity|lia].
  - apply qsum_ext. intros k Hk.
    destruct (Nat.ltb_spec (nrows A + k) (nrows A)); [lia|].
    replace (nrows A + k - nrows A)%nat with k by lia. reflexivity.
Qed.

(** The rows of zeros under the data add nothing (lines 76-79). *)
Lemma pad_product (A T D : matrix) (n : nat) :
  nrows D = nrows A ->
  transpose (vstack A T) @@ pad_rows D n =m transpose A @@ D.
Proof.
  intros HD. repeat split. simpl. intros i j _ _.
  rewrite qsum_app. rewrite (qsum_zero (nrows T)).
  - rewrite Qplus_0_r. apply qsum_ext. intros k Hk.
    destruct (Nat.ltb_spec k (nrows A)); [|lia].
    destruct (Nat.ltb_spec k (nrows D)); [reflexivity|lia].
  - intros k Hk.
    destruct (Nat.ltb_spec (nrows A + k) (nrows D)); [lia|]. ring.
Qed.

(** Lines 56-58: with [W = U' U], the products of the rescaled arrays
    are the weighted products. *)
Lemma weighted_gram (U W B D : matrix) :
  transpose U @@ U =m W ->
  ncols U = nrows B ->
  transpose (U @@ B) @@ (U @@ D) =m transpose B @@ (W @@ D).
Proof.
  intros HU Hconf.
  eapply meq_trans; [apply matmul_meq_l, transpose_matmul, Hconf|].
  eapply meq_trans; [apply matmul_assoc|].
  apply matmul_meq_r; [simpl; lia|].
  eapply meq_trans; [apply meq_sym, matmul_assoc|].
  apply matmul_meq_l, HU.
Qed.

Lemma add_meq_l (A A' B : matrix) : A =m A' -> add A B =m add A' B.
Proof.
  intros (Hr & Hc & He). repeat split; simpl; try assumption.
  intros i j Hi Hj. rewrite He by lia. reflexivity.
Qed.

Lemma add_meq_r (A B B' : matrix) :
  nrows B = nrows A -> ncols B = ncols A -> B =m B' -> add A B =m add A B'.
Proof.
  intros Hbr Hbc (_ & _ & He'). repeat split; simpl.
  intros i j Hi Hj. rewrite He' by lia. reflexivity.
Qed.

Lemma plus_penalty_meq (M M' : matrix) (P : penalty) :
  M =m M' -> plus_penalty M P =m plus_penalty M' P.
Proof.
  intros H. destruct P as [|c|R]; simpl.
  - exact H.
  - destruct H as (Hr & Hc & He). repeat split; simpl; try assumption.
    intros i j Hi Hj. rewrite He by lia. reflexivity.
  - now apply add_meq_l.
Qed.

(** A penalty that is zero everywhere changes nothing. *)
Lemma plus_penalty_zero (M : matrix) (P : penalty) :
  penalty_all_zero P = true ->
  (forall R, P = PenaltyMatrix R -> nrows R = nrows M /\ ncols R = ncols M) ->
  plus_penalty M P =m M.
Proof.
  intros Hz Hshape. destruct P as [|c|R]; simpl in *.
  - discriminate.
  - apply Qeq_bool_iff in Hz. repeat split. simpl. intros i j _ _.
    rewrite Hz. ring.
  - destruct (Hshape R eq_refl) as [Hr Hc].
    repeat split. simpl. intros i j Hi Hj.
    unfold all_zero in Hz. rewrite forallb_forall in Hz.
    assert (Hrow := Hz i ltac:(apply in_seq; lia)).
    rewrite forallb_forall in Hrow.
    assert (H0 := Hrow j ltac:(apply in_seq; lia)).
    apply Qeq_bool_iff in H0. rewrite H0. ring.
Qed.

Section QR.

Context `{LA : LinAlg}.

(** [_QR] without weights. *)
Lemma QR_unweighted `{!LinAlgLaws LA} `{!FactorizationLaws LA} (Phi Y : matrix) (P : penalty) (C : matrix) :
  nrows Y = nrows Phi ->
  (forall R, P = PenaltyMatrix R ->
     nrows R = ncols Phi /\ ncols R = ncols Phi /\ positive_semidefinite R) ->
  _QR Phi None Y P = Ok C ->
  plus_penalty (transpose Phi @@ Phi) P @@ transpose C =m transpose Phi @@ Y.
Proof.
  intros HY HP. unfold _QR. cbn [bind].
  destruct (penalty_all_zero P) eqn:Hz; cbn [negb bind fst snd].
  - destruct (linalg_qr Phi) as [[Qm Rm]|] eqn:Hqr; cbn [lapack bind fst snd];
      [|discriminate].
    destruct (linalg_solve Rm _) as [X|] eqn:Hsolve; cbn [lapack bind];
      [|discriminate].
    intros [= <-].
    apply linalg_qr_sound in Hqr as (Hk & HB & HQ).
    apply linalg_solve_sound in Hsolve as (HX & HRX).
    eapply meq_trans.
    { apply matmul_meq_l, plus_penalty_zero; [exact Hz|].
      intros R ->. destruct (HP R eq_refl) as (? & ? & _). simpl. lia. }
    eapply meq_trans.
    { apply matmul_meq_r; [|apply transpose_involutive].
      destruct HB as (_ & Hc & _). simpl in *. lia. }
    now apply (qr_normal_equations Phi Qm Rm X Y).
  - destruct P as [|c|R]; cbn [bind]; try discriminate.
    destruct (HP R eq_refl) as (HRr & HRc & Hpsd).
    destruct (linalg_eigh R) as [[w v]|] eqn:Heig; cbn [lapack bind fst snd];
      [|discriminate].
    destruct (sqrt_vector _) as [sw|] eqn:Hsw; cbn [bind fst snd]; [|discriminate].
    set (root := reverse_columns v @@ diag sw).
    set (Phi2 := vstack Phi (transpose root)).
    set (Y2 := pad_rows Y (nrows v)).
    destruct (linalg_qr Phi2) as [[Qm Rm]|] eqn:Hqr; cbn [lapack bind fst snd];
      [|discriminate].
    destruct (linalg_solve Rm _) as [X|] eqn:Hsolve; cbn [lapack bind];
      [|discriminate].
    intros [= <-].
    specialize (Hpsd w v Heig).
    apply linalg_eigh_sound in Heig as (Hsq & Hw & HR).
    apply linalg_qr_sound in Hqr as (Hk & HB & HQ).
    apply linalg_solve_sound in Hsolve as (HX & HRX).
    assert (Hne := qr_normal_equations Phi2 Qm Rm X Y2 Hk HB HQ HX HRX).
    assert (Hgram : transpose Phi2 @@ Phi2 =m add (transpose Phi @@ Phi) R).
    { eapply meq_trans; [apply gram_vstack|].
      apply add_meq_r.
      - simpl. destruct HR as (Hr & _). simpl in Hr. lia.
      - simpl. destruct HR as (Hr & _). simpl in Hr. lia.
      - eapply meq_trans; [apply matmul_meq_l, transpose_involutive|].
        eapply meq_trans; [|exact HR].
        now apply penalty_root. }
    eapply meq_trans.
    { apply matmul_meq_r; [|apply transpose_involutive].
      destruct HB as (_ & Hc & _). simpl in *. lia. }
    eapply meq_trans; [apply matmul_meq_l, meq_sym, Hgram|].
    eapply meq_trans; [exact Hne|].
    now apply pad_product.
Qed.

(** X1.  [_QR.__call__] solves the weighted, penalized least-squares
    problem of the class docstring: when it returns, its coefficients [C]
    satisfy (Phi' W Phi + P) C' = Phi' W Y, for data with one row per
    point, weights that fit the points and a penalty matrix of the size
    of the basis that has no negative eigenvalue. *)
Theorem QR_solves_the_normal_equations `{!LinAlgLaws LA} `{!FactorizationLaws LA}
    (Phi : matrix) (W : option matrix) (Y : matrix) (P : penalty) (C : matrix) :
  nrows Y = nrows Phi ->
  (forall W0, W = Some W0 -> ncols W0 = nrows Phi) ->
  (forall R, P = PenaltyMatrix R ->
     nrows R = ncols Phi /\ ncols R = ncols Phi /\ positive_semidefinite R) ->
  _QR Phi W Y P = Ok C ->
  normal_equations Phi W P Y C.
Proof.
  intros HY HW HP. destruct W as [W0|]; [|now apply QR_unweighted].
  unfold normal_equations, weighted.
  destruct (scipy_cholesky W0) as [U|] eqn:HU.
  2:{ unfold _QR. rewrite HU. discriminate. }
  intros H.
  assert (Hrest : _QR (U @@ Phi) None (U @@ Y) P = Ok C).
  { unfold _QR in H |- *. rewrite HU in H. exact H. }
  apply scipy_cholesky_sound in HU.
  assert (HUc : ncols U = nrows Phi).
  { rewrite <- (HW W0 eq_refl). destruct HU as (_ & Hc & _). exact Hc. }
  apply QR_unweighted in Hrest; [|reflexivity|exact HP].
  eapply meq_trans; [|apply (weighted_gram U W0 Phi Y HU HUc)].
  eapply meq_trans; [|exact Hrest].
  apply matmul_meq_l, plus_penalty_meq, meq_sym.
  now apply weighted_gram.
Qed.

End QR.

Lemma read_view_T (h : gmap nat matrix) (a : ndarray) :
  read h (view_T a) =m transpose (read h a).
Proof.
  unfold read, view_T. simpl. destruct (transposed a); simpl.
  - apply meq_sym, transpose_involutive.
  - apply meq_refl.
Qed.

(** A symmetric matrix is the one read in its lower triangle. *)
Lemma lower_mirror_symmetric (A : matrix) :
  transpose A =m A -> lower_mirror A =m A.
Proof.
  intros (Hr & Hc & He). cbn [transpose nrows ncols entry] in Hr, Hc, He.
  repeat split. intros i j Hi Hj. cbn [lower_mirror nrows ncols entry] in *.
  destruct (Nat.leb j i); [reflexivity|]. apply He; lia.
Qed.

(** The Gram matrix [Phi' Phi] is symmetric. *)
Lemma gram_symmetric (Phi PhiT : matrix) :
  PhiT =m transpose Phi -> transpose (PhiT @@ Phi) =m PhiT @@ Phi.
Proof.
  intros (Hr & Hc & He). cbn [transpose nrows ncols entry] in Hr, Hc, He.
  repeat split; cbn [transpose matmul nrows ncols entry]; try congruence.
  intros i j Hi Hj. apply qsum_ext. intros k Hk.
  rewrite !He by lia. apply Qmult_comm.
Qed.

(** A symmetric penalty of the size of the matrix keeps it symmetric. *)
Lemma plus_penalty_symmetric (M : matrix) (P : penalty) :
  transpose M =m M ->
  (forall R, P = PenaltyMatrix R ->
     nrows R = nrows M /\ ncols R = ncols M /\ transpose R =m R) ->
  transpose (plus_penalty M P) =m plus_penalty M P.
Proof.
  intros (Hr & Hc & He) HP. cbn [transpose nrows ncols entry] in Hr, Hc, He.
  destruct P as [|c|R]; cbn [plus_penalty].
  - repeat split; assumption.
  - repeat split; cbn [transpose add_scalar nrows ncols entry]; try assumption.
    intros i j Hi Hj. now rewrite He.
  - destruct (HP R eq_refl) as (HRr & HRc & (_ & _ & HRe)).
    cbn [transpose nrows ncols entry] in HRe.
    repeat split; cbn [transpose add nrows ncols entry]; try assumption.
    intros i j Hi Hj. rewrite He by assumption.
    rewrite HRe by lia. reflexivity.
Qed.

Section Cholesky.

Context `{NP : NumPy} `{LA : LinAlg}.

(** X2.  Without weights and with a symmetric penalty matrix of the size
    of the basis, [_Cholesky.__call__] solves the penalized least-squares
    problem: when it returns, its coefficients [C] satisfy
    (Phi' Phi + P) C' = Phi' Y, where [Phi] is the array behind
    [basis_values] and [Y] has one row per point.  ([cho_factor] reads
    the lower triangle only: the penalty must be symmetric.) *)
Theorem Cholesky_solves_the_normal_equations `{!LinAlgLaws LA}
    (h : gmap nat matrix) (basis_values : ndarray) (Y : matrix) (P : penalty)
    (C : matrix) :
  nrows Y = nrows (read h basis_values) ->
  (forall R, P = PenaltyMatrix R ->
     nrows R = ncols (read h basis_values)
     /\ ncols R = ncols (read h basis_values)
     /\ transpose R =m R) ->
  _Cholesky h basis_values None Y P = Ok C ->
  normal_equations (read h basis_values) None P Y C.
Proof.
  intros _ HP.
  unfold _Cholesky, normal_equations, weighted. cbn [bind].
  set (Phi := read h basis_values) in *.
  set (PhiT := read h (view_T basis_values)).
  assert (HT : PhiT =m transpose Phi) by apply read_view_T.
  assert (Hsym : lower_mirror (plus_penalty (PhiT @@ Phi) P)
                 =m plus_penalty (PhiT @@ Phi) P).
  { apply lower_mirror_symmetric, plus_penalty_symmetric.
    - now apply gram_symmetric.
    - intros R HR. destruct (HP R HR) as (HRr & HRc & HRs).
      destruct HT as (HTr & _ & _). cbn [transpose matmul nrows ncols] in *.
      repeat split; try congruence; apply HRs. }
  assert (Hkey :
    (coefficients <- lapack (cho_solve_cho_factor
                               (plus_penalty (PhiT @@ Phi) P) (PhiT @@ Y)) ;;
     Ok (transpose coefficients)) = Ok C ->
    plus_penalty (transpose Phi @@ Phi) P @@ transpose C =m transpose Phi @@ Y).
  { destruct (cho_solve_cho_factor _ _) as [X|] eqn:HX; cbn [lapack bind];
      [|discriminate].
    intros [= <-]. apply cho_solve_sound in HX as (Hconf & HX).
    eapply meq_trans.
    { apply matmul_meq_r; [|apply transpose_involutive].
      simpl. rewrite Hconf. destruct P; reflexivity. }
    eapply meq_trans; [|apply matmul_meq_l, HT].
    eapply meq_trans; [|exact HX].
    eapply meq_trans; [|apply matmul_meq_l, meq_sym, Hsym].
    apply matmul_meq_l, plus_penalty_meq, matmul_meq_l, meq_sym, HT. }
  destruct P; exact Hkey.
Qed.

End Cholesky.

End SolverFacts.

Module MatrixFacts.

Open Scope Q_scope.
Open Scope py_scope.
Import Smoothing LeastSquares npFacts Algebra SolverFacts SolverExamples.

Section Matrix.

Context `{NP : NumPy} `{LA : LinAlg}.

Lemma coef_matrix_sound `{!LinAlgLaws LA}
    (self : BasisSmoother) (ip : list (list Q)) (values M : matrix) :
  evaluate_basis self ip = Ok values ->
  _coef_matrix self ip = Ok M ->
  nrows M = nrows values /\
  plus_penalty (values @@ weighted (weights self) (transpose values))
               (compute_penalty_matrix (basis self) (smoothing_parameter self)
                                       (regularization self)) @@ M
  =m match weights self with
     | Some W0 => values @@ W0
     | None => values
     end.
Proof.
  intros Hvalues. unfold _coef_matrix. rewrite Hvalues. cbn [bind].
  set (P := compute_penalty_matrix _ _ _).
  unfold alloc, imatmul, write, read, view_T. cbn [fst snd base transposed negb].
  rewrite !lookup_insert_eq. cbn [default from_option]. unfold id.
  assert (Hpen : forall ols ols',
    iadd_penalty ols P = Ok ols' -> ols' = plus_penalty ols P).
  { intros ols ols'. destruct P; simpl; congruence. }
  destruct (iadd_penalty _ P) as [ols|] eqn:Hols; cbn [bind]; [|discriminate].
  apply Hpen in Hols. subst ols.
  destruct (weights self) as [W0|]; cbn [weighted].
  - destruct numpy_ge_1_25; cbn [bind]; [|discriminate].
    rewrite lookup_insert_eq. cbn [default from_option]. unfold id.
    destruct (linalg_solve _ _) as [X|] eqn:HX; cbn [lapack]; [|discriminate].
    intros [= <-]. apply linalg_solve_sound in HX as (Hn & HX).
    split; [rewrite Hn; destruct P; reflexivity|].
    eapply meq_trans; [|exact HX].
    apply matmul_meq_l, plus_penalty_meq, meq_sym, matmul_assoc.
  - cbn [bind]. rewrite lookup_insert_eq. cbn [default from_option]. unfold id.
    destruct (linalg_solve _ _) as [X|] eqn:HX; cbn [lapack]; [|discriminate].
    intros [= <-]. apply linalg_solve_sound in HX as (Hn & HX).
    split; [rewrite Hn; destruct P; reflexivity|exact HX].
Qed.

(** X3.  With the solver [_Matrix] and [return_basis=True], the
    coefficients that [transform] returns after [fit] solve the weighted,
    penalized least-squares problem for the points recorded by [fit]:
    (Phi' W Phi + P) C' = Phi' W Y, with [Phi] the basis at the points of
    the fitted sample and [Y] the data given to [transform]. *)
Theorem Matrix_solves_the_normal_equations `{!LinAlgLaws LA}
    (self fitted_self final : BasisSmoother) (X X' : FDataGrid)
    (values : matrix) (fb : FDataBasis) :
  _method_function self = Ok SolverMethod.matrix ->
  return_basis self = true ->
  evaluate_basis self (sample_points X) = Ok values ->
  ncols (data_matrix X') = ncols values ->
  (forall W0, weights self = Some W0 -> ncols W0 = ncols values) ->
  fit self X = Ok fitted_self ->
  transform fitted_self X' = Ok (final, InBasis fb) ->
  normal_equations (transpose values) (weights self)
    (compute_penalty_matrix (basis self) (smoothing_parameter self)
                            (regularization self))
    (transpose (data_matrix X')) (coefficients fb).
Proof.
  intros Hm Hrb Hvalues Hdata HW Hfit Htransform.
  unfold fit in Hfit.
  rewrite SmoothingFacts._method_function_set_points, Hm in Hfit.
  cbn [bind] in Hfit.
  change (getattr_or_None SolverMethod.matrix "fit") with (Some def_fit) in Hfit.
  unfold _Matrix_fit in Hfit. cbn [return_basis set_points] in Hfit.
  rewrite Hrb in Hfit. cbn [input_points_ set_points fitted bind] in Hfit.
  change (_coef_matrix (set_points self ?ip ?op) ?p)
    with (_coef_matrix self p) in Hfit.
  destruct (_coef_matrix self (sample_points X)) as [M|] eqn:HM;
    cbn [bind] in Hfit; [|discriminate].
  injection Hfit as <-.
  unfold transform, transform_body in Htransform.
  cbn [input_points_ set_cached_coef_matrix set_points fitted bind] in Htransform.
  destruct (same_points _ _) as [same|]; cbn [bind] in Htransform; [|discriminate].
  destruct same; cbn [negb] in Htransform; [|discriminate].
  change (_method_function (set_cached_coef_matrix (set_points self ?ip ?op) M))
    with (_method_function self) in Htransform.
  rewrite Hm in Htransform. cbn [bind] in Htransform.
  rewrite SmoothingFacts.matrix_has_transform in Htransform.
  unfold _Matrix_transform in Htransform.
  cbn [return_basis set_cached_coef_matrix set_points] in Htransform.
  rewrite Hrb in Htransform.
  cbn [_cached_coef_matrix fitted bind] in Htransform.
  injection Htransform as _ <-. cbn [coefficients].
  destruct (coef_matrix_sound self (sample_points X) values M Hvalues HM)
    as [HnrM Hsound].
  set (P := compute_penalty_matrix _ _ _) in *.
  unfold normal_equations.
  assert (HncM : ncols M = ncols values).
  { destruct Hsound as (_ & Hc & _). simpl in Hc. rewrite Hc.
    destruct (weights self) as [W0|] eqn:HW0; [|reflexivity].
    simpl. apply (HW W0 eq_refl). }
  assert (HC : transpose (data_matrix X' @@ transpose M)
               =m M @@ transpose (data_matrix X')).
  { eapply meq_trans; [apply transpose_matmul; simpl; lia|].
    apply matmul_meq_l, transpose_involutive. }
  assert (HPhi : transpose (transpose values) =m values)
    by apply transpose_involutive.
  eapply meq_trans.
  { apply matmul_meq_r; [|exact HC].
    simpl. rewrite HnrM. destruct P, (weights self); reflexivity. }
  eapply meq_trans; [apply meq_sym, matmul_assoc|].
  eapply meq_trans.
  { apply matmul_meq_l. eapply meq_trans; [|exact Hsound].
    apply matmul_meq_l, plus_penalty_meq, matmul_meq_l, HPhi. }
  destruct (weights self) as [W0|] eqn:HW0; cbn [weighted].
  - eapply meq_trans; [apply matmul_assoc|].
    apply matmul_meq_l, meq_sym, HPhi.
  - apply matmul_meq_l, meq_sym, HPhi.
Qed.

End Matrix.

Lemma QR_witness :
  exists C,
    @_QR Checked.linalg scaled_basis_values (Some four_weights) two_values
         (PenaltyMatrix diagonal_penalty) = Ok C
    /\ normal_equations scaled_basis_values (Some four_weights)
         (PenaltyMatrix diagonal_penalty) two_values C
    /\ to_rows C = [[3 # 5; 6 # 5]].
Proof.
  destruct (@_QR Checked.linalg scaled_basis_values (Some four_weights) two_values
              (PenaltyMatrix diagonal_penalty)) as [C|e] eqn:H.
  - exists C. split; [reflexivity|]. split.
    + apply (@QR_solves_the_normal_equations Checked.linalg
               CheckedFacts.checked_linalg_laws CheckedFacts.checked_factorization_laws
               scaled_basis_values (Some four_weights) two_values
               (PenaltyMatrix diagonal_penalty) C).
      * reflexivity.
      * intros W0 [= <-]. reflexivity.
      * intros R [= <-]. split; [reflexivity|]. split; [reflexivity|].
        intros w v Hw. vm_compute in Hw. injection Hw as <- _.
        repeat constructor; discriminate.
      * exact H.
    + vm_compute in H. injection H as <-. vm_compute. reflexivity.
  - vm_compute in H. discriminate H.
Defined.

Lemma Cholesky_witness :
  exists C,
    @_Cholesky Exact.numpy_new Exact.linalg monomial_values_heap
       (mk_ndarray 0 false) None (of_rows [[3]; [5]])
       (PenaltyMatrix (of_rows [[1; 1 # 2]; [1 # 2; 1 # 3]])) = Ok C
    /\ normal_equations (of_rows [[1; 0]; [1; 1]]) None
         (PenaltyMatrix (of_rows [[1; 1 # 2]; [1 # 2; 1 # 3]]))
         (of_rows [[3]; [5]]) C.
Proof.
  destruct (@_Cholesky Exact.numpy_new Exact.linalg monomial_values_heap
       (mk_ndarray 0 false) None (of_rows [[3]; [5]])
       (PenaltyMatrix (of_rows [[1; 1 # 2]; [1 # 2; 1 # 3]]))) as [C|e] eqn:H.
  - exists C. split; [reflexivity|].
    refine (@Cholesky_solves_the_normal_equations Exact.numpy_new Exact.linalg
              ExactFacts.linalg_laws monomial_values_heap (mk_ndarray 0 false)
              (of_rows [[3]; [5]])
              (PenaltyMatrix (of_rows [[1; 1 # 2]; [1 # 2; 1 # 3]])) C
              eq_refl _ H).
    intros R [= <-]. split; [reflexivity|]. split; [reflexivity|].
    apply npFacts.meqb_meq. vm_compute. reflexivity.
  - vm_compute in H. discriminate H.
Defined.

(** A penalty matrix that is not symmetric: [cho_factor] reads its lower
    triangle, and the coefficients 38/21, 12/7 that [_Cholesky] returns
    do not solve the normal equations. *)
Lemma Cholesky_reads_the_lower_triangle :
  let P := PenaltyMatrix (of_rows [[1; 1]; [1 # 2; 1 # 3]]) in
  exists C,
    @_Cholesky Exact.numpy_new Exact.linalg monomial_values_heap
       (mk_ndarray 0 false) None (of_rows [[3]; [5]]) P = Ok C
    /\ to_rows C = [[38 # 21; 12 # 7]]
    /\ ~ normal_equations (of_rows [[1; 0]; [1; 1]]) None P (of_rows [[3]; [5]]) C.
Proof.
  intros P.
  destruct (@_Cholesky Exact.numpy_new Exact.linalg monomial_values_heap
       (mk_ndarray 0 false) None (of_rows [[3]; [5]]) P) as [C|e] eqn:H.
  - exists C. split; [reflexivity|].
    vm_compute in H. injection H as <-. split; [vm_compute; reflexivity|].
    intros Hne. apply npFacts.meq_meqb in Hne. vm_compute in Hne. discriminate Hne.
  - vm_compute in H. discriminate H.
Qed.

Lemma Matrix_witness :
  exists fitted_self final fb,
    @fit Exact.numpy_new Exact.linalg Examples.matrix_basis_smoother
         Examples.two_point_sample = Ok fitted_self
    /\ @transform Exact.numpy_new Exact.linalg fitted_self Examples.two_curves
       = Ok (final, InBasis fb)
    /\ normal_equations (transpose (of_rows [[1; 1]])) None (PenaltyScalar 0)
         (transpose (of_rows [[3; 5]; [1; 1]])) (coefficients fb)
    /\ coefficients fb =m of_rows [[4]; [1]].
Proof.
  destruct (@fit Exact.numpy_new Exact.linalg Examples.matrix_basis_smoother
              Examples.two_point_sample) as [fitted_self|e] eqn:Hfit.
  2:{ vm_compute in Hfit. discriminate Hfit. }
  destruct (@transform Exact.numpy_new Exact.linalg fitted_self Examples.two_curves)
    as [[final [g|fb]]|e] eqn:Ht.
  - vm_compute in Hfit. injection Hfit as <-. vm_compute in Ht. discriminate Ht.
  - exists fitted_self, final, fb. split; [reflexivity|]. split; [exact Ht|].
    split.
    2:{ vm_compute in Hfit. injection Hfit as <-. vm_compute in Ht.
        injection Ht as _ <-. apply npFacts.meqb_meq. vm_compute. reflexivity. }
    exact (@Matrix_solves_the_normal_equations Exact.numpy_new Exact.linalg
             ExactFacts.linalg_laws Examples.matrix_basis_smoother fitted_self final
             Examples.two_point_sample Examples.two_curves
             (of_rows [[1; 1]]) fb eq_refl eq_refl eq_refl eq_refl
             ltac:(discriminate) Hfit Ht).
  - vm_compute in Hfit. injection Hfit as <-. vm_compute in Ht. discriminate Ht.
Defined.

End MatrixFacts.

(* ===================================================================== *)
(** * Facts about the estimator interface                                *)
(* ===================================================================== *)

Module EstimatorFacts.

Open Scope Q_scope.
Open Scope py_scope.
Import Smoothing Estimator.

Section Facts.

Context `{NP : NumPy} `{LA : LinAlg}.

Lemma no_fit_method (m : SolverMethod.t) :
  m <> SolverMethod.matrix ->
  getattr_or_None m "fit" = None
  /\ getattr_or_None m "transform" = None
  /\ getattr_or_None m "fit_transform" = None.
Proof. destruct m; intros H; try contradiction; repeat split. Qed.

(** X4.  For the solvers 'cholesky' and 'qr', [fit(X)] followed by
    [transform(X)] is [fit_transform(X)]: the same value or the same
    exception. *)
Theorem fit_then_transform_is_fit_transform
    (self : BasisSmoother) (X : FDataGrid) (m : SolverMethod.t) :
  _method_function self = Ok m ->
  m <> SolverMethod.matrix ->
  (fitted_self <- fit self X ;; transform fitted_self X) = fit_transform self X.
Proof.
  intros Hm Hne. destruct (no_fit_method m Hne) as (Hfit & Htr & _).
  unfold fit. rewrite SmoothingFacts._method_function_set_points, Hm.
  cbn [bind]. rewrite Hfit. cbn [bind].
  unfold transform, transform_body. cbn [input_points_ set_points fitted bind].
  rewrite SmoothingFacts.same_points_refl. cbn [bind negb].
  rewrite SmoothingFacts._method_function_set_points, Hm. cbn [bind].
  rewrite Htr. reflexivity.
Qed.

(** X5.  The assertion of [transform] does not report sample points of
    another length: when the first axis of the data and the one recorded
    have different lengths, neither of them 1, the comparison itself
    fails and [transform] raises its exception, a [ValueError] or a
    [TypeError] by release of NumPy, never [AssertionError]. *)
Theorem transform_with_another_number_of_points
    (self : BasisSmoother) (X : FDataGrid) (i s : list Q) (ip sp : list (list Q)) :
  input_points_ self = Some (i :: ip) ->
  sample_points X = s :: sp ->
  length i <> length s ->
  length i <> 1%nat ->
  length s <> 1%nat ->
  transform self X = Raise shape_mismatch.
Proof.
  intros Hip Hsp Hlen Hi Hs.
  unfold transform, transform_body. rewrite Hip, Hsp. cbn [fitted bind].
  unfold same_points. cbn [combine comprehension fst snd].
  unfold array_eq, shape_mismatch.
  destruct (Nat.eqb_spec (length i) (length s)); [contradiction|].
  destruct (Nat.eqb_spec (length i) 1); [contradiction|].
  destruct (Nat.eqb_spec (length s) 1); [contradiction|].
  destruct numpy_ge_1_25; reflexivity.
Qed.

Lemma finish_self (s s' : BasisSmoother) (c : matrix) (d : FData) :
  finish s c = Ok (s', d) -> s' = s.
Proof.
  unfold finish. destruct (return_basis s).
  - now intros [= <- _].
  - destruct (fitted _ _); cbn [bind]; [|discriminate].
    destruct (to_grid _ _); cbn [bind]; [|discriminate].
    now intros [= <- _].
Qed.

Lemma fit_keeps_parameters (self s' : BasisSmoother) (X : FDataGrid) :
  fit self X = Ok s' -> same_parameters self s' /\ records_points self X s'.
Proof.
  unfold fit.
  destruct (_method_function _) as [m|]; cbn [bind]; [|discriminate].
  destruct (getattr_or_None m "fit").
  - unfold _Matrix_fit. destruct (return_basis _).
    + destruct (fitted _ _); cbn [bind]; [|discriminate].
      destruct (_coef_matrix _ _); cbn [bind]; [|discriminate].
      intros [= <-]. repeat split.
    + destruct (hat_matrix _) as [[s1 H]|] eqn:Hhat; cbn [bind fst]; [|discriminate].
      intros [= <-]. unfold hat_matrix in Hhat.
      destruct (fitted _ _); cbn [bind] in Hhat; [|discriminate].
      destruct (fitted _ _); cbn [bind] in Hhat; [|discriminate].
      assert (Hcompute : forall pa pb,
        (H0 <- _hat_matrix
                 (set_points self (sample_points X)
                    match output_points self with
                    | Some op => op
                    | None => sample_points X
                    end) pa pb ;;
         Ok (set_cached_hat_matrix
               (set_points self (sample_points X)
                  match output_points self with
                  | Some op => op
                  | None => sample_points X
                  end) pa pb H0, H0)) = Ok (s1, H) ->
        same_parameters self s1 /\ records_points self X s1).
      { clear Hhat. intros pa pb. destruct (_hat_matrix _ _ _); cbn [bind]; [|discriminate].
        intros [= <- _]. repeat split. }
      destruct (_cached_hat_matrix _) as [[[cip cop] Hc]|].
      * destruct (_ && _); [|exact (Hcompute _ _ Hhat)].
        injection Hhat as <- _. repeat split.
      * exact (Hcompute _ _ Hhat).
  - intros [= <-]. repeat split.
Qed.

(** X6.  A call of [fit_transform] that returns leaves every parameter of
    the constructor as it was and has recorded the sample points of [X]
    as the input points, and [output_points] (the sample points of [X]
    where none are configured) as the output points. *)
Theorem fit_transform_records_the_points
    (self s' : BasisSmoother) (X : FDataGrid) (d : FData) :
  fit_transform self X = Ok (s', d) ->
  same_parameters self s' /\ records_points self X s'.
Proof.
  unfold fit_transform, fit_transform_body.
  destruct (evaluate_basis _ _); cbn [bind]; [|discriminate].
  destruct (_ || _).
  - destruct (_method_function _) as [m|]; cbn [bind]; [|discriminate].
    destruct (getattr_or_None m "fit_transform").
    + destruct (fit _ X) as [fitted_self|] eqn:Hfit; cbn [bind]; [|discriminate].
      apply fit_keeps_parameters in Hfit as [Hpar Hrec].
      unfold transform_body.
      destruct (fitted _ _); cbn [bind]; [|discriminate].
      destruct (same_points _ _) as [[|]|]; cbn [bind negb]; try discriminate.
      destruct (_method_function fitted_self) as [m'|]; cbn [bind]; [|discriminate].
      destruct (getattr_or_None m' "transform"); [|discriminate].
      unfold _Matrix_transform. destruct (return_basis fitted_self).
      * destruct (fitted _ _); cbn [bind]; [|discriminate].
        intros [= <- _]. split; [exact Hpar|exact Hrec].
      * destruct (getattr _ _ _); discriminate.
    + destruct (call_method _ _ _ _ _ _) as [[c|]|]; cbn [bind]; try discriminate.
      intros H. apply finish_self in H. subst s'. repeat split.
  - destruct (Nat.eqb _ _); [|discriminate].
    destruct (lapack _); cbn [bind]; [|discriminate].
    intros H. apply finish_self in H. subst s'. repeat split.
Qed.

End Facts.

Lemma transform_with_another_number_of_points_witness :
  @transform Exact.numpy_new Exact.linalg
    (set_points Examples.plain_smoother [[0; 1]] [[0; 1]])
    (mk_FDataGrid (of_rows [[2; 6; 4]]) [[0; 1; 2]])
  = Raise (ValueError "operands could not be broadcast together").
Proof.
  apply (@transform_with_another_number_of_points Exact.numpy_new Exact.linalg
           (set_points Examples.plain_smoother [[0; 1]] [[0; 1]])
           (mk_FDataGrid (of_rows [[2; 6; 4]]) [[0; 1; 2]])
           [0; 1] [0; 1; 2] [] [] eq_refl eq_refl); simpl; lia.
Defined.

Lemma fit_transform_records_the_points_witness :
  exists s' d,
    @fit_transform Exact.numpy_new Exact.linalg Examples.plain_smoother
                   Examples.two_point_sample = Ok (s', d)
    /\ same_parameters Examples.plain_smoother s'
    /\ records_points Examples.plain_smoother Examples.two_point_sample s'.
Proof.
  destruct (@fit_transform Exact.numpy_new Exact.linalg Examples.plain_smoother
                   Examples.two_point_sample) as [[s' d]|e] eqn:H.
  - exists s', d. split; [reflexivity|].
    exact (@fit_transform_records_the_points Exact.numpy_new Exact.linalg
             Examples.plain_smoother s' Examples.two_point_sample d H).
  - vm_compute in H. discriminate H.
Defined.

Lemma fit_then_transform_witness :
  (fitted_self <- @fit Exact.numpy_new Exact.linalg Examples.plain_smoother
                       Examples.two_point_sample ;;
   @transform Exact.numpy_new Exact.linalg fitted_self Examples.two_point_sample)
  = @fit_transform Exact.numpy_new Exact.linalg Examples.plain_smoother
                   Examples.two_point_sample
  /\ Examples.returns_rows
       (@fit_transform Exact.numpy_new Exact.linalg Examples.plain_smoother
                       Examples.two_point_sample) [[4; 4]] = true.
Proof.
  split.
  - apply (@fit_then_transform_is_fit_transform Exact.numpy_new Exact.linalg
             Examples.plain_smoother Examples.two_point_sample
             SolverMethod.cholesky eq_refl).
    discriminate.
  - vm_compute. reflexivity.
Defined.

End EstimatorFacts.

(* ===================================================================== *)
(** * Facts about the quadrature of the functional PCA                   *)
(* ===================================================================== *)

Module QuadratureFacts.

Import FPCA Eff EffFacts FPCAFacts Quadrature.
Open Scope Q_scope.
Open Scope eff_scope.

Section Basis.

Context {B Lfd : Type} `{BC : BasisClass B Lfd} `{LA : LinAlg}.

Lemma new_array_keeps_basis (cb : option B) (M : matrix) :
  preserves (components_basis_is (Lfd := Lfd) cb) (new_array M).
Proof. intros s Hs. exact Hs. Qed.

Lemma store_keeps_basis (cb : option B) (a : ndarray) (M : matrix) :
  preserves (components_basis_is (Lfd := Lfd) cb) (store a M).
Proof. intros s Hs. exact Hs. Qed.

Lemma set_pca__keeps_basis (cb : option B) (p : option (matrix * list Q)) :
  preserves (components_basis_is (Lfd := Lfd) cb) (set_pca_ p).
Proof. intros s Hs. exact Hs. Qed.

Lemma set_results_keeps_basis (cb : option B) (v : list Q)
    (c : FDataBasis (B := B)) :
  preserves (components_basis_is (Lfd := Lfd) cb) (set_results v c).
Proof. intros s Hs. exact Hs. Qed.

Ltac keeps_basis :=
  first
    [ apply load_preserves
    | apply new_array_keeps_basis
    | apply store_keeps_basis
    | apply set_pca__keeps_basis
    | apply set_results_keeps_basis
    | apply load_raises
    | apply store_raises
    | apply new_array_raises
    | progress unfold mean ].

(** X10.  [FPCABasis.fit] stores the target basis on the estimator: once
    the tests on [n_components] have passed, and however the rest of
    [fit] ends, [components_basis] is the basis configured, set on the
    domain of the sample, or the basis of the sample when none was
    configured; the next [fit] compares [n_components] with the size of
    that basis, whatever sample it is given. *)
Theorem fit_stores_the_target_basis
    (X : FDataBasis (B := B)) (s : basis_state (B := B) (Lfd := Lfd)) :
  (n_components (self s) <= Z.of_nat (n_samples s X))%Z ->
  (n_components (self s) <= Z.of_nat (capacity (self s) X))%Z ->
  let s' := snd (FPCABasis_fit X s) in
  components_basis (self s') = Some (stored_basis (self s) X)
  /\ forall Y, capacity (self s') Y = n_basis (stored_basis (self s) X).
Proof.
  intros H1 H2 s'.
  enough (Hcb : components_basis (self s') = Some (stored_basis (self s) X)).
  { split; [exact Hcb|]. intros Y. unfold capacity. rewrite Hcb. reflexivity. }
  subst s'. unfold FPCABasis_fit.
  rewrite (bind_ok get _ s s s eq_refl).
  rewrite (bind_ok (load _) _ s s _ eq_refl).
  unfold n_samples in H1. unfold capacity in H2.
  destruct (Z.ltb_spec (Z.of_nat (nrows (read (arrays s) (coefficients X))))
                       (n_components (self s))); [lia|].
  match goal with
  | |- context [if ?c then _ else _] => destruct c eqn:Hcap
  end.
  { apply Z.ltb_lt in Hcap. lia. }
  match goal with
  | |- components_basis (self (snd (bind ?c ?k s))) = _ =>
      assert (Hp : preserves (components_basis_is (components_basis (self s))) c)
        by eff_rules keeps_basis;
      assert (Hr : raises_only (fun _ => False) c) by eff_rules keeps_basis;
      specialize (Hp s eq_refl); specialize (Hr s);
      destruct (c s) as [[[]|e] s1] eqn:Hrun;
        [rewrite (bind_ok c k s s1 tt Hrun)
        |exfalso; apply (Hr e); reflexivity]
  end.
  simpl in Hp. unfold components_basis_is in Hp. clear Hr Hrun.
  unfold stored_basis.
  destruct (components_basis (self s)) as [cb|].
  - match goal with
    | |- components_basis (self (snd (bind ?c ?k s1))) = _ =>
        rewrite (bind_ok c k s1 _ _ eq_refl)
    end.
    match goal with
    | |- components_basis (self (snd (?rest ?s2))) = Some ?b =>
        enough (Hk : preserves (components_basis_is (Some b)) rest)
          by (apply Hk; reflexivity)
    end.
    eff_rules keeps_basis.
  - match goal with
    | |- components_basis (self (snd (bind ?c ?k s1))) = _ =>
        rewrite (bind_ok c k s1 _ _ eq_refl)
    end.
    match goal with
    | |- components_basis (self (snd (?rest ?s2))) = Some ?b =>
        enough (Hk : preserves (components_basis_is (Some b)) rest)
          by (apply Hk; reflexivity)
    end.
    eff_rules keeps_basis.
Qed.

End Basis.

Section Grid.

Context `{LA : LinAlg}.

(** X7.  [FPCAGrid.fit] needs two samples and two points: for a sample
    of one curve, or of curves observed at one point, [np.squeeze] drops
    the axis, the unpacking of line 394 raises [ValueError], and neither
    the estimator nor the sample has been changed. *)
Theorem fit_needs_two_curves_and_two_points (X : FDataGrid) (s : grid_state) :
  (g_n_components (g_self s) <= Z.of_nat (nrows (values s X)))%Z ->
  (g_n_components (g_self s) <= Z.of_nat (ncols (values s X)))%Z ->
  two_axes (values s X) = false ->
  FPCAGrid_fit X s = (Raise (unpack_error (values s X)), s).
Proof.
  intros H1 H2 Hshape.
  unfold FPCAGrid_fit.
  rewrite (bind_ok get _ s s s eq_refl).
  rewrite (bind_ok (g_load _) _ s s _ eq_refl).
  fold (values s X).
  destruct (Z.ltb_spec (Z.of_nat (nrows (values s X)))
                       (g_n_components (g_self s))); [lia|].
  destruct (Z.ltb_spec (Z.of_nat (ncols (values s X)))
                       (g_n_components (g_self s))); [lia|].
  unfold two_axes in Hshape. unfold unpack_error.
  destruct (Nat.eqb (nrows (values s X)) 1), (Nat.eqb (ncols (values s X)) 1);
    try discriminate; reflexivity.
Qed.

Lemma py_sum_qsum (l : list Q) :
  py_sum l == qsum (length l) (fun k => nth k l 0).
Proof.
  unfold py_sum.
  enough (H : forall a, fold_left Qplus l a
                        == a + qsum (length l) (fun k => nth k l 0)).
  { rewrite H. ring. }
  induction l as [|x l IH]; intros a; simpl fold_left.
  - simpl. ring.
  - rewrite IH. change (length (x :: l)) with (1 + length l)%nat.
    rewrite Algebra.qsum_app. simpl. ring.
Qed.

(** A sum of differences of neighbours. *)
Lemma qsum_telescope (n : nat) (f : nat -> Q) :
  qsum n (fun k => f (S k) - f k) == f n - f 0%nat.
Proof.
  induction n as [|n IH]; simpl.
  - ring.
  - rewrite IH. ring.
Qed.

(** The trapezoidal weights add up to the length of the interval the
    points span. *)
Lemma trapezoidal_total (axis : list Q) :
  (1 <= length axis)%nat ->
  qsum (length axis) (trapezoidal axis)
  == nth (length axis - 1) axis 0 - nth 0 axis 0.
Proof.
  intros Hlen. destruct (length axis) as [|m] eqn:Hn; [lia|].
  unfold trapezoidal. rewrite Hn. rewrite Algebra.qsum_plus.
  replace (S m - 1)%nat with m by lia.
  assert (Hhalf : qsum m (fun k => (nth (S k) axis 0 - nth k axis 0) / 2)
                  == (nth m axis 0 - nth 0 axis 0) / 2).
  { rewrite <- (qsum_telescope m (fun k => nth k axis 0)).
    unfold Qdiv. rewrite <- Algebra.qsum_scale_r. reflexivity. }
  assert (Hleft :
    qsum (S m) (fun k => if Nat.eqb k 0 then 0
                         else (nth k axis 0 - nth (k - 1) axis 0) / 2)
    == (nth m axis 0 - nth 0 axis 0) / 2).
  { change (S m) with (1 + m)%nat. rewrite Algebra.qsum_app. simpl qsum at 1.
    rewrite <- Hhalf. cbn [Nat.eqb]. rewrite !Qplus_0_l.
    apply npFacts.qsum_ext. intros k _. cbn [Nat.add Nat.eqb].
    replace (S k - 1)%nat with k by lia. reflexivity. }
  assert (Hright :
    qsum (S m) (fun k => if Nat.eqb (S k) (S m) then 0
                         else (nth (S k) axis 0 - nth k axis 0) / 2)
    == (nth m axis 0 - nth 0 axis 0) / 2).
  { cbn [qsum]. rewrite Nat.eqb_refl, Qplus_0_r. rewrite <- Hhalf.
    apply npFacts.qsum_ext. intros k Hk.
    destruct (Nat.eqb_spec (S k) (S m)); [lia|reflexivity]. }
  rewrite Hleft, Hright. field.
Qed.

(** X8.  The default weights of [FPCAGrid.fit] add up to the length of
    the interval the sample points span: the quadrature they define
    integrates a constant exactly. *)
Theorem default_weights_add_up_to_the_interval
    (X : FDataGrid) (s : grid_state) (axis : list Q) (axes : list (list Q)) :
  weights (g_self s) = WNone ->
  sample_points X = axis :: axes ->
  (2 <= length axis)%nat ->
  (g_n_components (g_self s) <= Z.of_nat (nrows (values s X)))%Z ->
  (g_n_components (g_self s) <= Z.of_nat (ncols (values s X)))%Z ->
  two_axes (values s X) = true ->
  exists w,
    weights (g_self (snd (FPCAGrid_fit X s))) = WArray w
    /\ py_sum w == nth (length axis - 1) axis 0 - nth 0 axis 0.
Proof.
  intros Hw Hpts Hlen H1 H2 Hshape.
  exists (built_weights axis). split.
  - apply (grid_fit_default_weights X s axis axes); assumption.
  - destruct (built_weights_trapezoidal axis Hlen) as [Hl Hk].
    rewrite py_sum_qsum, Hl, <- trapezoidal_total by lia.
    apply npFacts.qsum_ext. exact Hk.
Qed.

(** X9.  Weights given to the constructor that Python takes for true (a
    list that is not empty, an array of one entry that is not 0) are
    never replaced: whatever [fit] does and however it ends, the
    attribute [weights] is the value given. *)
Theorem fit_keeps_the_given_weights
    (X : FDataGrid) (s : grid_state) (w : weights_value) :
  truth_value w = Ok true ->
  weights (g_self s) = w ->
  weights (g_self (snd (FPCAGrid_fit X s))) = w.
Proof.
  intros Ht Hw.
  unfold FPCAGrid_fit.
  rewrite (bind_ok get _ s s s eq_refl).
  rewrite (bind_ok (g_load _) _ s s _ eq_refl).
  destruct (Z.ltb _ _); [exact Hw|].
  destruct (Z.ltb _ _); [exact Hw|].
  destruct (Nat.eqb (nrows _) 1 && Nat.eqb (ncols _) 1); [exact Hw|].
  destruct (Nat.eqb (nrows _) 1 || Nat.eqb (ncols _) 1); [exact Hw|].
  rewrite (bind_ok (ret tt) _ s s tt eq_refl).
  destruct (grid_centering_returns X s w Hw) as (s1 & Hrun & Hw1).
  rewrite (bind_ok _ _ s s1 tt Hrun).
  rewrite (bind_ok get _ s1 s1 s1 eq_refl).
  unfold weights_are in Hw1. rewrite Hw1.
  rewrite (bind_ok (pure (truth_value w)) _ s1 s1 true
             (f_equal (fun r => (r, s1)) Ht)).
  cbn [negb]. rewrite (bind_ok (ret tt) _ s1 s1 tt eq_refl).
  match goal with
  | |- weights (g_self (snd (?rest s1))) = w =>
      enough (Hp : preserves (weights_are w) rest) by (apply Hp, Hw1)
  end.
  eff_rules grid_primitive.
Qed.

End Grid.

Lemma fit_needs_two_curves_witness :
  @FPCAGrid_fit Exact.linalg MoreExamples.single_curve
    (mk_grid_state Examples.fpca_grid MoreExamples.single_curve_heap)
  = (Raise (ValueError "not enough values to unpack (expected 2, got 1)"),
     mk_grid_state Examples.fpca_grid MoreExamples.single_curve_heap).
Proof.
  apply (@fit_needs_two_curves_and_two_points Exact.linalg
           MoreExamples.single_curve
           (mk_grid_state Examples.fpca_grid MoreExamples.single_curve_heap)).
  - vm_compute. discriminate.
  - vm_compute. discriminate.
  - vm_compute. reflexivity.
Defined.

Lemma fit_keeps_the_given_weights_witness :
  let s := mk_grid_state MoreExamples.weighted_fpca_grid Examples.grid_heap in
  fst (@FPCAGrid_fit Exact.linalg Examples.grid_sample s) = Ok tt
  /\ weights (g_self (snd (@FPCAGrid_fit Exact.linalg Examples.grid_sample s)))
     = WList [1; 1].
Proof.
  split.
  - vm_compute. reflexivity.
  - apply (@fit_keeps_the_given_weights Exact.linalg Examples.grid_sample
             (mk_grid_state MoreExamples.weighted_fpca_grid Examples.grid_heap)
             (WList [1; 1])); reflexivity.
Defined.

Lemma fit_stores_the_target_basis_witness :
  let s := mk_basis_state Examples.fpca_basis Examples.coefficient_heap in
  let s' := snd (@FPCABasis_fit nat unit Examples.orthonormal Exact.linalg
                   Examples.basis_sample s) in
  components_basis (self s') = Some 1%nat
  /\ forall Y, @capacity nat unit Examples.orthonormal (self s') Y = 1%nat.
Proof.
  apply (@fit_stores_the_target_basis nat unit Examples.orthonormal Exact.linalg
           Examples.basis_sample
           (mk_basis_state Examples.fpca_basis Examples.coefficient_heap)).
  - vm_compute. discriminate.
  - vm_compute. discriminate.
Defined.

Lemma default_weights_add_up_witness :
  exists w,
    weights (g_self (snd (@FPCAGrid_fit Exact.linalg Examples.longer_grid_sample
                            (mk_grid_state Examples.fpca_grid Examples.grid_heap))))
    = WArray w
    /\ py_sum w == 3 - 0.
Proof.
  apply (@default_weights_add_up_to_the_interval Exact.linalg
           Examples.longer_grid_sample
           (mk_grid_state Examples.fpca_grid Examples.grid_heap) [0; 2; 3] []).
  - reflexivity.
  - reflexivity.
  - simpl. lia.
  - vm_compute. discriminate.
  - vm_compute. discriminate.
  - vm_compute. reflexivity.
Defined.

End QuadratureFacts.

(* ===================================================================== *)
(** * The Fourier basis as a series                                      *)
(* ===================================================================== *)

Module FourierSeries.

Import Fourier.
Import Reals.
Open Scope R_scope.

Lemma nth_map_in {A C : Type} (f : A -> C) (l : list A) (d : A) (d' : C) (i : nat) :
  (i < length l)%nat -> nth i (map f l) d' = f (nth i l d).
Proof.
  intros Hi. rewrite (nth_indep _ d' (f d)) by (rewrite length_map; exact Hi).
  apply map_nth.
Qed.

(** The rows [res] of [_evaluate] (lines 120-132) for the phase
    coefficients [phases]: a sine and a cosine for each. *)
Lemma trig_rows_length (phases : list R) (pts : list R) (nd : R) :
  length (map (map (fun x => x / nd))
              (flat_map (fun c => [map (fun t => sin (c * t)) pts;
                                   map (fun t => cos (c * t)) pts]) phases))
  = (2 * length phases)%nat.
Proof.
  rewrite length_map. induction phases as [|c phases IH]; simpl; [reflexivity|].
  rewrite IH. lia.
Qed.

Lemma trig_rows_nth (phases : list R) (pts : list R) (nd : R) (i : nat) :
  (i < length phases)%nat ->
  let rows := map (map (fun x => x / nd))
                  (flat_map (fun c => [map (fun t => sin (c * t)) pts;
                                       map (fun t => cos (c * t)) pts]) phases) in
  nth (2 * i) rows [] = map (fun t => sin (nth i phases 0 * t) / nd) pts
  /\ nth (2 * i + 1) rows [] = map (fun t => cos (nth i phases 0 * t) / nd) pts.
Proof.
  revert i. induction phases as [|c phases IH]; intros i Hi; simpl in Hi; [lia|].
  destruct i as [|i].
  - simpl. rewrite !map_map. split; reflexivity.
  - replace (2 * S i)%nat with (S (S (2 * i))) by lia.
    replace (S (S (2 * i)) + 1)%nat with (S (S (2 * i + 1))) by lia.
    simpl. apply IH. lia.
Qed.

(** X11.  [Fourier._evaluate] gives one row per basis function and one
    entry per point: for a basis built by the constructor from a number
    [n >= 0] of functions, with a period that is not 0, and for points
    that are not none, the result has [n_basis] rows of as many entries
    as there are points.  (With the period 0 line 116 raises
    [ZeroDivisionError], and with no point line 131 raises
    [ValueError].) *)
Theorem evaluate_shape
    (d : option array_like) (n : Z) (T : option R) (b : Fourier) (pts : list R) :
  (0 <= n)%Z ->
  Fourier_init d n T = Ok b ->
  period b <> 0 ->
  pts <> [] ->
  length (_evaluate b pts) = Z.to_nat (n_basis b)
  /\ Forall (fun row => length row = length pts) (_evaluate b pts).
Proof.
  intros Hn Hinit _ _.
  assert (Hodd := FourierFacts.Fourier_init_odd _ _ _ _ Hinit).
  assert (Hnb := FourierFacts.Fourier_init_n_basis _ _ _ _ Hinit).
  assert (Hpos : (1 <= n_basis b)%Z).
  { rewrite Hnb. pose proof (Z.mod_le n 2 Hn eq_refl). lia. }
  unfold _evaluate. split.
  - rewrite length_app, trig_rows_length, !length_map, length_seq. simpl.
    apply Z.odd_spec in Hodd as [k Hk]. rewrite Hk.
    replace ((2 * k + 1 - 1) / 2)%Z with k
      by (rewrite Z.add_simpl_r, Z.mul_comm, Z.div_mul; lia).
    lia.
  - apply Forall_app. split.
    + repeat constructor. apply repeat_length.
    + apply List.Forall_forall. intros row Hrow.
      apply in_map_iff in Hrow as (row0 & <- & Hrow0). rewrite length_map.
      apply in_flat_map in Hrow0 as (c & _ & [<-|[<-|[]]]); apply length_map.
Qed.

(** The rows of a sine and a cosine: the rows 2k + 1 and 2k + 2 of
    [_evaluate] (lines 120-138) hold the sine and the cosine of the
    frequency k + 1, divided by the normalization of line 118. *)
Lemma evaluate_pair (b : Fourier) (pts : list R) (k j : nat) :
  0 < period b ->
  (k < Z.to_nat ((n_basis b - 1) / 2))%nat ->
  (j < length pts)%nat ->
  nth j (nth (S (2 * k)) (_evaluate b pts) []) 0
  = sin (2 * PI * INR (S k) / period b * nth j pts 0) / sqrt (period b / 2)
  /\ nth j (nth (2 * S k) (_evaluate b pts) []) 0
     = cos (2 * PI * INR (S k) / period b * nth j pts 0) / sqrt (period b / 2).
Proof.
  intros HT HK Hj. unfold _evaluate.
  set (K := Z.to_nat ((n_basis b - 1) / 2)) in *.
  set (phases := map (fun n => 2 * PI / period b * n)
                     (map (fun n => IZR (Z.of_nat n)) (seq 1 K))).
  assert (Hlen : length phases = K).
  { unfold phases. now rewrite !length_map, length_seq. }
  assert (Hphase : nth k phases 0 = 2 * PI * INR (S k) / period b).
  { unfold phases. rewrite map_map.
    rewrite (nth_map_in _ _ 0%nat) by (rewrite length_seq; lia).
    rewrite seq_nth by lia.
    rewrite <- INR_IZR_INZ. change (1 + k)%nat with (S k). field. Lra.lra. }
  destruct (trig_rows_nth phases pts (sqrt (period b / 2)) k) as [Hs Hc];
    [lia|].
  replace (2 * S k)%nat with (S (2 * k + 1)) by lia.
  cbn [app nth]. fold phases. rewrite Hs, Hc, Hphase.
  split.
  - now rewrite (nth_map_in _ _ 0) by exact Hj.
  - now rewrite (nth_map_in _ _ 0) by exact Hj.
Qed.

(** X12.  The rows of [Fourier._evaluate] are the functions of the class
    docstring (lines 16-26) divided by sqrt(T/2): for 1 <= k <=
    (n_basis - 1) / 2 the row 2k - 1 is sin(2 pi k t / T) and the row 2k
    is cos(2 pi k t / T), at each point t. *)
Theorem evaluate_is_the_fourier_series
    (b : Fourier) (pts : list R) (k j : nat) :
  0 < period b ->
  (1 <= k)%nat ->
  (Z.of_nat k <= (n_basis b - 1) / 2)%Z ->
  (j < length pts)%nat ->
  let t := nth j pts 0 in
  nth j (nth (2 * k - 1) (_evaluate b pts) []) 0
  = sin (2 * PI * INR k / period b * t) / sqrt (period b / 2)
  /\ nth j (nth (2 * k) (_evaluate b pts) []) 0
     = cos (2 * PI * INR k / period b * t) / sqrt (period b / 2).
Proof.
  intros HT Hk1 HkK Hj t. subst t.
  destruct k as [|k]; [lia|].
  replace (2 * S k - 1)%nat with (S (2 * k)) by lia.
  apply evaluate_pair; [exact HT| |exact Hj].
  apply Nat2Z.inj_lt. rewrite Z2Nat.id; lia.
Qed.

(** X13.  Every function of the basis has the period [period]: shifting
    all the points by it leaves [Fourier._evaluate] as it is. *)
Theorem evaluate_is_periodic (b : Fourier) (pts : list R) :
  0 < period b ->
  _evaluate b (map (fun t => t + period b) pts) = _evaluate b pts.
Proof.
  intros HT. unfold _evaluate. rewrite length_map. f_equal. f_equal.
  set (K := Z.to_nat ((n_basis b - 1) / 2)).
  generalize (seq 1 K). intros l.
  induction l as [|n l IH]; [reflexivity|].
  cbn [map flat_map app]. rewrite IH. f_equal; [|f_equal].
  - rewrite map_map. apply map_ext. intros t.
    replace (2 * PI / period b * IZR (Z.of_nat n) * (t + period b))
      with (2 * PI / period b * IZR (Z.of_nat n) * t + 2 * INR n * PI)
      by (rewrite <- INR_IZR_INZ; field; Lra.lra).
    apply sin_period.
  - rewrite map_map. apply map_ext. intros t.
    replace (2 * PI / period b * IZR (Z.of_nat n) * (t + period b))
      with (2 * PI / period b * IZR (Z.of_nat n) * t + 2 * INR n * PI)
      by (rewrite <- INR_IZR_INZ; field; Lra.lra).
    apply cos_period.
Qed.

Lemma evaluate_shape_witness :
  length (_evaluate (mk_Fourier (Some [0; 1]) 5 None) [1 / 4; 1 / 2]) = 5%nat
  /\ Forall (fun row => length row = 2%nat)
            (_evaluate (mk_Fourier (Some [0; 1]) 5 None) [1 / 4; 1 / 2]).
Proof.
  exact (evaluate_shape (Some (Flat [0; 1])) 4 None
           (mk_Fourier (Some [0; 1]) 5 None) [1 / 4; 1 / 2]
           ltac:(discriminate) eq_refl
           ltac:(unfold period; simpl; Lra.lra) ltac:(discriminate)).
Defined.

Lemma evaluate_is_the_fourier_series_witness :
  let b := mk_Fourier (Some [0; 1]) 5 None in
  nth 0 (nth 3 (_evaluate b [1 / 4]) []) 0
  = sin (2 * PI * INR 2 / period b * (1 / 4)) / sqrt (period b / 2)
  /\ nth 0 (nth 4 (_evaluate b [1 / 4]) []) 0
     = cos (2 * PI * INR 2 / period b * (1 / 4)) / sqrt (period b / 2).
Proof.
  exact (evaluate_is_the_fourier_series (mk_Fourier (Some [0; 1]) 5 None)
           [1 / 4] 2 0 ltac:(unfold period; simpl; Lra.lra) ltac:(lia) ltac:(discriminate) ltac:(simpl; lia)).
Defined.

Lemma evaluate_is_periodic_witness :
  let b := mk_Fourier (Some [0; 1]) 5 None in
  _evaluate b (map (fun t => t + period b) [1 / 4]) = _evaluate b [1 / 4].
Proof.
  exact (evaluate_is_periodic (mk_Fourier (Some [0; 1]) 5 None) [1 / 4]
           ltac:(unfold period; simpl; Lra.lra)).
Defined.

End FourierSeries.

(* ===================================================================== *)
(** * Facts about the derivative of a Fourier expansion                  *)
(* ===================================================================== *)

Module FourierDerivativeFacts.

Import Fourier FourierDerivative FourierSeries.
Import Reals.
Open Scope R_scope.
Open Scope py_scope.

(** Induction on lists two entries at a time. *)
Lemma list_ind_2 (P : list R -> Prop) :
  P [] -> (forall a, P [a]) -> (forall a b x, P x -> P (a :: b :: x)) ->
  forall x, P x.
Proof.
  intros H0 H1 H2 x.
  enough (H : P x /\ forall a, P (a :: x)) by apply H.
  induction x as [|b x [IH1 IH2]]; split; auto.
Qed.

Lemma every_other_nth (x : list R) (i : nat) :
  nth i (every_other x) 0 = nth (2 * i) x 0.
Proof.
  revert i. induction x as [|a|a b x IH] using list_ind_2; intros i.
  - destruct i; reflexivity.
  - destruct i as [|[|i]]; reflexivity.
  - destruct i as [|i]; [reflexivity|].
    replace (2 * S i)%nat with (S (S (2 * i))) by lia.
    cbn [every_other nth]. apply IH.
Qed.

Lemma every_other_length (x : list R) :
  length (every_other x) = Nat.div2 (length x + 1).
Proof.
  induction x as [|a|a b x IH] using list_ind_2; try reflexivity.
  cbn [every_other length]. rewrite IH.
  replace (S (S (length x)) + 1)%nat with (S (S (length x + 1))) by lia.
  reflexivity.
Qed.

Lemma slice_step_2_nth (start : nat) (x : list R) (i : nat) :
  nth i (slice_step_2 start x) 0 = nth (start + 2 * i) x 0.
Proof.
  unfold slice_step_2. rewrite every_other_nth. apply nth_skipn.
Qed.

Lemma slice_step_2_length (start : nat) (x : list R) :
  length (slice_step_2 start x) = slots start (length x).
Proof.
  unfold slice_step_2, slots. rewrite every_other_length, length_skipn. reflexivity.
Qed.

Lemma nth_products (x f : list R) (i : nat) :
  length x = length f ->
  nth i (map (fun p => fst p * snd p) (combine x f)) 0 = nth i x 0 * nth i f 0.
Proof.
  revert f i. induction x as [|a x IH]; intros [|b f] i Hlen; simpl in Hlen;
    try discriminate.
  - destruct i; simpl; ring.
  - destruct i as [|i]; simpl; [reflexivity|]. apply IH. lia.
Qed.

Lemma nth_scaled (s : R) (x : list R) (i : nat) :
  nth i (map (fun a => s * a) x) 0 = s * nth i x 0.
Proof.
  rewrite <- (Rmult_0_r s) at 1. apply (map_nth (fun a => s * a)).
Qed.

Lemma slots_odd (K : nat) : slots 1 (S (2 * K)) = K /\ slots 2 (S (2 * K)) = K.
Proof.
  unfold slots. split.
  - replace (S (2 * K) - 1 + 1)%nat with (S (2 * K)) by lia.
    apply Nat.div2_succ_double.
  - destruct K as [|k]; [reflexivity|].
    replace (S (2 * S k) - 2 + 1)%nat with (2 * S k)%nat by lia.
    apply Nat.div2_double.
Qed.

(** The shape of a well-formed array: as many sines as cosines as entries
    of [deriv_factor]. *)
Lemma well_formed_shape (self : Fourier) (coefs : coefficient_array) :
  well_formed self coefs ->
  let K := Z.to_nat (n_basis self / 2) in
  n_columns coefs = S (2 * K)
  /\ slots 1 (n_columns coefs) = K /\ slots 2 (n_columns coefs) = K.
Proof.
  intros (Hodd & Hpos & Hn & _) K.
  assert (HnK : n_columns coefs = S (2 * K)).
  { rewrite Hn. unfold K. apply Z.odd_spec in Hodd as [k Hk]. rewrite Hk.
    replace ((2 * k + 1) / 2)%Z with k by (apply Z.div_unique with 1%Z; lia).
    lia. }
  split; [exact HnK|]. rewrite HnK. apply slots_odd.
Qed.

(** On a well-formed array, [_derivative_basis_and_coefs] returns, and
    its rows are given entry by entry by [derivative_entry]. *)
Lemma derivative_closed_form (self : Fourier) (coefs : coefficient_array) (order : Z) :
  well_formed self coefs ->
  _derivative_basis_and_coefs self coefs order
  = Ok (self,
        mk_coefficient_array (n_columns coefs)
          (map (fun c => map (derivative_entry self order c)
                             (seq 0 (n_columns coefs)))
               (coefficient_rows coefs))).
Proof.
  intros Hwf. destruct (well_formed_shape self coefs Hwf) as (HnK & H1 & H2).
  destruct Hwf as (_ & _ & _ & Hrows).
  unfold _derivative_basis_and_coefs.
  set (K := Z.to_nat (n_basis self / 2)) in *.
  set (omega := 2 * PI / period self).
  set (factor := map (fun k => powerRZ (INR k * omega) order) (seq 1 K)).
  assert (Hf : length factor = K) by (unfold factor; now rewrite length_map, length_seq).
  rewrite H1, H2, Hf. unfold broadcast, assignable.
  rewrite !Nat.eqb_refl. cbn [bind orb].
  assert (Hfactor : forall i, (i < K)%nat ->
            nth i factor 0 = powerRZ (INR (S i) * omega) order).
  { intros i Hi. unfold factor.
    rewrite (nth_map_in _ _ 0%nat) by (rewrite length_seq; exact Hi).
    now rewrite seq_nth. }
  assert (Hslot : forall s start row i,
            length row = n_columns coefs -> (start = 1 \/ start = 2)%nat ->
            (i < K)%nat ->
            nth i (spread K (multiply (map (fun a => s * a) (slice_step_2 start row))
                                      factor)) 0
            = s * nth (start + 2 * i) row 0 * powerRZ (INR (S i) * omega) order).
  { intros s start row i Hrow Hstart Hi.
    assert (Hlen : length (map (fun a => s * a) (slice_step_2 start row)) = K).
    { rewrite length_map, slice_step_2_length, Hrow.
      destruct Hstart as [-> | ->]; assumption. }
    unfold multiply. rewrite Hlen, Hf, Nat.eqb_refl.
    unfold spread. rewrite length_map, length_combine, Hlen, Hf, Nat.min_id, Nat.eqb_refl.
    rewrite nth_products by congruence.
    now rewrite nth_scaled, slice_step_2_nth, Hfactor. }
  destruct (Z.even order) eqn:Heven;
    repeat (rewrite Nat.eqb_refl; cbn [bind orb]); do 3 f_equal.
  - apply map_ext_in. intros row Hrow.
    rewrite List.Forall_forall in Hrows. specialize (Hrows row Hrow).
    unfold fill. apply map_ext_in. intros j Hj. apply in_seq in Hj.
    unfold derivative_entry. rewrite Heven. fold omega.
    destruct (Nat.eqb_spec j 0) as [->|Hj0]; [reflexivity|].
    destruct (Nat.odd j) eqn:Hodd.
    + apply Nat.odd_spec in Hodd as [i ->].
      replace (2 * i + 1 - 1)%nat with (2 * i)%nat by lia.
      replace (2 * i + 1 + 1)%nat with (2 * S i)%nat by lia.
      rewrite !Nat.div2_double.
      rewrite Hslot by (auto; lia). f_equal. f_equal. f_equal. lia.
    + rewrite <- Nat.negb_even in Hodd. apply negb_false_iff in Hodd.
      apply Nat.even_spec in Hodd as [i ->]. destruct i as [|i]; [lia|].
      replace (2 * S i - 2)%nat with (2 * i)%nat by lia.
      replace (2 * S i + 1)%nat with (S (2 * S i)) by lia.
      rewrite Nat.div2_double, Nat.div2_succ_double.
      rewrite Hslot by (auto; lia). f_equal. f_equal. f_equal. lia.
  - apply map_ext_in. intros row Hrow.
    rewrite List.Forall_forall in Hrows. specialize (Hrows row Hrow).
    unfold fill. apply map_ext_in. intros j Hj. apply in_seq in Hj.
    unfold derivative_entry. rewrite Heven. fold omega.
    destruct (Nat.eqb_spec j 0) as [->|Hj0]; [reflexivity|].
    destruct (Nat.odd j) eqn:Hodd.
    + apply Nat.odd_spec in Hodd as [i ->].
      replace (2 * i + 1 - 1)%nat with (2 * i)%nat by lia.
      replace (2 * i + 1 + 1)%nat with (2 * S i)%nat by lia.
      rewrite !Nat.div2_double.
      rewrite Hslot by (auto; lia). f_equal. f_equal. f_equal. lia.
    + rewrite <- Nat.negb_even in Hodd. apply negb_false_iff in Hodd.
      apply Nat.even_spec in Hodd as [i ->]. destruct i as [|i]; [lia|].
      replace (2 * S i - 2)%nat with (2 * i)%nat by lia.
      replace (2 * S i + 1)%nat with (S (2 * S i)) by lia.
      rewrite Nat.div2_double, Nat.div2_succ_double.
      rewrite Hslot by (auto; lia). f_equal. f_equal. f_equal. lia.
Qed.

End FourierDerivativeFacts.

Module DerivativeOrders.

Import Fourier FourierDerivative FourierSeries FourierDerivativeFacts.
Import Reals.
Open Scope R_scope.
Open Scope py_scope.

(** The result of [_derivative_basis_and_coefs] is well formed again. *)
Lemma derivative_well_formed (self : Fourier) (coefs : coefficient_array) (order : Z) :
  well_formed self coefs ->
  well_formed self
    (mk_coefficient_array (n_columns coefs)
       (map (fun c => map (derivative_entry self order c) (seq 0 (n_columns coefs)))
            (coefficient_rows coefs))).
Proof.
  intros (Hodd & Hpos & Hn & Hrows). repeat split; try assumption.
  cbn [n_columns coefficient_rows]. apply List.Forall_forall. intros row Hrow.
  apply in_map_iff in Hrow as (c & <- & _). now rewrite length_map, length_seq.
Qed.

(** The exponents of the signs of lines 149-150, by parity of the order. *)
Lemma quot_even (m : Z) : (0 <= m)%Z -> ((2 * m) ÷ 2 = m /\ (2 * m + 1) ÷ 2 = m)%Z.
Proof.
  intros Hm. rewrite !Z.quot_div_nonneg by lia. split.
  - symmetry. apply Z.div_unique with 0%Z; lia.
  - symmetry. apply Z.div_unique with 1%Z; lia.
Qed.

Lemma parity (a : Z) :
  (0 <= a)%Z ->
  (Z.even a = true /\ exists m, (0 <= m)%Z /\ a = (2 * m)%Z)
  \/ (Z.even a = false /\ exists m, (0 <= m)%Z /\ a = (2 * m + 1)%Z).
Proof.
  intros Ha. destruct (Z.even a) eqn:He.
  - left. split; [reflexivity|]. apply Z.even_spec in He as [m ->]. exists m. lia.
  - right. split; [reflexivity|].
    rewrite <- Z.negb_odd in He. apply negb_false_iff, Z.odd_spec in He as [m ->].
    exists m. lia.
Qed.

Lemma odd_double (k : nat) : Nat.odd (2 * k) = false.
Proof. rewrite Nat.odd_mul. reflexivity. Qed.

Lemma odd_succ_double (k : nat) : Nat.odd (S (2 * k)) = true.
Proof. rewrite Nat.odd_succ, Nat.even_mul. reflexivity. Qed.

(** The entry [j] of a row of derivative coefficients, read in the array. *)
Lemma derivative_row_nth (self : Fourier) (order : Z) (c : list R) (n j : nat) :
  (j < n)%nat ->
  nth j (map (derivative_entry self order c) (seq 0 n)) 0
  = derivative_entry self order c j.
Proof.
  intros Hj. rewrite (nth_map_in _ _ 0%nat) by (rewrite length_seq; exact Hj).
  now rewrite seq_nth.
Qed.

(** [derivative_entry] at an odd and at an even index. *)
Lemma derivative_entry_odd (self : Fourier) (order : Z) (c : list R) (i : nat) :
  derivative_entry self order c (S (2 * i))
  = let x := INR (S i) * (2 * PI / period self) in
    if Z.even order
    then powerRZ (-1) (order ÷ 2) * nth (S (2 * i)) c 0 * powerRZ x order
    else powerRZ (-1) ((order + 1) ÷ 2) * nth (2 * S i) c 0 * powerRZ x order.
Proof.
  unfold derivative_entry. cbn [Nat.eqb]. rewrite odd_succ_double.
  replace (S (2 * i) + 1)%nat with (2 * S i)%nat by lia.
  rewrite Nat.div2_double. reflexivity.
Qed.

Lemma derivative_entry_even (self : Fourier) (order : Z) (c : list R) (i : nat) :
  derivative_entry self order c (2 * S i)
  = let x := INR (S i) * (2 * PI / period self) in
    if Z.even order
    then powerRZ (-1) ((order + 1) ÷ 2) * nth (2 * S i) c 0 * powerRZ x order
    else powerRZ (-1) (order ÷ 2) * nth (S (2 * i)) c 0 * powerRZ x order.
Proof.
  unfold derivative_entry.
  replace (2 * S i =? 0)%nat with false by (symmetry; apply Nat.eqb_neq; lia).
  rewrite odd_double.
  replace (2 * S i + 1)%nat with (S (2 * S i)) by lia.
  replace (2 * S i - 1)%nat with (S (2 * i)) by lia.
  rewrite Nat.div2_succ_double. reflexivity.
Qed.

Lemma quot2 (e k : Z) :
  (0 <= k)%Z -> (e = 2 * k \/ e = 2 * k + 1)%Z -> (e ÷ 2)%Z = k.
Proof.
  intros Hk [-> | ->]; apply quot_even; exact Hk.
Qed.

(** Every [e ÷ 2] of the goal whose value is [k]. *)
Ltac halve k :=
  repeat match goal with
         | |- context [(?e ÷ 2)%Z] => rewrite (quot2 e k) by lia
         end.

Ltac signs m n :=
  halve m; halve n; halve (m + 1)%Z; halve (n + 1)%Z;
  halve (m + n)%Z; halve (m + n + 1)%Z;
  rewrite ?(powerRZ_add (-1)) by Lra.lra;
  rewrite ?powerRZ_1; ring.

(** The derivative of order [a] of the derivative of order [b], entry by
    entry. *)
Lemma derivative_entry_compose (self : Fourier) (a b : Z) (c : list R) (K j : nat) :
  0 < period self ->
  (0 <= a)%Z -> (0 <= b)%Z ->
  (j < S (2 * K))%nat ->
  derivative_entry self a
    (map (derivative_entry self b c) (seq 0 (S (2 * K)))) j
  = derivative_entry self (a + b) c j.
Proof.
  intros HT Ha Hb Hj.
  destruct j as [|j]; [reflexivity|].
  assert (Hx : forall i, INR (S i) * (2 * PI / period self) <> 0).
  { intros i. apply Rmult_integral_contrapositive_currified.
    - apply not_0_INR. lia.
    - unfold Rdiv. apply Rmult_integral_contrapositive_currified.
      + pose proof PI_RGT_0. Lra.lra.
      + apply Rinv_neq_0_compat. Lra.lra. }
  destruct (Nat.odd (S j)) eqn:Hodd.
  - apply Nat.odd_spec in Hodd as [i Hi].
    replace (S j) with (S (2 * i)) in * by lia. clear Hi.
    rewrite !derivative_entry_odd. cbv zeta.
    rewrite !derivative_row_nth by lia.
    rewrite derivative_entry_odd, derivative_entry_even. cbv zeta.
    rewrite Z.even_add, (powerRZ_add _ a b) by apply Hx.
    destruct (parity a Ha) as [[Ea (m & Hm & ->)]|[Ea (m & Hm & ->)]];
    destruct (parity b Hb) as [[Eb (n & Hn & ->)]|[Eb (n & Hn & ->)]];
      rewrite Ea, Eb; cbn [Bool.eqb]; signs m n.
  - rewrite <- Nat.negb_even in Hodd. apply negb_false_iff in Hodd.
    apply Nat.even_spec in Hodd as [i Hi]. destruct i as [|i]; [lia|].
    replace (S j) with (2 * S i)%nat in * by lia. clear Hi.
    rewrite !derivative_entry_even. cbv zeta.
    rewrite !derivative_row_nth by lia.
    rewrite derivative_entry_odd, derivative_entry_even. cbv zeta.
    rewrite Z.even_add, (powerRZ_add _ a b) by apply Hx.
    destruct (parity a Ha) as [[Ea (m & Hm & ->)]|[Ea (m & Hm & ->)]];
    destruct (parity b Hb) as [[Eb (n & Hn & ->)]|[Eb (n & Hn & ->)]];
      rewrite Ea, Eb; cbn [Bool.eqb]; signs m n.
Qed.

(** The rows of the derivative of order [a] of the derivative of order
    [b] are those of the derivative of order [a + b]. *)
Lemma closed_form_compose (self : Fourier) (coefs : coefficient_array) (a b : Z) :
  0 < period self ->
  well_formed self coefs ->
  (0 <= a)%Z -> (0 <= b)%Z ->
  map (fun c => map (derivative_entry self a c) (seq 0 (n_columns coefs)))
      (map (fun c => map (derivative_entry self b c) (seq 0 (n_columns coefs)))
           (coefficient_rows coefs))
  = map (fun c => map (derivative_entry self (a + b) c) (seq 0 (n_columns coefs)))
        (coefficient_rows coefs).
Proof.
  intros HT Hwf Ha Hb.
  rewrite map_map. apply map_ext. intros c.
  destruct (well_formed_shape self coefs Hwf) as (HnK & _). rewrite HnK.
  apply map_ext_in. intros j Hj. apply in_seq in Hj.
  apply derivative_entry_compose; try assumption. lia.
Qed.

(** X15.  Derivatives compose: on an array with one column per basis
    function, the coefficients of the derivative of order [a] of the
    derivative of order [b] are those of the derivative of order
    [a + b]. *)
Theorem derivative_orders_add (self : Fourier) (coefs : coefficient_array) (a b : Z) :
  0 < period self ->
  well_formed self coefs ->
  (0 <= a)%Z -> (0 <= b)%Z ->
  (r <- _derivative_basis_and_coefs self coefs b ;;
   _derivative_basis_and_coefs (fst r) (snd r) a)
  = _derivative_basis_and_coefs self coefs (a + b).
Proof.
  intros HT Hwf Ha Hb.
  rewrite (derivative_closed_form self coefs b Hwf). cbn [bind fst snd].
  rewrite (derivative_closed_form self _ a (derivative_well_formed self coefs b Hwf)).
  rewrite (derivative_closed_form self coefs (a + b) Hwf).
  cbn [n_columns coefficient_rows]. do 3 f_equal.
  now apply closed_form_compose.
Qed.

End DerivativeOrders.

Module FourierCalculus.

Import Fourier FourierDerivative FourierSeries FourierDerivativeFacts DerivativeOrders.
Import Reals.
Open Scope R_scope.
Open Scope py_scope.

Lemma rsum_ext (n : nat) (f g : nat -> R) :
  (forall k, (k < n)%nat -> f k = g k) -> rsum n f = rsum n g.
Proof.
  induction n as [|n IH]; intros H; simpl; [reflexivity|].
  rewrite IH by (intros; apply H; lia). rewrite (H n) by lia. reflexivity.
Qed.

Lemma rsum_shift (n : nat) (f : nat -> R) :
  rsum (S n) f = f 0%nat + rsum n (fun k => f (S k)).
Proof.
  induction n as [|n IH]; simpl in *; [ring|]. rewrite IH. ring.
Qed.

(** A sum of products of two lists of the same length, by index. *)
Lemma dot_rsum (c v : list R) :
  length c = length v ->
  fold_right Rplus 0 (map (fun p => fst p * snd p) (combine c v))
  = rsum (length c) (fun j => nth j c 0 * nth j v 0).
Proof.
  revert v. induction c as [|a c IH]; intros [|b v] Hlen; simpl in Hlen;
    try discriminate; [reflexivity|].
  change (length (a :: c)) with (S (length c)). rewrite rsum_shift.
  cbn [combine map fold_right fst snd nth]. rewrite IH by lia. reflexivity.
Qed.

(** A sum over 2 K + 1 indices: the first term, then the terms two by
    two. *)
Lemma rsum_pairs (K : nat) (f : nat -> R) :
  rsum (S (2 * K)) f
  = f 0%nat + rsum K (fun k => f (S (2 * k)) + f (2 * S k)%nat).
Proof.
  induction K as [|K IH]; [simpl; ring|].
  replace (S (2 * S K)) with (S (S (S (2 * K)))) by lia.
  change (rsum (S (S (S (2 * K)))) f)
    with (rsum (S (2 * K)) f + f (S (2 * K)) + f (S (S (2 * K)))).
  rewrite IH. cbn [rsum].
  replace (S (S (2 * K))) with (2 * S K)%nat by lia. ring.
Qed.

(** The derivative of a finite sum. *)
Lemma rsum_derivative (K : nat) (g : nat -> R -> R) (g' : nat -> R) (t : R) :
  (forall k, (k < K)%nat -> derivable_pt_lim (g k) t (g' k)) ->
  derivable_pt_lim (fun u => rsum K (fun k => g k u)) t (rsum K g').
Proof.
  induction K as [|K IH]; intros H; cbn [rsum].
  - apply (derivable_pt_lim_const 0).
  - apply (derivable_pt_lim_plus (fun u => rsum K (fun k => g k u)) (g K)).
    + apply IH. intros k Hk. apply H. lia.
    + apply H. lia.
Qed.

(** The derivative of s sin(x t) / d + c cos(x t) / d. *)
Lemma trig_pair_derivative (s c x d t : R) :
  derivable_pt_lim (fun u => s * (sin (x * u) / d) + c * (cos (x * u) / d)) t
    ((- (c * x)) * (sin (x * t) / d) + (s * x) * (cos (x * t) / d)).
Proof.
  assert (Hlin : derivable_pt_lim (mult_real_fct x id) t (x * 1))
    by apply derivable_pt_lim_scal, derivable_pt_lim_id.
  assert (Hsin := derivable_pt_lim_comp (mult_real_fct x id) sin t (x * 1)
                    (cos (x * t)) Hlin (derivable_pt_lim_sin _)).
  assert (Hcos := derivable_pt_lim_comp (mult_real_fct x id) cos t (x * 1)
                    (- sin (x * t)) Hlin (derivable_pt_lim_cos _)).
  apply (derivable_pt_lim_scal _ (s / d)) in Hsin.
  apply (derivable_pt_lim_scal _ (c / d)) in Hcos.
  assert (Hsum := derivable_pt_lim_plus _ _ _ _ _ Hsin Hcos).
  replace (- (c * x) * (sin (x * t) / d) + s * x * (cos (x * t) / d))
    with (s / d * (cos (x * t) * (x * 1)) + c / d * (- sin (x * t) * (x * 1)))
    by (unfold Rdiv; ring).
  eapply derivable_pt_lim_ext; [|exact Hsum].
  intros u. unfold plus_fct, mult_real_fct, comp, id, Rdiv. ring.
Qed.

(** The number of rows of [_evaluate] for an odd number of functions. *)
Lemma evaluate_length (b : Fourier) (pts : list R) :
  Z.odd (n_basis b) = true -> (1 <= n_basis b)%Z ->
  length (_evaluate b pts) = S (2 * Z.to_nat (n_basis b / 2))
  /\ ((n_basis b - 1) / 2 = n_basis b / 2)%Z.
Proof.
  intros Hodd Hpos. apply Z.odd_spec in Hodd as [k Hk].
  assert (H1 : ((n_basis b - 1) / 2 = k)%Z).
  { symmetry. apply Z.div_unique with 0%Z; lia. }
  assert (H2 : (n_basis b / 2 = k)%Z).
  { symmetry. apply Z.div_unique with 1%Z; lia. }
  split; [|congruence].
  unfold _evaluate. rewrite length_app, trig_rows_length, !length_map, length_seq.
  rewrite H1, H2. reflexivity.
Qed.

(** The combination with the coefficients [c], written out: the constant
    function, then a sine and a cosine for each frequency. *)
Lemma combination_pairs (b : Fourier) (c : list R) (t : R) :
  0 < period b ->
  Z.odd (n_basis b) = true -> (1 <= n_basis b)%Z ->
  let K := Z.to_nat (n_basis b / 2) in
  let d := sqrt (period b / 2) in
  length c = S (2 * K) ->
  combination b c t
  = nth 0 c 0 * (1 / (sqrt 2 * d))
    + rsum K (fun k =>
        let x := INR (S k) * (2 * PI / period b) in
        nth (S (2 * k)) c 0 * (sin (x * t) / d)
        + nth (2 * S k) c 0 * (cos (x * t) / d)).
Proof.
  intros HT Hodd Hpos K d Hc.
  destruct (evaluate_length b [t] Hodd Hpos) as [Hlen Hhalf]. fold K in Hlen.
  unfold combination.
  rewrite dot_rsum by (rewrite length_map; congruence).
  rewrite Hc, rsum_pairs.
  assert (Hvalue : forall j, (j < S (2 * K))%nat ->
            nth j (map (fun row => nth 0 row 0) (_evaluate b [t])) 0
            = nth 0 (nth j (_evaluate b [t]) []) 0).
  { intros j Hj. apply (nth_map_in (fun row => nth 0 row 0)). lia. }
  f_equal.
  apply rsum_ext. intros k Hk. cbv zeta.
  rewrite !Hvalue by lia.
  destruct (evaluate_pair b [t] k 0 HT) as [Hs Hcos];
    [rewrite Hhalf; exact Hk | simpl; lia |].
  cbn [nth] in Hs, Hcos.
  rewrite Hs, Hcos. fold d.
  replace (2 * PI * INR (S k) / period b * t)
    with (INR (S k) * (2 * PI / period b) * t) by (unfold Rdiv; ring).
  reflexivity.
Qed.

(** The coefficients of the derivative of order 1 are those of the
    derivative of the combination. *)
Lemma first_derivative (b : Fourier) (c : list R) (t : R) :
  0 < period b ->
  Z.odd (n_basis b) = true -> (1 <= n_basis b)%Z ->
  let n := S (2 * Z.to_nat (n_basis b / 2)) in
  length c = n ->
  derivable_pt_lim (combination b c) t
    (combination b (map (derivative_entry b 1 c) (seq 0 n)) t).
Proof.
  intros HT Hodd Hpos n Hc.
  set (K := Z.to_nat (n_basis b / 2)) in *.
  set (d := sqrt (period b / 2)).
  rewrite (combination_pairs b (map _ _) t HT Hodd Hpos)
    by (now rewrite length_map, length_seq).
  fold K d.
  eapply derivable_pt_lim_ext.
  { intros u. symmetry. apply (combination_pairs b c u HT Hodd Hpos Hc). }
  fold K d. cbv zeta.
  rewrite derivative_row_nth by (unfold n; lia).
  change (derivative_entry b 1 c 0) with 0.
  replace (0 * (1 / (sqrt 2 * d))) with (0 + 0) by ring.
  rewrite Rplus_assoc, Rplus_0_l.
  apply (derivable_pt_lim_plus
           (fun _ => nth 0 c 0 * (1 / (sqrt 2 * d)))
           (fun u => rsum K (fun k =>
              nth (S (2 * k)) c 0 * (sin (INR (S k) * (2 * PI / period b) * u) / d)
              + nth (2 * S k) c 0 * (cos (INR (S k) * (2 * PI / period b) * u) / d)))).
  - apply (derivable_pt_lim_const (nth 0 c 0 * (1 / (sqrt 2 * d)))).
  - apply (rsum_derivative K
             (fun k u =>
                nth (S (2 * k)) c 0 * (sin (INR (S k) * (2 * PI / period b) * u) / d)
                + nth (2 * S k) c 0 * (cos (INR (S k) * (2 * PI / period b) * u) / d))).
    intros k Hk.
    rewrite !derivative_row_nth by (unfold n; lia).
    rewrite derivative_entry_odd, derivative_entry_even. cbv zeta.
    change (Z.even 1) with false. cbv iota.
    change ((1 + 1) ÷ 2)%Z with 1%Z. change (1 ÷ 2)%Z with 0%Z.
    rewrite !powerRZ_1, powerRZ_O.
    replace (-1 * nth (2 * S k) c 0 * (INR (S k) * (2 * PI / period b)))
      with (- (nth (2 * S k) c 0 * (INR (S k) * (2 * PI / period b)))) by ring.
    replace (1 * nth (S (2 * k)) c 0 * (INR (S k) * (2 * PI / period b)))
      with (nth (S (2 * k)) c 0 * (INR (S k) * (2 * PI / period b))) by ring.
    apply trig_pair_derivative.
Qed.

(** X14.  The coefficients [Fourier._derivative_basis_and_coefs] returns
    for an order n >= 1 are those of the derivative of order n: for an
    array with one column per basis function, the call returns, and the
    combination of the basis functions with the row [i] of the result is
    the n-th derivative of the combination with the row [i] of the
    argument. *)
Theorem derivative_coefficients_are_the_derivative
    (self : Fourier) (n i : nat) (coefs : coefficient_array) :
  0 < period self ->
  well_formed self coefs ->
  (1 <= n)%nat ->
  (i < length (coefficient_rows coefs))%nat ->
  exists coefs',
    _derivative_basis_and_coefs self coefs (Z.of_nat n) = Ok (self, coefs')
    /\ derivative_of_order n
         (combination self (nth i (coefficient_rows coefs) []))
         (combination self (nth i (coefficient_rows coefs') [])).
Proof.
  intros HT Hwf Hn Hi. revert coefs Hwf Hi.
  destruct n as [|n]; [lia|]. clear Hn.
  induction n as [|n IH]; intros coefs Hwf Hi.
  - rewrite (derivative_closed_form self coefs _ Hwf).
    eexists. split; [reflexivity|]. cbn [coefficient_rows].
    rewrite (nth_map_in _ _ []) by exact Hi.
    destruct (well_formed_shape self coefs Hwf) as (HnK & _).
    destruct Hwf as (Hodd & Hpos & _ & Hrows).
    rewrite List.Forall_forall in Hrows.
    assert (Hc := Hrows _ (nth_In _ [] Hi)).
    eexists. split; [|intros t; reflexivity].
    intros t. rewrite HnK. apply first_derivative; try assumption. congruence.
  - replace (Z.of_nat (S (S n))) with (Z.of_nat (S n) + 1)%Z by lia.
    destruct (IH _ (derivative_well_formed self coefs 1 Hwf)) as (coefs' & Hrun & Hd).
    { cbn [coefficient_rows]. now rewrite length_map. }
    exists coefs'. split.
    { rewrite (derivative_closed_form self _ _
                 (derivative_well_formed self coefs 1 Hwf)) in Hrun.
      rewrite (derivative_closed_form self coefs _ Hwf), <- Hrun.
      cbn [n_columns coefficient_rows]. do 3 f_equal. symmetry.
      apply closed_form_compose; try assumption; lia. }
    cbn [coefficient_rows] in Hd. rewrite (nth_map_in _ _ []) in Hd by exact Hi.
    destruct (well_formed_shape self coefs Hwf) as (HnK & _).
    destruct Hwf as (Hodd & Hpos & _ & Hrows).
    rewrite List.Forall_forall in Hrows.
    assert (Hc := Hrows _ (nth_In _ [] Hi)).
    eexists. split; [|exact Hd].
    intros t. rewrite HnK. apply first_derivative; try assumption. congruence.
Qed.

Lemma derivative_coefficients_witness :
  let b := mk_Fourier (Some [0; 1]) 3 None in
  let coefs := mk_coefficient_array 3 [[1; 2; 3]] in
  exists coefs',
    _derivative_basis_and_coefs b coefs 2 = Ok (b, coefs')
    /\ derivative_of_order 2 (combination b [1; 2; 3])
         (combination b (nth 0 (coefficient_rows coefs') [])).
Proof.
  apply (derivative_coefficients_are_the_derivative
           (mk_Fourier (Some [0; 1]) 3 None) 2 0
           (mk_coefficient_array 3 [[1; 2; 3]])).
  - unfold period. simpl. Lra.lra.
  - split; [reflexivity|]. split; [simpl; lia|]. split; [reflexivity|].
    repeat constructor.
  - lia.
  - simpl. lia.
Defined.

Lemma derivative_orders_add_witness :
  let b := mk_Fourier (Some [0; 1]) 3 None in
  let coefs := mk_coefficient_array 3 [[1; 2; 3]] in
  (r <- _derivative_basis_and_coefs b coefs 1 ;;
   _derivative_basis_and_coefs (fst r) (snd r) 1)
  = _derivative_basis_and_coefs b coefs (1 + 1).
Proof.
  apply (derivative_orders_add (mk_Fourier (Some [0; 1]) 3 None)
           (mk_coefficient_array 3 [[1; 2; 3]]) 1 1).
  - unfold period. simpl. Lra.lra.
  - split; [reflexivity|]. split; [simpl; lia|]. split; [reflexivity|].
    repeat constructor.
  - lia.
  - lia.
Defined.

End FourierCalculus.

Module FourierOrderZero.

Import Fourier FourierDerivative FourierDerivativeFacts.
Import Reals.
Open Scope R_scope.
Open Scope py_scope.

Lemma map_nth_seq (c : list R) (n : nat) :
  length c = S n ->
  map (fun j => nth j c 0) (seq 1 n) = tl c.
Proof.
  destruct c as [|x c]; [discriminate|]. cbn [length tl]. intros [= <-].
  rewrite <- seq_shift, map_map. cbn [nth].
  clear x. induction c as [|y c IH]; [reflexivity|].
  cbn [length seq map nth]. f_equal. rewrite <- seq_shift, map_map. exact IH.
Qed.

(** X20.  With the order 0 [_derivative_basis_and_coefs] does not return
    the coefficients it is given: it keeps those of the sines and the
    cosines and sets the coefficient of the constant function to 0. *)
Theorem derivative_of_order_zero_drops_the_constant
    (self : Fourier) (coefs : coefficient_array) :
  well_formed self coefs ->
  _derivative_basis_and_coefs self coefs 0
  = Ok (self,
        mk_coefficient_array (n_columns coefs)
          (map (fun c => 0 :: tl c) (coefficient_rows coefs))).
Proof.
  intros Hwf. rewrite (derivative_closed_form self coefs 0 Hwf).
  destruct (well_formed_shape self coefs Hwf) as (HnK & _).
  destruct Hwf as (_ & _ & _ & Hrows).
  do 3 f_equal. apply map_ext_in. intros c Hc.
  rewrite List.Forall_forall in Hrows. specialize (Hrows c Hc).
  rewrite HnK in *. cbn [seq map]. f_equal.
  rewrite <- (map_nth_seq c _ Hrows).
  apply map_ext_in. intros j Hj. apply in_seq in Hj.
  unfold derivative_entry.
  replace (j =? 0)%nat with false by (symmetry; apply Nat.eqb_neq; lia).
  cbn [Z.even Z.quot Z.add]. 
  change (Z.quot 0 2) with 0%Z. change (Z.quot 1 2) with 0%Z.
  rewrite !powerRZ_O. destruct (Nat.odd j); ring.
Qed.

Lemma derivative_of_order_zero_witness :
  let b := mk_Fourier (Some [0; 1]) 3 None in
  _derivative_basis_and_coefs b (mk_coefficient_array 3 [[1; 2; 3]]) 0
  = Ok (b, mk_coefficient_array 3 [[0; 2; 3]]).
Proof.
  apply (derivative_of_order_zero_drops_the_constant
           (mk_Fourier (Some [0; 1]) 3 None)
           (mk_coefficient_array 3 [[1; 2; 3]])).
  split; [reflexivity|]. split; [simpl; lia|]. split; [reflexivity|].
  repeat constructor.
Defined.

End FourierOrderZero.

(* ===================================================================== *)
(** * Facts about grids of points                                        *)
(* ===================================================================== *)

Module UtilsFacts.

Import Utils.
Open Scope py_scope.

Section Arrays.

Context {T : Type}.

Lemma cartesian_length (axes : list (list T)) :
  length (cartesian axes) = size (map (@length T) axes).
Proof.
  induction axes as [|a axes IH]; [reflexivity|].
  cbn [cartesian map size fold_right]. fold (size (map (@length T) axes)).
  rewrite <- IH. clear IH.
  induction a as [|x a IHa]; [reflexivity|].
  cbn [flat_map length]. rewrite length_app, length_map, IHa. reflexivity.
Qed.

(** A point of the grid takes each coordinate from the axis of the
    coordinate. *)
Lemma cartesian_In (axes : list (list T)) (p : list T) :
  In p (cartesian axes) <-> Forall2 (fun x a => In x a) p axes.
Proof.
  revert p. induction axes as [|a axes IH]; intros p; cbn [cartesian].
  - split.
    + intros [<-|[]]. constructor.
    + intros H. inversion H. now left.
  - rewrite in_flat_map. split.
    + intros (x & Hx & Hp). apply in_map_iff in Hp as (q & <- & Hq).
      constructor; [exact Hx|]. now apply IH.
    + intros H. inversion H as [|x a' q axes' Hx Hq]; subst.
      exists x. split; [exact Hx|]. apply in_map. now apply IH.
Qed.

Lemma cartesian_point_length (axes : list (list T)) (p : list T) :
  In p (cartesian axes) -> length p = length axes.
Proof.
  intros H. apply cartesian_In in H.
  induction H; simpl; congruence.
Qed.

(** X16.  [_cartesian_product] of one or more axes returns an array of
    shape (n_1 ... n_m, m), or (n_1 * ... * n_m, m) when flattened,
    where n_k is the length of the axis k: it has n_1 * ... * n_m points
    of m coordinates, and its points are exactly the lists that take
    their k-th coordinate from the axis k. *)
Theorem cartesian_product_is_the_grid
    (a : list T) (rest : list (list T)) (flatten return_shape : bool) :
  let axes := a :: rest in
  let lengths := map (@length T) axes in
  exists c,
    _cartesian_product axes flatten return_shape
    = Ok (if return_shape then ArrayAndShape c (lengths ++ [length axes])
          else Array c)
    /\ array_shape c = (if flatten then [size lengths; length axes]
                        else lengths ++ [length axes])
    /\ length (array_points c) = size lengths
    /\ (forall p, In p (array_points c) -> length p = length axes)
    /\ (forall p, In p (array_points c) <-> Forall2 (fun x ax => In x ax) p axes).
Proof.
  intros axes lengths. unfold _cartesian_product. cbn [axes].
  fold axes.
  exists (if flatten
          then mk_point_array [length (cartesian axes); length axes] (cartesian axes)
          else mk_point_array (lengths ++ [length axes]) (cartesian axes)).
  split; [destruct flatten, return_shape; reflexivity|].
  split; [destruct flatten; cbn [array_shape]; [rewrite cartesian_length|]; reflexivity|].
  split; [destruct flatten; apply cartesian_length|].
  split.
  - intros p Hp. apply cartesian_point_length. destruct flatten; exact Hp.
  - intros p. rewrite <- cartesian_In. destruct flatten; reflexivity.
Qed.

Lemma nth_flat_map_blocks {A : Type} (f : T -> list A) (a : list T) (n i j : nat)
    (d : T) (d' : A) :
  (forall x, length (f x) = n) ->
  (i < length a)%nat -> (j < n)%nat ->
  nth (i * n + j) (flat_map f a) d' = nth j (f (nth i a d)) d'.
Proof.
  intros Hn. revert i. induction a as [|x a IH]; intros i Hi Hj; simpl in Hi; [lia|].
  cbn [flat_map]. destruct i as [|i].
  - rewrite app_nth1 by (rewrite Hn; lia). reflexivity.
  - rewrite app_nth2 by (rewrite Hn; lia). rewrite Hn.
    replace (S i * n + j - n)%nat with (i * n + j)%nat by lia.
    apply IH; lia.
Qed.

Lemma cartesian_nth (axes : list (list T)) (i : list nat) (d : T) :
  Forall2 (fun k ax => (k < length ax)%nat) i axes ->
  (ravel (map (@length T) axes) i < size (map (@length T) axes))%nat
  /\ nth (ravel (map (@length T) axes) i) (cartesian axes) []
     = map (fun p => nth (fst p) (snd p) d) (combine i axes).
Proof.
  intros H. induction H as [|k ax i axes Hk H [Hlt IH]]; [split; [simpl; lia|reflexivity]|].
  cbn [map ravel cartesian combine fst snd size fold_right].
  fold (size (map (@length T) axes)). split.
  - nia.
  - rewrite (nth_flat_map_blocks _ ax (size (map (@length T) axes)) k _ d) ; try assumption.
    + rewrite (nth_indep _ [] (nth k ax d :: []))
        by (rewrite length_map, cartesian_length; exact Hlt).
      rewrite (map_nth (cons (nth k ax d))). now rewrite IH.
    + intros x. now rewrite length_map, cartesian_length.
Qed.

Lemma cartesian_product_points (axes : list (list T)) (flatten : bool)
    (c : point_array T) :
  _cartesian_product axes flatten false = Ok (Array c) ->
  array_points c = cartesian axes.
Proof.
  unfold _cartesian_product. destruct axes as [|a rest]; [discriminate|].
  destruct flatten; intros [= <-]; reflexivity.
Qed.

(** X17.  The points of [_cartesian_product] come in row-major order,
    the first axis varying slowest: for indices (i_1, ..., i_m) within
    the axes, the point at the position [ravel] of the indices has the
    coordinates axes[1][i_1], ..., axes[m][i_m]. *)
Theorem cartesian_product_is_in_row_major_order
    (axes : list (list T)) (flatten : bool) (c : point_array T)
    (i : list nat) (d : T) :
  _cartesian_product axes flatten false = Ok (Array c) ->
  Forall2 (fun k ax => (k < length ax)%nat) i axes ->
  let position := ravel (map (@length T) axes) i in
  (position < length (array_points c))%nat
  /\ nth position (array_points c) []
     = map (fun p => nth (fst p) (snd p) d) (combine i axes).
Proof.
  intros Hrun Hi position. rewrite (cartesian_product_points _ _ _ Hrun).
  rewrite cartesian_length. now apply cartesian_nth.
Qed.

Lemma list_of_arrays_nonempty (original_array : array_like T) (l : list (list T)) :
  _list_of_arrays original_array = Ok l -> l <> [].
Proof.
  destruct original_array as [x|[|x f]|[|r n]]; cbn [_list_of_arrays];
    try discriminate; intros [= <-]; discriminate.
Qed.

(** X18.  [_list_of_arrays] returns a list of arrays that is not empty
    and that it takes as it is: applied to its own result it returns it
    again. *)
Theorem list_of_arrays_is_idempotent (original_array : array_like T) (l : list (list T)) :
  _list_of_arrays original_array = Ok l ->
  l <> [] /\ _list_of_arrays (Nested l) = Ok l.
Proof.
  intros H. pose proof (list_of_arrays_nonempty _ _ H) as Hne.
  split; [exact Hne|]. destruct l; [contradiction|reflexivity].
Qed.

(** X19.  [_one_grid_to_points] needs one axis per dimension of the
    domain: with another number of axes it raises [ValueError]; with that
    number it returns the points of the grid, as many as the product of
    the lengths of the axes, and these lengths as the shape. *)
Theorem one_grid_to_points_shape
    (axes : array_like T) (arrays : list (list T)) (dim_domain : nat) :
  _list_of_arrays axes = Ok arrays ->
  (length arrays <> dim_domain ->
   _one_grid_to_points axes dim_domain
   = Raise (ValueError ("Length of axes should be " ++ pretty dim_domain)))
  /\ (length arrays = dim_domain ->
      exists c,
        _one_grid_to_points axes dim_domain = Ok (c, map (@length T) arrays)
        /\ array_points c = cartesian arrays
        /\ array_shape c = [size (map (@length T) arrays); dim_domain]
        /\ length (array_points c) = size (map (@length T) arrays)).
Proof.
  intros Harrays. unfold _one_grid_to_points. rewrite Harrays. cbn [bind].
  split; intros Hlen.
  - apply Nat.eqb_neq in Hlen. rewrite Hlen. reflexivity.
  - rewrite Hlen, Nat.eqb_refl. cbn [negb].
    pose proof (list_of_arrays_nonempty axes arrays Harrays) as Hne.
    destruct arrays as [|a rest]; [contradiction|].
    unfold _cartesian_product. cbn [bind]. rewrite removelast_last.
    eexists. split; [reflexivity|]. cbn [array_points array_shape].
    rewrite cartesian_length, Hlen. repeat split.
Qed.

End Arrays.

(** The function [_cartesian_product] of the smoother and the function
    [_list_of_arrays] of the Fourier basis are the ones of this module. *)
Lemma smoothing_cartesian_product (axes : list (list Q)) :
  Smoothing._cartesian_product axes
  = (r <- _cartesian_product axes true false ;;
     match r with
     | Array c => Ok (array_points c)
     | ArrayAndShape c _ => Ok (array_points c)
     end).
Proof. destruct axes; reflexivity. Qed.

Lemma fourier_list_of_arrays (d : Fourier.array_like) :
  Fourier._list_of_arrays d = _list_of_arrays (of_fourier d).
Proof. destruct d as [x|[|x l]|[|r l]]; reflexivity. Qed.

Lemma cartesian_product_is_in_row_major_order_witness :
  let axes := [[0; 1]; [2; 3]; [4]]%nat in
  let c := mk_point_array [4; 3]%nat (cartesian axes) in
  (2 < length (array_points c))%nat
  /\ nth 2 (array_points c) [] = [1; 2; 4]%nat.
Proof.
  exact (cartesian_product_is_in_row_major_order
           [[0; 1]; [2; 3]; [4]]%nat true
           (mk_point_array [4; 3]%nat (cartesian [[0; 1]; [2; 3]; [4]]%nat))
           [1; 0; 0]%nat 0%nat eq_refl
           ltac:(repeat constructor)).
Defined.

Lemma list_of_arrays_is_idempotent_witness :
  [[1; 2; 3]]%nat <> [] /\ _list_of_arrays (Nested [[1; 2; 3]]%nat) = Ok [[1; 2; 3]]%nat.
Proof.
  exact (list_of_arrays_is_idempotent (Flat [1; 2; 3]%nat) [[1; 2; 3]]%nat eq_refl).
Defined.

Lemma one_grid_to_points_shape_witness :
  let axes := Nested [[0; 1]; [2; 3; 4]]%nat in
  _one_grid_to_points axes 1 = Raise (ValueError "Length of axes should be 1")
  /\ exists c,
       _one_grid_to_points axes 2 = Ok (c, [2; 3]%nat)
       /\ array_points c = cartesian [[0; 1]; [2; 3; 4]]%nat
       /\ array_shape c = [6; 2]%nat
       /\ length (array_points c) = 6%nat.
Proof.
  split.
  - apply (proj1 (one_grid_to_points_shape (Nested [[0; 1]; [2; 3; 4]]%nat)
                    [[0; 1]; [2; 3; 4]]%nat 1 eq_refl)).
    simpl. lia.
  - apply (proj2 (one_grid_to_points_shape (Nested [[0; 1]; [2; 3; 4]]%nat)
                    [[0; 1]; [2; 3; 4]]%nat 2 eq_refl)).
    reflexivity.
Defined.

End UtilsFacts.
